(** * mini_mc: the smart-copy engine, move/delete, the directory diff and the
      bounded command log of [mini_mc.py], embedded and verified.

    The program talks to three outside parties: the local operating system
    ([os], [shutil], [open], [hashlib]), an SSH session ([ssh.exec_command])
    and an SFTP channel ([sftp.put], [sftp.get], ...).  Every call to one of
    them is an _external call_.  A run of the program is modelled by explicit
    state passing over

    - the module-level list [cmd_log], and
    - the chronological list of the external calls made so far,

    and the outside world is an [Env]: for every external call, a function
    from the calls made before it and its arguments to its answer (a value or
    a raised exception).  The answer may depend on the whole history, so files
    may appear, change or vanish between two calls.  Python exceptions are
    propagated as in the source; [try]/[except] clauses catch the classes the
    source names. *)

From Stdlib Require Import ZArith String Ascii DecimalString DecimalPos Lia Sorted.
From stdpp Require Import base list gmap sets strings.

Open Scope Z_scope.

(** ** Strings: the [str] methods the program uses *)

Module Str.

Definition slash : ascii := "/"%char.

(** [s.rstrip(c)] for a one-character argument. *)
Fixpoint rstrip (c : ascii) (s : string) : string :=
  match s with
  | EmptyString => EmptyString
  | String a s' =>
      match rstrip c s' with
      | EmptyString => if Ascii.eqb a c then EmptyString else String a EmptyString
      | r => String a r
      end
  end.

(** ASCII white space, as [str.isspace] sees it. *)
Definition isspace (a : ascii) : bool :=
  let n := N_of_ascii a in
  ((9 <=? n) && (n <=? 13) || (28 <=? n) && (n <=? 32))%N.

(** [s.split()]: the maximal runs of non-space characters.  [cur] is the
    token being read, reversed. *)
Fixpoint split_aux (s : string) (cur : list ascii) : list string :=
  let flush (rest : list string) :=
    match cur with
    | [] => rest
    | _ => string_of_list_ascii (rev cur) :: rest
    end in
  match s with
  | EmptyString => flush []
  | String a s' =>
      if isspace a then flush (split_aux s' [])
      else split_aux s' (a :: cur)
  end.

Definition split (s : string) : list string := split_aux s [].

Fixpoint lstrip (s : string) : string :=
  match s with
  | String a s' => if isspace a then lstrip s' else s
  | EmptyString => EmptyString
  end.

(** [s.strip()]: white space removed at both ends. *)
Definition strip (s : string) : string :=
  let r := lstrip (string_of_list_ascii (rev (list_ascii_of_string (lstrip s)))) in
  string_of_list_ascii (rev (list_ascii_of_string r)).

Definition is_digit (a : ascii) : bool :=
  let n := N_of_ascii a in ((48 <=? n) && (n <=? 57))%N.

(** [s.isdigit()] on ASCII text: non-empty and decimal digits only. *)
Definition isdigit (s : string) : bool :=
  match s with
  | EmptyString => false
  | _ => forallb is_digit (list_ascii_of_string s)
  end.

(** [int(s)] for a string of ASCII decimal digits, as long as Python converts
    it (up to 4300 digits in every version). *)
Definition int (s : string) : Z :=
  fold_left (fun acc a => 10 * acc + (Z.of_N (N_of_ascii a) - 48))
            (list_ascii_of_string s) 0.

(** [str(n)] for an integer. *)
Definition of_int (n : Z) : string := NilZero.string_of_int (Z.to_int n).

Definition lower_ascii (a : ascii) : ascii :=
  let n := N_of_ascii a in
  if ((65 <=? n) && (n <=? 90))%N then ascii_of_N (n + 32) else a.

(** [s.lower()] on ASCII text. *)
Fixpoint lower (s : string) : string :=
  match s with
  | EmptyString => EmptyString
  | String a s' => String (lower_ascii a) (lower s')
  end.

Fixpoint endswith_slash (s : string) : bool :=
  match s with
  | EmptyString => false
  | String a EmptyString => Ascii.eqb a slash
  | String _ s' => endswith_slash s'
  end.

Definition startswith_slash (s : string) : bool :=
  match s with
  | String a _ => Ascii.eqb a slash
  | EmptyString => false
  end.

End Str.

(** The program runs under curses on a POSIX system, where [os.path.join]
    is [posixpath.join]: an absolute second component replaces the first;
    otherwise a separator is inserted unless the first component is empty or
    already ends with one. *)
Definition os_path_join (a b : string) : string :=
  if Str.startswith_slash b then b
  else if (a =? "")%string || Str.endswith_slash a then a +:+ b
  else a +:+ "/" +:+ b.

(** ** Exceptions

    The classes the program's [except] clauses tell apart.  [IOError] is
    [OSError] in Python 3 (socket errors and [FileNotFoundError] included);
    [SSHException] stands for the exceptions of the SSH layer that are not
    [OSError]s.  All of them derive from [Exception]; asynchronous
    [BaseException]s (a keyboard interrupt) are not part of the model. *)
Inductive exn : Type :=
| OSError (msg : string)
| SSHException (msg : string)
| ValueError (msg : string)
| RecursionError.

Definition is_OSError (e : exn) : bool :=
  match e with OSError _ => true | _ => false end.

Definition is_Exception (e : exn) : bool := true.

(** [str(e)], as interpolated into the log lines. *)
Definition exn_str (e : exn) : string :=
  match e with
  | OSError m | SSHException m | ValueError m => m
  | RecursionError => "maximum recursion depth exceeded"
  end.

Inductive outcome (A : Type) : Type :=
| Return (a : A)
| Raise (e : exn).
Arguments Return {A} a.
Arguments Raise {A} e.

(** ** External calls and the environment *)

Inductive call : Type :=
| OsPathIsdir (path : string)
| OsPathIsfile (path : string)
| OsPathExists (path : string)
| OsPathGetsize (path : string)
| OsScandir (path : string)
| OsMkdir (path : string)
| OsRemove (path : string)
| ShutilRmtree (path : string)
| OpenRb (path : string)
| SshExecCommand (cmd : string)
| SftpMkdir (path : string)
| SftpPut (localpath remotepath : string)
| SftpGet (remotepath localpath : string)
| SftpStat (path : string)
| SftpListdirAttr (path : string)
| SftpRemove (path : string)
| SftpRmdir (path : string).

Global Instance call_eq_dec : EqDecision call.
Proof. solve_decision. Defined.

(** What [ssh.exec_command] hands back once both streams are read and the
    exit status is received. *)
Record exec_result : Type := {
  stdout : string;
  stderr : string;
  exit_status : Z;
}.

(** The outside world.  [Bytes] is the type of the chunks [f.read] returns;
    only their length and their digest are ever looked at.  Every field but
    the first two takes the calls made so far as its first argument.

    - [env_open_rb h path chunk_size]: [open(path, 'rb')], and then what the
      successive [f.read(chunk_size)] calls yield, up to end of file (after
      the last listed read, [f.read] returns [b'']).
    - [env_hashlib algo]: [hashlib.new(algo)] as the function from the
      chunks fed by [update] to the [hexdigest]; [None] when [hashlib]
      does not know the name and raises [ValueError].  (The names with a
      digest of variable length, [shake_128] and [shake_256], whose
      [hexdigest()] wants a length, are neither: no world has them.)
    - [env_scandir]: the [(entry.name, entry.is_dir())] pairs.
    - [env_sftp_stat], [env_sftp_listdir_attr]: the [st_mode] fields. *)
Record Env (Bytes : Type) : Type := {
  env_len : Bytes -> Z;
  env_hashlib : string -> option (list Bytes -> string);
  env_isdir : list call -> string -> bool;
  env_isfile : list call -> string -> bool;
  env_exists : list call -> string -> bool;
  env_getsize : list call -> string -> outcome Z;
  env_scandir : list call -> string -> outcome (list (string * bool));
  env_mkdir : list call -> string -> outcome unit;
  env_remove : list call -> string -> outcome unit;
  env_rmtree : list call -> string -> outcome unit;
  env_open_rb : list call -> string -> Z -> outcome (list (outcome Bytes));
  env_exec_command : list call -> string -> outcome exec_result;
  env_sftp_mkdir : list call -> string -> outcome unit;
  env_sftp_put : list call -> string -> string -> outcome unit;
  env_sftp_get : list call -> string -> string -> outcome unit;
  env_sftp_stat : list call -> string -> outcome Z;
  env_sftp_listdir_attr : list call -> string -> outcome (list (string * Z));
  env_sftp_remove : list call -> string -> outcome unit;
  env_sftp_rmdir : list call -> string -> outcome unit;
}.
Arguments env_len {Bytes}.
Arguments env_hashlib {Bytes}.
Arguments env_isdir {Bytes}.
Arguments env_isfile {Bytes}.
Arguments env_exists {Bytes}.
Arguments env_getsize {Bytes}.
Arguments env_scandir {Bytes}.
Arguments env_mkdir {Bytes}.
Arguments env_remove {Bytes}.
Arguments env_rmtree {Bytes}.
Arguments env_open_rb {Bytes}.
Arguments env_exec_command {Bytes}.
Arguments env_sftp_mkdir {Bytes}.
Arguments env_sftp_put {Bytes}.
Arguments env_sftp_get {Bytes}.
Arguments env_sftp_stat {Bytes}.
Arguments env_sftp_listdir_attr {Bytes}.
Arguments env_sftp_remove {Bytes}.
Arguments env_sftp_rmdir {Bytes}.

(** ** The program state and its monad *)

Record state : Type := {
  cmd_log : list string;
  trace : list call;
}.

(** The state the program starts in: [cmd_log = []], nothing called yet. *)
Definition initial : state := {| cmd_log := []; trace := [] |}.

Definition M (A : Type) : Type := state -> outcome A * state.

Definition ret {A} (a : A) : M A := fun s => (Return a, s).

Definition raise {A} (e : exn) : M A := fun s => (Raise e, s).

Definition bind {A B} (m : M A) (k : A -> M B) : M B :=
  fun s =>
    match m s with
    | (Return a, s') => k a s'
    | (Raise e, s') => (Raise e, s')
    end.

Declare Scope py_scope.
Delimit Scope py_scope with py.
Notation "'let*' x := m 'in' k" := (bind m (fun x => k))
  (at level 10, x binder, m at level 100, k at level 200) : py_scope.
Notation "m ;; k" := (bind m (fun _ => k))
  (at level 100, k at level 200, right associativity) : py_scope.
Open Scope py_scope.

(** The value and the state a computation ends with. *)
Definition eval {A} (m : M A) (s : state) : outcome A := fst (m s).
Definition exec {A} (m : M A) (s : state) : state := snd (m s).

(** [try: body / except <classes>: handler]. *)
Definition try_except {A} (body : M A) (classes : exn -> bool)
    (handler : exn -> M A) : M A :=
  fun s =>
    match body s with
    | (Raise e, s') => if classes e then handler e s' else (Raise e, s')
    | r => r
    end.

(** [for x in l: body]. *)
Fixpoint for_each {A} (l : list A) (body : A -> M unit) : M unit :=
  match l with
  | [] => ret tt
  | x :: rest => body x ;; for_each rest body
  end.

(** An external call: the environment answers from the history, and the
    call joins the history. *)
Definition external {A} (c : call) (answer : list call -> outcome A) : M A :=
  fun s => (answer (trace s), {| cmd_log := cmd_log s; trace := trace s ++ [c] |}).

(** ** LOG / DEBUG COMMANDS *)

Definition CMD_LOG_MAX : nat := 5.

(** The body of [log_command] on the list: [append], then [pop(0)] when the
    list has grown past [CMD_LOG_MAX]. *)
Definition log_append (cmd : string) (log : list string) : list string :=
  let log := log ++ [cmd] in
  if (CMD_LOG_MAX <? length log)%nat then tail log else log.

Definition log_command (cmd : string) : M unit :=
  fun s => (Return tt, {| cmd_log := log_append cmd (cmd_log s); trace := trace s |}).

(** ** Configuration *)

Definition PARTIAL_MB : Z := 5.
Definition LARGE_FILE_MB : Z := 10.

(** The default of the [chunk_size] parameter of [compute_local_checksum]. *)
Definition DEFAULT_CHUNK_SIZE : Z := 65536.

(** [command_map] of [compute_remote_checksum]. *)
Definition command_map : gmap string string :=
  <["md5" := "md5sum"]> (<["sha256" := "sha256sum"]> (<["sha1" := "sha1sum"]> ∅)).

(** [0o040000] ([S_IFDIR]), the bit the program tests in [st_mode]. *)
Definition S_IFDIR : Z := 16384.

Definition mode_is_dir (st_mode : Z) : bool := negb (Z.land st_mode S_IFDIR =? 0).

(** Python truthiness of an [Optional[str]]: [None] and [''] are false. *)
Definition truthy (c : option string) : bool :=
  match c with
  | Some s => negb (s =? "")%string
  | None => false
  end.

(** The order in which a [for] loop walks a [set]: some enumeration of its
    elements, fixed by the interpreter and not by the program. *)
Record set_order : Type := {
  set_iter : gset string -> list string;
  set_iter_perm : forall X, set_iter X ≡ₚ elements X;
}.

(** ** The program *)

Section Program.

Context {Bytes : Type} (E : Env Bytes).

(** *** The external calls, by their Python names *)

Definition os_path_isdir (path : string) : M bool :=
  external (OsPathIsdir path) (fun h => Return (env_isdir E h path)).
Definition os_path_isfile (path : string) : M bool :=
  external (OsPathIsfile path) (fun h => Return (env_isfile E h path)).
Definition os_path_exists (path : string) : M bool :=
  external (OsPathExists path) (fun h => Return (env_exists E h path)).
Definition os_path_getsize (path : string) : M Z :=
  external (OsPathGetsize path) (fun h => env_getsize E h path).
Definition os_scandir (path : string) : M (list (string * bool)) :=
  external (OsScandir path) (fun h => env_scandir E h path).
Definition os_mkdir (path : string) : M unit :=
  external (OsMkdir path) (fun h => env_mkdir E h path).
Definition os_remove (path : string) : M unit :=
  external (OsRemove path) (fun h => env_remove E h path).
Definition shutil_rmtree (path : string) : M unit :=
  external (ShutilRmtree path) (fun h => env_rmtree E h path).
Definition open_rb (path : string) (chunk_size : Z) : M (list (outcome Bytes)) :=
  external (OpenRb path) (fun h => env_open_rb E h path chunk_size).
Definition ssh_exec_command (cmd : string) : M exec_result :=
  external (SshExecCommand cmd) (fun h => env_exec_command E h cmd).
Definition sftp_mkdir (path : string) : M unit :=
  external (SftpMkdir path) (fun h => env_sftp_mkdir E h path).
Definition sftp_put (localpath remotepath : string) : M unit :=
  external (SftpPut localpath remotepath) (fun h => env_sftp_put E h localpath remotepath).
Definition sftp_get (remotepath localpath : string) : M unit :=
  external (SftpGet remotepath localpath) (fun h => env_sftp_get E h remotepath localpath).
Definition sftp_stat (path : string) : M Z :=
  external (SftpStat path) (fun h => env_sftp_stat E h path).
Definition sftp_listdir_attr (path : string) : M (list (string * Z)) :=
  external (SftpListdirAttr path) (fun h => env_sftp_listdir_attr E h path).
Definition sftp_remove (path : string) : M unit :=
  external (SftpRemove path) (fun h => env_sftp_remove E h path).
Definition sftp_rmdir (path : string) : M unit :=
  external (SftpRmdir path) (fun h => env_sftp_rmdir E h path).

(** [hashlib.new(algo)]: no input or output, but [ValueError] for a name
    [hashlib] does not know. *)
Definition hashlib_new (algo : string) : M (list Bytes -> string) :=
  match env_hashlib E algo with
  | Some hexdigest => ret hexdigest
  | None => raise (ValueError ("unsupported hash type " +:+ algo))
  end.

(** *** LOKALE CHECKSUM *)

(** The [while True] loop of [compute_local_checksum], over what the reads
    of the open file yield.  [h] is the sequence of chunks passed to
    [h.update] so far. *)
Fixpoint read_loop (reads : list (outcome Bytes)) (max_bytes : option Z)
    (h : list Bytes) (bytes_read : Z) : outcome (list Bytes) :=
  match reads with
  | [] => Return h
  | Raise e :: _ => Raise e
  | Return chunk :: rest =>
      if env_len E chunk =? 0 then Return h
      else
        let h := h ++ [chunk] in
        let bytes_read := bytes_read + env_len E chunk in
        match max_bytes with
        | Some m =>
            if bytes_read >=? m then Return h
            else read_loop rest max_bytes h bytes_read
        | None => read_loop rest max_bytes h bytes_read
        end
  end.

Definition compute_local_checksum (path algo : string) (full : bool)
    (partial_mb chunk_size : Z) : M (option string) :=
  let* isfile := os_path_isfile path in
  if negb isfile then ret None
  else
    let* hexdigest := hashlib_new algo in
    let max_bytes := if full then None else Some (partial_mb * 1024 * 1024) in
    try_except
      (let* reads := open_rb path chunk_size in
       match read_loop reads max_bytes [] 0 with
       | Return h => ret (Some (hexdigest h))
       | Raise e => raise e
       end)
      is_OSError (fun _ => ret None).

(** *** REMOTE CHECKSUM *)

Definition remote_file_exists (remote_path : string) : M bool :=
  let check_cmd := "[ -f '" +:+ remote_path +:+ "' ]" in
  log_command check_cmd ;;
  let* r := ssh_exec_command check_cmd in
  ret (exit_status r =? 0).

Definition compute_remote_checksum (remote_path algo : string) (full : bool)
    (partial_mb : Z) : M (option string) :=
  let* found := remote_file_exists remote_path in
  if negb found then ret None
  else
    let sum_cmd := default "md5sum" (command_map !! algo) in
    let cmd :=
      if full then sum_cmd +:+ " '" +:+ remote_path +:+ "'"
      else "dd if='" +:+ remote_path +:+ "' bs=1M count=" +:+ Str.of_int partial_mb
           +:+ " 2>/dev/null | " +:+ sum_cmd in
    log_command cmd ;;
    try_except
      (let* r := ssh_exec_command cmd in
       let out_data := Str.strip (stdout r) in
       if negb (exit_status r =? 0) then ret None
       else
         match Str.split out_data with
         | first :: _ => ret (Some first)
         | [] => ret None
         end)
      is_Exception (fun _ => ret None).

Definition remote_file_size (remote_path : string) : M (option Z) :=
  let cmd := "stat -c %s '" +:+ remote_path +:+ "'" in
  log_command cmd ;;
  try_except
    (let* r := ssh_exec_command cmd in
     let out_data := Str.strip (stdout r) in
     if (exit_status r =? 0) && Str.isdigit out_data then ret (Some (Str.int out_data))
     else ret None)
    is_Exception (fun _ => ret None).

(** *** LISTEN (LOKAL + REMOTE) *)

(** [key=lambda x: (not x[1], x[0].lower())], and [<] on such pairs. *)
Definition sort_key (x : string * bool) : bool * string :=
  (negb x.2, Str.lower x.1).

Definition key_lt (a b : bool * string) : bool :=
  match a.1, b.1 with
  | false, true => true
  | true, false => false
  | _, _ => String.ltb a.2 b.2
  end.

(** [items.sort(key=...)]: a stable sort, here by insertion. *)
Fixpoint sort_insert (x : string * bool) (l : list (string * bool)) :=
  match l with
  | [] => [x]
  | y :: l' =>
      if key_lt (sort_key y) (sort_key x) then y :: sort_insert x l'
      else x :: y :: l'
  end.

Fixpoint sort_items (l : list (string * bool)) : list (string * bool) :=
  match l with
  | [] => []
  | x :: l' => sort_insert x (sort_items l')
  end.

Definition with_parent_entry (path : string) (items : list (string * bool)) :=
  if (path =? "/")%string || (path =? "")%string then items
  else ("..", true) :: items.

Definition list_local_dir (path : string) : M (list (string * bool)) :=
  try_except
    (let* items := os_scandir path in
     ret (with_parent_entry path (sort_items items)))
    is_OSError (fun _ => ret []).

Definition list_remote_dir (path : string) : M (list (string * bool)) :=
  try_except
    (let* attrs := sftp_listdir_attr path in
     let items := map (fun x : string * Z => (x.1, mode_is_dir x.2)) attrs in
     ret (with_parent_entry path (sort_items items)))
    is_OSError (fun _ => ret []).

(** *** SMART COPY (LOKAL -> REMOTE) *)

(** The remote path of a child, as the program spells it out wherever it
    needs one:
    ["/" + name] if the parent is ["/"], else
    [parent.rstrip('/') + "/" + name]. *)
Definition remote_child (parent name : string) : string :=
  if (parent =? "/")%string then "/" +:+ name
  else Str.rstrip Str.slash parent +:+ "/" +:+ name.

(** The file branch up to the transfer (lines 264-282).  The result [true]
    is the early [return] of line 279: the file is left alone. *)
Definition l2r_skip_identical (local_path remote_path : string) : M bool :=
  let* size_local := os_path_getsize local_path in
  let* found := remote_file_exists remote_path in
  if found then
    if size_local >? LARGE_FILE_MB * 1024 * 1024 then
      let* csum_loc_part :=
        compute_local_checksum local_path "md5" false PARTIAL_MB DEFAULT_CHUNK_SIZE in
      let* csum_rem_part :=
        compute_remote_checksum remote_path "md5" false PARTIAL_MB in
      if truthy csum_loc_part && truthy csum_rem_part
         && bool_decide (csum_loc_part = csum_rem_part) then
        let* csum_loc_full :=
          compute_local_checksum local_path "md5" true PARTIAL_MB DEFAULT_CHUNK_SIZE in
        let* csum_rem_full :=
          compute_remote_checksum remote_path "md5" true PARTIAL_MB in
        if bool_decide (csum_loc_full = csum_rem_full) then
          log_command ("SKIP identical: " +:+ local_path +:+ " -> " +:+ remote_path) ;;
          ret true
        else ret false
      else ret false
    else ret false
  else ret false.

(** Lines 284-290: the transfer and its [except Exception]. *)
Definition l2r_put (local_path remote_path : string) : M unit :=
  log_command ("PUT " +:+ local_path +:+ " -> " +:+ remote_path) ;;
  try_except (sftp_put local_path remote_path)
    is_Exception (fun e => log_command ("Fehler: " +:+ exn_str e)).

(** [depth] is the number of nested calls the interpreter still allows; a
    call that would exceed it raises [RecursionError]. *)
Fixpoint smart_copy_local_to_remote (depth : nat) (local_path remote_path : string)
    : M unit :=
  match depth with
  | O => raise RecursionError
  | S depth =>
      let* is_dir := os_path_isdir local_path in
      if is_dir then
        try_except (sftp_mkdir remote_path) is_OSError (fun _ => ret tt) ;;
        let* entries := os_scandir local_path in
        for_each entries (fun entry =>
          let src_child := os_path_join local_path entry.1 in
          let dst_child := remote_child remote_path entry.1 in
          smart_copy_local_to_remote depth src_child dst_child)
      else
        let* skipped := l2r_skip_identical local_path remote_path in
        if skipped then ret tt
        else l2r_put local_path remote_path
  end.

(** *** SMART COPY (REMOTE -> LOKAL) *)

(** Lines 329-342; [true] is the early [return] of line 342. *)
Definition r2l_skip_identical (remote_path local_path : string) : M bool :=
  let* found := os_path_exists local_path in
  if found then
    let* size_remote := remote_file_size remote_path in
    match size_remote with
    | Some size =>
        if negb (size =? 0) && (size >? LARGE_FILE_MB * 1024 * 1024) then
          let* csum_rem_part :=
            compute_remote_checksum remote_path "md5" false PARTIAL_MB in
          let* csum_loc_part :=
            compute_local_checksum local_path "md5" false PARTIAL_MB DEFAULT_CHUNK_SIZE in
          if truthy csum_rem_part && truthy csum_loc_part
             && bool_decide (csum_rem_part = csum_loc_part) then
            let* csum_rem_full :=
              compute_remote_checksum remote_path "md5" true PARTIAL_MB in
            let* csum_loc_full :=
              compute_local_checksum local_path "md5" true PARTIAL_MB DEFAULT_CHUNK_SIZE in
            if bool_decide (csum_rem_full = csum_loc_full) then
              log_command ("SKIP identical: " +:+ remote_path +:+ " -> " +:+ local_path) ;;
              ret true
            else ret false
          else ret false
        else ret false
    | None => ret false
    end
  else ret false.

(** Lines 344-349. *)
Definition r2l_get (remote_path local_path : string) : M unit :=
  log_command ("GET " +:+ remote_path +:+ " -> " +:+ local_path) ;;
  try_except (sftp_get remote_path local_path)
    is_Exception (fun e => log_command ("Fehler: " +:+ exn_str e)).

Fixpoint smart_copy_remote_to_local (depth : nat) (remote_path local_path : string)
    : M unit :=
  match depth with
  | O => raise RecursionError
  | S depth =>
      let* attr :=
        try_except (let* st_mode := sftp_stat remote_path in ret (Some st_mode))
          is_OSError (fun _ => ret None) in
      match attr with
      | None => ret tt
      | Some st_mode =>
          if mode_is_dir st_mode then
            (let* present := os_path_exists local_path in
             if negb present then
               try_except (os_mkdir local_path) is_OSError (fun _ => ret tt)
             else ret tt) ;;
            try_except
              (let* entries := sftp_listdir_attr remote_path in
               for_each entries (fun e =>
                 let rname := e.1 in
                 let remote_child := remote_child remote_path rname in
                 let local_child := os_path_join local_path rname in
                 smart_copy_remote_to_local depth remote_child local_child))
              is_OSError (fun _ => ret tt)
          else
            let* skipped := r2l_skip_identical remote_path local_path in
            if skipped then ret tt
            else r2l_get remote_path local_path
      end
  end.

(** *** COPY / MOVE / DELETE *)

Definition copy_file_local_to_remote := smart_copy_local_to_remote.
Definition copy_file_remote_to_local := smart_copy_remote_to_local.

Definition move_file_local_to_remote (depth : nat) (local_path remote_path : string)
    : M unit :=
  smart_copy_local_to_remote depth local_path remote_path ;;
  try_except
    (let* isfile := os_path_isfile local_path in
     if isfile then
       os_remove local_path ;;
       log_command ("RM LOCAL " +:+ local_path)
     else
       shutil_rmtree local_path ;;
       log_command ("RM LOCAL DIR " +:+ local_path))
    is_Exception (fun e => log_command ("Fehler bei rm local: " +:+ exn_str e)).

Fixpoint remove_remote_dir_recursive (depth : nat) (path : string) : M unit :=
  match depth with
  | O => raise RecursionError
  | S depth =>
      try_except
        (let* items := sftp_listdir_attr path in
         for_each items (fun item =>
           let fname := item.1 in
           let fullp := remote_child path fname in
           if mode_is_dir item.2 then remove_remote_dir_recursive depth fullp
           else sftp_remove fullp) ;;
         sftp_rmdir path)
        (fun _ => true) (fun _ => ret tt)
  end.

(** The body of the loop of [remove_remote_dir_recursive], for the
    statements about it. *)
Definition remove_item (depth : nat) (path : string) (item : string * Z) : M unit :=
  if mode_is_dir item.2
  then remove_remote_dir_recursive depth (remote_child path item.1)
  else sftp_remove (remote_child path item.1).

Definition move_file_remote_to_local (depth : nat) (remote_path local_path : string)
    : M unit :=
  smart_copy_remote_to_local depth remote_path local_path ;;
  try_except
    (let* st_mode := sftp_stat remote_path in
     let is_dir := mode_is_dir st_mode in
     if is_dir then
       remove_remote_dir_recursive depth remote_path ;;
       log_command ("RM REMOTE DIR " +:+ remote_path)
     else
       sftp_remove remote_path ;;
       log_command ("RM REMOTE " +:+ remote_path))
    is_Exception (fun e => log_command ("Fehler bei rm remote: " +:+ exn_str e)).

(** *** VERGLEICH *)

(** A [for] loop that updates local variables: they are threaded through
    the body as [acc]. *)
Fixpoint fold_each {A S} (l : list A) (acc : S) (body : A -> S -> M S) : M S :=
  match l with
  | [] => ret acc
  | x :: rest => let* acc := body x acc in fold_each rest acc body
  end.

(** [[n for (n, d) in entries if not d and n != '..']]. *)
Definition plain_files (entries : list (string * bool)) : list string :=
  map fst (List.filter (fun x : string * bool => negb x.2 && negb (x.1 =? "..")%string) entries).

Definition compare_directories (order : set_order)
    (local_path remote_path algo : string) (full : bool)
    : M (gset string * gset string * gset string * gset string) :=
  let* local_entries := list_local_dir local_path in
  let* remote_entries := list_remote_dir remote_path in
  let local_files := plain_files local_entries in
  let remote_files := plain_files remote_entries in
  let set_local : gset string := list_to_set local_files in
  let set_remote : gset string := list_to_set remote_files in
  let common := set_local ∩ set_remote in
  let only_local := set_local ∖ common in
  let only_remote := set_remote ∖ common in
  let* sets :=
    fold_each (set_iter order common) (∅ : gset string, ∅ : gset string)
      (fun fname '(different, same) =>
         let local_fp := os_path_join local_path fname in
         let remote_fp := remote_child remote_path fname in
         let* csum_loc :=
           compute_local_checksum local_fp algo full PARTIAL_MB DEFAULT_CHUNK_SIZE in
         let* csum_rem := compute_remote_checksum remote_fp algo full PARTIAL_MB in
         match csum_loc, csum_rem with
         | Some loc, Some rem =>
             if bool_decide (loc = rem) then ret (different, same ∪ {[fname]})
             else ret (different ∪ {[fname]}, same)
         | _, _ => ret (different ∪ {[fname]}, same)
         end) in
  ret (only_local, only_remote, sets.1, sets.2).

End Program.

(** ** Observations on a run *)

(** The byte transfers among the external calls. *)
Definition is_transfer (c : call) : bool :=
  match c with
  | SftpPut _ _ | SftpGet _ _ => true
  | _ => false
  end.

(** The calls that delete something. *)
Definition is_removal (c : call) : bool :=
  match c with
  | OsRemove _ | ShutilRmtree _ | SftpRemove _ | SftpRmdir _ => true
  | _ => false
  end.

(** The calls that read file content to digest it: opening a local file, and
    running a digest command on the remote side. *)
Definition is_digest_call (c : call) : bool :=
  match c with
  | OpenRb _ => true
  | SshExecCommand cmd =>
      match Str.split cmd with
      | first :: _ =>
          bool_decide (first ∈ ["md5sum"; "sha1sum"; "sha256sum"; "dd"]%string)
      | [] => false
      end
  | _ => false
  end.

(** The calls made by a run from [s] to [s']. *)
Definition calls_since (s s' : state) : list call :=
  drop (length (trace s)) (trace s').

(** The byte transfers made by a run from [s] to [s']. *)
Definition transfers (s s' : state) : list call :=
  List.filter is_transfer (calls_since s s').

(** [m] makes only external calls that satisfy [P], and forgets none of
    the earlier ones. *)
Definition emits {A} (P : call -> bool) (m : M A) : Prop :=
  forall s, exists l, trace (exec m s) = trace s ++ l /\ forallb P l = true.

(** [s'] continues [s] by calls that all satisfy [P]. *)
Definition extends_with (P : call -> bool) (s s' : state) : Prop :=
  exists l, trace s' = trace s ++ l /\ forallb P l = true.

Definition not_transfer (c : call) : bool := negb (is_transfer c).
Definition not_removal (c : call) : bool := negb (is_removal c).

(** The world [E] with other answers to the two transfer calls. *)
Definition with_transfers {Bytes} (E : Env Bytes)
    (put get : list call -> string -> string -> outcome unit) : Env Bytes :=
  {| env_len := env_len E;
     env_hashlib := env_hashlib E;
     env_isdir := env_isdir E;
     env_isfile := env_isfile E;
     env_exists := env_exists E;
     env_getsize := env_getsize E;
     env_scandir := env_scandir E;
     env_mkdir := env_mkdir E;
     env_remove := env_remove E;
     env_rmtree := env_rmtree E;
     env_open_rb := env_open_rb E;
     env_exec_command := env_exec_command E;
     env_sftp_mkdir := env_sftp_mkdir E;
     env_sftp_put := put;
     env_sftp_get := get;
     env_sftp_stat := env_sftp_stat E;
     env_sftp_listdir_attr := env_sftp_listdir_attr E;
     env_sftp_remove := env_sftp_remove E;
     env_sftp_rmdir := env_sftp_rmdir E;
  |}.

(** Two computations agree when, started after the same external calls,
    they end with the same value or exception after the same external calls
    (their logs may differ). *)
Definition agree {A} (m m' : M A) : Prop :=
  forall s s', trace s = trace s' ->
    eval m s = eval m' s' /\ trace (exec m s) = trace (exec m' s').

(** Answers that fail, if at all, with an [OSError]. *)
Definition only_OSError {A} (o : outcome A) : Prop :=
  match o with
  | Raise e => is_OSError e = true
  | Return _ => True
  end.

(** A world in which the diff runs to its end: [hashlib] knows the
    algorithm, the SSH session answers every command, and the file calls fail
    with nothing but [OSError]. *)
Record diff_friendly {Bytes} (E : Env Bytes) (algo : string) : Prop := {
  df_hashlib : is_Some (env_hashlib E algo);
  df_exec : forall h cmd, exists r, env_exec_command E h cmd = Return r;
  df_scandir : forall h p, only_OSError (env_scandir E h p);
  df_listdir : forall h p, only_OSError (env_sftp_listdir_attr E h p);
  df_open : forall h p n,
    match env_open_rb E h p n with
    | Return reads => Forall only_OSError reads
    | Raise e => is_OSError e = true
    end;
}.

(** ** Concrete worlds

    A world is written as one table from a call (and the calls before it)
    to its answer; [scripted] turns the table into an [Env].  A chunk of
    file content is a [blob]: its length and a label standing for the bytes;
    the digest of a sequence of chunks is the algorithm name applied to the
    labels, so that equal digests mean equal content under one algorithm. *)

Definition blob : Type := Z * string.

Inductive answer : Type :=
| ABool (b : bool)
| AInt (n : Z)
| ANone
| AEntries (l : list (string * bool))
| AAttrs (l : list (string * Z))
| AReads (l : list (outcome blob))
| AExec (out err : string) (status : Z)
| ARaise (e : exn).

Definition known_algorithms : list string :=
  ["md5"; "sha1"; "sha224"; "sha256"; "sha384"; "sha512"]%string.

Definition blob_digest (algo : string) (chunks : list blob) : string :=
  algo +:+ ":" +:+ String.concat "" (map snd chunks).

Definition no_such_file : exn := OSError "[Errno 2] No such file or directory".

Definition scripted (table : list call -> call -> answer) : Env blob :=
  let as_bool h c := match table h c with ABool b => b | _ => false end in
  let as_unit h c :=
    match table h c with ARaise e => Raise e | _ => Return tt end in
  {| env_len := fst;
     env_hashlib := fun algo =>
       if bool_decide (algo ∈ known_algorithms) then Some (blob_digest algo) else None;
     env_isdir := fun h p => as_bool h (OsPathIsdir p);
     env_isfile := fun h p => as_bool h (OsPathIsfile p);
     env_exists := fun h p => as_bool h (OsPathExists p);
     env_getsize := fun h p =>
       match table h (OsPathGetsize p) with
       | AInt n => Return n | ARaise e => Raise e | _ => Raise no_such_file end;
     env_scandir := fun h p =>
       match table h (OsScandir p) with
       | AEntries l => Return l | ARaise e => Raise e | _ => Raise no_such_file end;
     env_mkdir := fun h p => as_unit h (OsMkdir p);
     env_remove := fun h p => as_unit h (OsRemove p);
     env_rmtree := fun h p => as_unit h (ShutilRmtree p);
     env_open_rb := fun h p _ =>
       match table h (OpenRb p) with
       | AReads l => Return l | ARaise e => Raise e | _ => Raise no_such_file end;
     env_exec_command := fun h cmd =>
       match table h (SshExecCommand cmd) with
       | AExec out err status =>
           Return {| stdout := out; stderr := err; exit_status := status |}
       | ARaise e => Raise e
       | _ => Return {| stdout := ""; stderr := ""; exit_status := 127 |}
       end;
     env_sftp_mkdir := fun h p => as_unit h (SftpMkdir p);
     env_sftp_put := fun h l r => as_unit h (SftpPut l r);
     env_sftp_get := fun h r l => as_unit h (SftpGet r l);
     env_sftp_stat := fun h p =>
       match table h (SftpStat p) with
       | AInt n => Return n | ARaise e => Raise e | _ => Raise no_such_file end;
     env_sftp_listdir_attr := fun h p =>
       match table h (SftpListdirAttr p) with
       | AAttrs l => Return l | ARaise e => Raise e | _ => Raise no_such_file end;
     env_sftp_remove := fun h p => as_unit h (SftpRemove p);
     env_sftp_rmdir := fun h p => as_unit h (SftpRmdir p);
  |}.

(** The iteration order that enumerates a set as [elements] does. *)
Definition elements_order : set_order :=
  {| set_iter := elements; set_iter_perm := fun X => reflexivity (elements X) |}.

(** [st_mode] of a regular file ([0o100644]) and of a directory
    ([0o040755]). *)
Definition REG_MODE : Z := 33188.
Definition DIR_MODE : Z := 16877.

(** Two directories to compare, [/home/u/docs] and [/srv/docs]: [x.txt] is
    only local, [w.txt] only remote, [y.txt] differs, [z.txt] has the same
    content on both sides; [old] is a directory on both sides.  The remote
    host has [md5sum] and [dd]. *)
Definition docs_world (h : list call) (c : call) : answer :=
  match c with
  | OsScandir p =>
      if bool_decide (p = "/home/u/docs")
      then AEntries [("z.txt", false); ("old", true); ("x.txt", false); ("y.txt", false)]
      else ARaise no_such_file
  | SftpListdirAttr p =>
      if bool_decide (p = "/srv/docs")
      then AAttrs [("y.txt", REG_MODE); ("w.txt", REG_MODE); ("old", DIR_MODE);
                   ("z.txt", REG_MODE)]
      else ARaise no_such_file
  | OsPathIsfile p =>
      ABool (bool_decide (p ∈ ["/home/u/docs/x.txt"; "/home/u/docs/y.txt";
                               "/home/u/docs/z.txt"]%string))
  | OpenRb p =>
      if bool_decide (p = "/home/u/docs/y.txt") then AReads [Return (6, "draft1")]
      else if bool_decide (p = "/home/u/docs/z.txt") then AReads [Return (5, "final")]
      else if bool_decide (p = "/home/u/docs/x.txt") then AReads [Return (4, "note")]
      else ARaise no_such_file
  | SshExecCommand cmd =>
      if bool_decide (cmd ∈ ["[ -f '/srv/docs/y.txt' ]"; "[ -f '/srv/docs/z.txt' ]";
                             "[ -f '/srv/docs/w.txt' ]"]%string)
      then AExec "" "" 0
      else if bool_decide (cmd = "dd if='/srv/docs/y.txt' bs=1M count=5 2>/dev/null | md5sum")
      then AExec "md5:draft2  -" "" 0
      else if bool_decide (cmd = "dd if='/srv/docs/z.txt' bs=1M count=5 2>/dev/null | md5sum")
      then AExec "md5:final  -" "" 0
      else if bool_decide (cmd = "md5sum '/srv/docs/y.txt'")
      then AExec "md5:draft2  /srv/docs/y.txt" "" 0
      else if bool_decide (cmd = "md5sum '/srv/docs/z.txt'")
      then AExec "md5:final  /srv/docs/z.txt" "" 0
      else AExec "" "" 1
  | _ => ANone
  end.

(** A 50 MB file, 800 chunks of 64 KB, with the same content at
    [/home/u/big.bin] and on the remote host at [/srv/big.bin].  The first
    and the last chunk carry a label; the first 5 MB are 80 chunks. *)
Definition big_file_reads : list (outcome blob) :=
  Return (65536, "head"%string) :: repeat (Return (65536, ""%string)) 798
  ++ [Return (65536, "tail"%string)].

Definition big_twin_world (h : list call) (c : call) : answer :=
  match c with
  | OsPathIsdir p => ABool false
  | OsPathIsfile p | OsPathExists p => ABool (bool_decide (p = "/home/u/big.bin"))
  | OsPathGetsize p =>
      if bool_decide (p = "/home/u/big.bin") then AInt 52428800
      else ARaise no_such_file
  | OpenRb p =>
      if bool_decide (p = "/home/u/big.bin") then AReads big_file_reads
      else ARaise no_such_file
  | SftpStat p =>
      if bool_decide (p = "/srv/big.bin") then AInt REG_MODE else ARaise no_such_file
  | SshExecCommand cmd =>
      if bool_decide (cmd = "[ -f '/srv/big.bin' ]") then AExec "" "" 0
      else if bool_decide (cmd = "stat -c %s '/srv/big.bin'") then AExec "52428800" "" 0
      else if bool_decide (cmd = "dd if='/srv/big.bin' bs=1M count=5 2>/dev/null | md5sum")
      then AExec "md5:head  -" "" 0
      else if bool_decide (cmd = "md5sum '/srv/big.bin'")
      then AExec "md5:headtail  /srv/big.bin" "" 0
      else AExec "" "" 1
  | _ => ANone
  end.

(** A 2 KB file with the same content at [/home/u/notes.txt] and at
    [/srv/notes.txt]. *)
Definition small_twin_world (h : list call) (c : call) : answer :=
  match c with
  | OsPathIsdir p => ABool false
  | OsPathIsfile p | OsPathExists p => ABool (bool_decide (p = "/home/u/notes.txt"))
  | OsPathGetsize p =>
      if bool_decide (p = "/home/u/notes.txt") then AInt 2048 else ARaise no_such_file
  | OpenRb p =>
      if bool_decide (p = "/home/u/notes.txt") then AReads [Return (2048, "notes"%string)]
      else ARaise no_such_file
  | SftpStat p =>
      if bool_decide (p = "/srv/notes.txt") then AInt REG_MODE else ARaise no_such_file
  | SshExecCommand cmd =>
      if bool_decide (cmd = "[ -f '/srv/notes.txt' ]") then AExec "" "" 0
      else if bool_decide (cmd = "stat -c %s '/srv/notes.txt'") then AExec "2048" "" 0
      else if bool_decide (cmd = "dd if='/srv/notes.txt' bs=1M count=5 2>/dev/null | md5sum")
      then AExec "md5:notes  -" "" 0
      else if bool_decide (cmd = "md5sum '/srv/notes.txt'")
      then AExec "md5:notes  /srv/notes.txt" "" 0
      else AExec "" "" 1
  | _ => ANone
  end.

(** A 50 MB file at [/mnt/share/big.bin], on a network mount, and a 50 MB
    file at [/srv/backup/big.bin] on the remote host, which keeps its files on
    the same file server.  The two files agree on their first 5 MB and differ
    in their last chunk.  The file server stops answering once both partial
    digests have been taken: from then on the local file is no regular file
    to [os.path.isfile] and cannot be opened, and the remote [[ -f ]] test
    fails. *)
Definition outage (h : list call) : bool :=
  bool_decide (OpenRb "/mnt/share/big.bin" ∈ h)
  && bool_decide
       (SshExecCommand "dd if='/srv/backup/big.bin' bs=1M count=5 2>/dev/null | md5sum" ∈ h).

Definition stale_handle : exn := OSError "[Errno 116] Stale file handle".

Definition flaky_share_world (h : list call) (c : call) : answer :=
  match c with
  | OsPathIsdir p => ABool false
  | OsPathIsfile p | OsPathExists p =>
      ABool (bool_decide (p = "/mnt/share/big.bin") && negb (outage h))
  | OsPathGetsize p =>
      if bool_decide (p = "/mnt/share/big.bin") then AInt 52428800
      else ARaise no_such_file
  | OpenRb p =>
      if negb (bool_decide (p = "/mnt/share/big.bin")) then ARaise no_such_file
      else if outage h then ARaise stale_handle
      else AReads (Return (65536, "head"%string) :: repeat (Return (65536, ""%string)) 798
                   ++ [Return (65536, "tail-new"%string)])
  | SftpStat p =>
      if bool_decide (p = "/srv/backup/big.bin") then AInt REG_MODE
      else ARaise no_such_file
  | SshExecCommand cmd =>
      if bool_decide (cmd = "[ -f '/srv/backup/big.bin' ]")
      then (if outage h then AExec "" "" 1 else AExec "" "" 0)
      else if bool_decide (cmd = "stat -c %s '/srv/backup/big.bin'")
      then AExec "52428800" "" 0
      else if bool_decide
                (cmd = "dd if='/srv/backup/big.bin' bs=1M count=5 2>/dev/null | md5sum")
      then AExec "md5:head  -" "" 0
      else if bool_decide (cmd = "md5sum '/srv/backup/big.bin'")
      then (if outage h then AExec "" "md5sum: Stale file handle" 1
            else AExec "md5:headtail-old  /srv/backup/big.bin" "" 0)
      else AExec "" "" 1
  | _ => ANone
  end.

(** The world of [flaky_share_world] without the outage. *)
Definition steady_share_world (h : list call) (c : call) : answer :=
  flaky_share_world [] c.

(** A directory of two small pictures, [/home/u/photos] locally and
    [/srv/photos] remotely; neither side has the other's copies yet.  The
    transfer of [a.jpg] fails in both directions; that of [b.jpg] works. *)
Definition photos_world (h : list call) (c : call) : answer :=
  match c with
  | OsPathIsdir p => ABool (bool_decide (p = "/home/u/photos"))
  | OsScandir p =>
      if bool_decide (p = "/home/u/photos")
      then AEntries [("a.jpg", false); ("b.jpg", false)]
      else ARaise no_such_file
  | OsPathGetsize p =>
      if bool_decide (p ∈ ["/home/u/photos/a.jpg"; "/home/u/photos/b.jpg"]%string)
      then AInt 300000 else ARaise no_such_file
  | OsPathExists p => ABool false
  | SftpStat p =>
      if bool_decide (p = "/srv/photos") then AInt DIR_MODE
      else if bool_decide (p ∈ ["/srv/photos/a.jpg"; "/srv/photos/b.jpg"]%string)
      then AInt REG_MODE
      else ARaise no_such_file
  | SftpListdirAttr p =>
      if bool_decide (p = "/srv/photos")
      then AAttrs [("a.jpg", REG_MODE); ("b.jpg", REG_MODE)]
      else ARaise no_such_file
  | SftpPut l r =>
      if bool_decide (l = "/home/u/photos/a.jpg") then ARaise (OSError "Permission denied")
      else ANone
  | SftpGet r l =>
      if bool_decide (r = "/srv/photos/a.jpg") then ARaise (OSError "Permission denied")
      else ANone
  | SshExecCommand cmd => AExec "" "" 1
  | _ => ANone
  end.

(** [photos_world] again, but the SSH session dies after the first
    transfer: from then on [exec_command] raises. *)
Definition dying_session_world (h : list call) (c : call) : answer :=
  match c with
  | SshExecCommand cmd =>
      if bool_decide (SftpPut "/home/u/photos/a.jpg" "/srv/photos/a.jpg" ∈ h)
      then ARaise (SSHException "SSH session not active")
      else AExec "" "" 1
  | SftpPut l r => ANone
  | _ => photos_world h c
  end.

(** The remote directory [/srv/tmp] holds the directory [cache] and the
    files [a.log] and [b.log], listed in this order; [cache] holds the file
    [x].  The files [x] and [a.log] belong to somebody else and cannot be
    removed; [b.log] can. *)
Definition sticky_dir_world (h : list call) (c : call) : answer :=
  match c with
  | SftpListdirAttr p =>
      if bool_decide (p = "/srv/tmp")
      then AAttrs [("cache", DIR_MODE); ("a.log", REG_MODE); ("b.log", REG_MODE)]
      else if bool_decide (p = "/srv/tmp/cache") then AAttrs [("x", REG_MODE)]
      else ARaise no_such_file
  | SftpStat p =>
      if bool_decide (p ∈ ["/srv/tmp"; "/srv/tmp/cache"]%string) then AInt DIR_MODE
      else AInt REG_MODE
  | SftpRemove p =>
      if bool_decide (p ∈ ["/srv/tmp/cache/x"; "/srv/tmp/a.log"]%string)
      then ARaise (OSError "Permission denied")
      else ANone
  | SftpRmdir p => ARaise (OSError "Failure")
  | _ => ANone
  end.

(** What [remove_remote_dir_recursive] first calls for an entry of the
    directory [path]: the listing of a subdirectory, the removal of a file. *)
Definition removal_call (path : string) (item : string * Z) : call :=
  if mode_is_dir item.2 then SftpListdirAttr (remote_child path item.1)
  else SftpRemove (remote_child path item.1).

(** The removal of a tree read as best effort: whatever fails, every entry
    of a listed directory has its removal attempted. *)
Definition removal_is_best_effort {Bytes} (E : Env Bytes) : Prop :=
  forall (depth : nat) (path : string) (s : state) (items : list (string * Z)),
    eval (sftp_listdir_attr E path) s = Return items ->
    forall item, item ∈ items ->
      removal_call path item
        ∈ calls_since s (exec (remove_remote_dir_recursive E (S depth) path) s).

(** A local directory named with two trailing slashes, [/home/u/photos//],
    holding one small picture that the remote side does not have; and a remote
    directory named [/srv/photos//] in the same way. *)
Definition trailing_slash_world (h : list call) (c : call) : answer :=
  match c with
  | OsPathIsdir p => ABool (bool_decide (p = "/home/u/photos//"))
  | OsScandir p =>
      if bool_decide (p = "/home/u/photos//") then AEntries [("a.jpg", false)]
      else ARaise no_such_file
  | OsPathGetsize p => AInt 300000
  | OsPathExists p => ABool false
  | SftpStat p =>
      if bool_decide (p = "/srv/photos//") then AInt DIR_MODE else AInt REG_MODE
  | SftpListdirAttr p =>
      if bool_decide (p = "/srv/photos//") then AAttrs [("a.jpg", REG_MODE)]
      else ARaise no_such_file
  | SshExecCommand cmd => AExec "" "" 1
  | _ => ANone
  end.

(** The construction of child locations as the specification words it: both
    the child source and the child destination are made with the path grammar
    of the destination side, that is the remote concatenation when copying to
    the remote side and [os.path.join] when copying to the local side. *)
Definition children_by_destination_grammar {Bytes} (E : Env Bytes) : Prop :=
  (forall depth local_path remote_path s entries,
     let s1 := exec (os_path_isdir E local_path) s in
     let s2 :=
       exec (try_except (sftp_mkdir E remote_path) is_OSError (fun _ => ret tt)) s1 in
     let s3 := exec (os_scandir E local_path) s2 in
     eval (os_path_isdir E local_path) s = Return true ->
     eval (try_except (sftp_mkdir E remote_path) is_OSError (fun _ => ret tt)) s1
       = Return tt ->
     eval (os_scandir E local_path) s2 = Return entries ->
     smart_copy_local_to_remote E (S depth) local_path remote_path s =
     for_each entries (fun entry : string * bool =>
       smart_copy_local_to_remote E depth
         (remote_child local_path entry.1) (remote_child remote_path entry.1)) s3) /\
  (forall depth remote_path local_path s st_mode entries,
     let make_local_dir :=
       (let* present := os_path_exists E local_path in
        if negb present
        then try_except (os_mkdir E local_path) is_OSError (fun _ => ret tt)
        else ret tt) in
     let s1 := exec (sftp_stat E remote_path) s in
     let s2 := exec make_local_dir s1 in
     let s3 := exec (sftp_listdir_attr E remote_path) s2 in
     eval (sftp_stat E remote_path) s = Return st_mode ->
     mode_is_dir st_mode = true ->
     eval make_local_dir s1 = Return tt ->
     eval (sftp_listdir_attr E remote_path) s2 = Return entries ->
     smart_copy_remote_to_local E (S depth) remote_path local_path s =
     try_except
       (for_each entries (fun e : string * Z =>
          smart_copy_remote_to_local E depth
            (os_path_join remote_path e.1) (os_path_join local_path e.1)))
       is_OSError (fun _ => ret tt) s3).

(** ** More of the program: navigation, deletion, the panel arithmetic *)

Module Posix.

Fixpoint has_slash (s : string) : bool :=
  match s with
  | EmptyString => false
  | String a s' => Ascii.eqb a Str.slash || has_slash s'
  end.

(** [p[:p.rfind('/') + 1]]: [p] up to and including its last slash. *)
Fixpoint head_to_last_slash (p : string) : string :=
  match p with
  | EmptyString => EmptyString
  | String a p' => if has_slash p then String a (head_to_last_slash p') else EmptyString
  end.

(** [head == '/' * len(head)]. *)
Fixpoint all_slashes (head : string) : bool :=
  match head with
  | EmptyString => true
  | String a head' => Ascii.eqb a Str.slash && all_slashes head'
  end.

(** [posixpath.dirname]. *)
Definition dirname (p : string) : string :=
  let head := head_to_last_slash p in
  if negb (head =? "")%string && negb (all_slashes head) then Str.rstrip Str.slash head
  else head.

End Posix.

Section Navigation.

Context {Bytes : Type} (E : Env Bytes).

(** [change_directory_remote]; the [return newpath] inside the [try] is the
    [Some] of the guarded block. *)
Definition change_directory_remote (current_path target : string) : M string :=
  if (target =? "..")%string then
    if (current_path =? "/")%string then ret "/"%string
    else ret (Posix.dirname (Str.rstrip Str.slash current_path))
  else
    let newpath :=
      if (current_path =? "/")%string then "/" +:+ target
      else Str.rstrip Str.slash current_path +:+ "/" +:+ target in
    let* entered :=
      try_except
        (let* st_mode := sftp_stat E newpath in
         if mode_is_dir st_mode then ret (Some newpath) else ret None)
        is_OSError (fun _ => ret None) in
    match entered with
    | Some path => ret path
    | None => ret current_path
    end.

Definition delete_local_file_or_dir (path : string) : M unit :=
  log_command ("DEL LOCAL " +:+ path) ;;
  let* is_dir := os_path_isdir E path in
  if is_dir then
    try_except (shutil_rmtree E path)
      is_Exception (fun e => log_command ("Fehler: " +:+ exn_str e))
  else
    try_except (os_remove E path)
      is_Exception (fun e => log_command ("Fehler: " +:+ exn_str e)).

Definition delete_remote_file_or_dir (depth : nat) (path : string) : M unit :=
  log_command ("DEL REMOTE " +:+ path) ;;
  try_except
    (let* st_mode := sftp_stat E path in
     let is_dir := mode_is_dir st_mode in
     if is_dir then remove_remote_dir_recursive E depth path
     else sftp_remove E path)
    is_Exception (fun e => log_command ("Fehler: " +:+ exn_str e)).

End Navigation.

(** The arithmetic of the main loop on the selection of a panel (lines
    553-568 and 616-625 for the local panel, 555-568 and 669-678 for the
    remote one): [count] is the length of the listing, [visible_area] is
    [panel_height - 3]. *)
Definition clamp_selection (sel count : Z) : Z :=
  if sel >=? count then Z.max 0 (count - 1) else sel.

Definition correct_scroll (sel scroll visible_area : Z) : Z :=
  if sel <? scroll then sel
  else if sel >=? scroll + visible_area then sel - visible_area + 1
  else scroll.

Inductive nav_key : Type := KEY_UP | KEY_DOWN | KEY_PPAGE | KEY_NPAGE.

Definition navigate (key : nav_key) (sel count visible_area : Z) : Z :=
  match key with
  | KEY_UP => if sel >? 0 then sel - 1 else sel
  | KEY_DOWN => if sel <? count - 1 then sel + 1 else sel
  | KEY_PPAGE => Z.max 0 (sel - visible_area)
  | KEY_NPAGE => Z.min (count - 1) (sel + visible_area)
  end.

(** *** More observations *)

(** The file and SFTP calls that change something on the local disk, and
    on the remote side.  ([ssh.exec_command] is not among them: what a
    command line does is up to the remote shell; the program sends the test,
    [stat] and digest command lines built in [remote_file_exists],
    [remote_file_size] and [compute_remote_checksum].) *)
Definition modifies_local (c : call) : bool :=
  match c with
  | OsMkdir _ | OsRemove _ | ShutilRmtree _ | SftpGet _ _ => true
  | _ => false
  end.

Definition modifies_remote (c : call) : bool :=
  match c with
  | SftpMkdir _ | SftpPut _ _ | SftpRemove _ | SftpRmdir _ => true
  | _ => false
  end.

(** [q] is [root] or lies below it: it begins with [root] without its
    trailing slashes, followed by a slash. *)
Definition under (root q : string) : bool :=
  (q =? root)%string || String.prefix (Str.rstrip Str.slash root +:+ "/") q.

(** The order of a listing: [a] may stand before [b]. *)
Definition listed_before (a b : string * bool) : Prop :=
  key_lt (sort_key b) (sort_key a) = false.

(** The bytes that the reads of an open file deliver in all. *)
Definition bytes_delivered {Bytes} (E : Env Bytes) (reads : list (outcome Bytes)) : Z :=
  fold_right
    (fun r n => match r with Return chunk => env_len E chunk + n | Raise _ => n end)
    0 reads.

(** A read that, if it returns, returns a chunk of a length that is not
    negative. *)
Definition sound_read {Bytes} (E : Env Bytes) (r : outcome Bytes) : Prop :=
  match r with
  | Return chunk => 0 <= env_len E chunk
  | Raise _ => True
  end.

(** Two local files of a little more than 1 MB, [/home/u/a.bin] and
    [/home/u/b.bin]: the first megabyte is the same, what follows differs. *)
Definition edited_copy_world (h : list call) (c : call) : answer :=
  match c with
  | OsPathIsfile p => ABool (bool_decide (p ∈ ["/home/u/a.bin"; "/home/u/b.bin"]%string))
  | OpenRb p =>
      if bool_decide (p = "/home/u/a.bin")
      then AReads [Return (1048576, "head"%string); Return (10, "-old"%string)]
      else if bool_decide (p = "/home/u/b.bin")
      then AReads [Return (1048576, "head"%string); Return (12, "-new"%string)]
      else ARaise no_such_file
  | _ => ANone
  end.

(** A call that is none of those. *)
Definition read_only (c : call) : bool :=
  negb (modifies_local c) && negb (modifies_remote c).

(** What an upload to [root] may call: it makes directories and puts files
    at [root] or below it, and makes no other modifying call. *)
Definition upload_into (root : string) (c : call) : bool :=
  match c with
  | SftpMkdir p | SftpPut _ p => under root p
  | _ => read_only c
  end.

(** What a download may call: it makes local directories and gets files, and
    makes no other modifying call. *)
Definition download_call (c : call) : bool :=
  match c with
  | OsMkdir _ | SftpGet _ _ => true
  | _ => read_only c
  end.

(** What the diff may call: the two listings and, for the checksums, the
    test for a regular file, the opening of a file for reading, and command
    lines for the remote shell. *)
Definition diff_call (c : call) : bool :=
  match c with
  | OsScandir _ | SftpListdirAttr _ | OsPathIsfile _ | OpenRb _ | SshExecCommand _ => true
  | _ => false
  end.

(** What the removal of the remote tree [root] may call: listings and
    removals of files and directories, at [root] or below it. *)
Definition removal_within (root : string) (c : call) : bool :=
  match c with
  | SftpListdirAttr p | SftpRemove p | SftpRmdir p => under root p
  | _ => false
  end.

(** One file on each side, [/home/u/report.pdf] and [/srv/out/data.csv],
    to be moved to the other side, where it does not exist yet.  No transfer
    gets through: the server refuses the upload, and the local disk is full. *)
Definition refused_transfer_world (h : list call) (c : call) : answer :=
  match c with
  | OsPathIsdir p => ABool false
  | OsPathIsfile p => ABool (bool_decide (p = "/home/u/report.pdf"))
  | OsPathExists p => ABool (bool_decide (p = "/home/u/report.pdf"))
  | OsPathGetsize p =>
      if bool_decide (p = "/home/u/report.pdf") then AInt 40000 else ARaise no_such_file
  | SftpStat p =>
      if bool_decide (p = "/srv/out/data.csv") then AInt REG_MODE else ARaise no_such_file
  | SshExecCommand cmd => AExec "" "" 1
  | SftpPut l r => ARaise (OSError "Failure")
  | SftpGet r l => ARaise (OSError "[Errno 28] No space left on device")
  | _ => ANone
  end.

(** [big_twin_world] with a remote host that has neither [md5sum] nor
    [dd]. *)
Definition bare_host_world (h : list call) (c : call) : answer :=
  match c with
  | SshExecCommand cmd =>
      if bool_decide (cmd = "[ -f '/srv/big.bin' ]") then AExec "" "" 0
      else if bool_decide (cmd = "stat -c %s '/srv/big.bin'") then AExec "52428800" "" 0
      else AExec "" "sh: command not found" 127
  | _ => big_twin_world h c
  end.

(** [big_twin_world] with a remote file that cannot be read to its end:
    the partial digest is delivered, the full one is not. *)
Definition bad_sector_world (h : list call) (c : call) : answer :=
  match c with
  | SshExecCommand cmd =>
      if bool_decide (cmd = "md5sum '/srv/big.bin'")
      then AExec "" "md5sum: /srv/big.bin: Input/output error" 1
      else big_twin_world h c
  | _ => big_twin_world h c
  end.

(** A picture directory on a medium that is mounted read-only: nothing on
    it can be removed. *)
Definition readonly_disk_world (h : list call) (c : call) : answer :=
  match c with
  | OsPathIsdir p => ABool (bool_decide (p = "/mnt/cd/photos"))
  | OsRemove p | ShutilRmtree p => ARaise (OSError "[Errno 30] Read-only file system")
  | _ => ANone
  end.

(** Three pictures on each side, [/home/u/photos] and [/srv/photos];
    [b.jpg] is already there locally and is reported as a large file.  The
    connection breaks when the remote [b.jpg] is tested for existence. *)
Definition broken_pipe_world (h : list call) (c : call) : answer :=
  match c with
  | OsPathIsdir p => ABool (bool_decide (p = "/home/u/photos"))
  | OsScandir p =>
      if bool_decide (p = "/home/u/photos")
      then AEntries [("a.jpg", false); ("b.jpg", false); ("c.jpg", false)]
      else ARaise no_such_file
  | OsPathGetsize p => AInt 300000
  | OsPathExists p =>
      ABool (bool_decide (p ∈ ["/home/u/photos"; "/home/u/photos/b.jpg"]%string))
  | SftpStat p => if bool_decide (p = "/srv/photos") then AInt DIR_MODE else AInt REG_MODE
  | SftpListdirAttr p =>
      if bool_decide (p = "/srv/photos")
      then AAttrs [("a.jpg", REG_MODE); ("b.jpg", REG_MODE); ("c.jpg", REG_MODE)]
      else ARaise no_such_file
  | SshExecCommand cmd =>
      if bool_decide (cmd = "[ -f '/srv/photos/b.jpg' ]")
      then ARaise (OSError "Socket is closed")
      else if bool_decide (cmd = "stat -c %s '/srv/photos/b.jpg'")
      then AExec "52428800" "" 0
      else AExec "" "" 1
  | _ => ANone
  end.

(** The calls that remove the whole tree below the remote directory [path],
    where [listing] tells what each directory holds: the listing of the
    directory, then, in the listed order, the removal of every entry (of a
    directory by the removal of its own tree, of anything else by
    [sftp.remove]), and last the [rmdir] of the directory itself.  [depth]
    bounds the nesting. *)
Fixpoint subtree_removal (listing : string -> list (string * Z)) (depth : nat)
    (path : string) : list call :=
  match depth with
  | O => []
  | S depth =>
      SftpListdirAttr path ::
      flat_map (fun item : string * Z =>
                  if mode_is_dir item.2
                  then subtree_removal listing depth (remote_child path item.1)
                  else [SftpRemove (remote_child path item.1)])
               (listing path)
      ++ [SftpRmdir path]
  end.

(** A remote tree that lets itself be removed: at [path] and below it,
    nested less than [depth] deep, every directory is listed as [listing]
    says, whatever was called before, and every removal succeeds. *)
Fixpoint removable {Bytes} (E : Env Bytes) (listing : string -> list (string * Z))
    (depth : nat) (path : string) : Prop :=
  match depth with
  | O => False
  | S depth =>
      (forall h, env_sftp_listdir_attr E h path = Return (listing path)) /\
      (forall h, env_sftp_rmdir E h path = Return tt) /\
      Forall (fun item : string * Z =>
                if mode_is_dir item.2
                then removable E listing depth (remote_child path item.1)
                else forall h, env_sftp_remove E h (remote_child path item.1) = Return tt)
             (listing path)
  end.

(** The remote directory [/srv/album] holds the directory [2019], with the
    picture [x.jpg] in it, and the picture [cover.jpg]; the local side has
    nothing of it yet.  Every call succeeds. *)
Definition album_listing (path : string) : list (string * Z) :=
  if bool_decide (path = "/srv/album") then [("2019", DIR_MODE); ("cover.jpg", REG_MODE)]
  else if bool_decide (path = "/srv/album/2019") then [("x.jpg", REG_MODE)]
  else [].

Definition album_world (h : list call) (c : call) : answer :=
  match c with
  | OsPathExists p => ABool false
  | SftpStat p =>
      if bool_decide (p ∈ ["/srv/album"; "/srv/album/2019"]%string) then AInt DIR_MODE
      else AInt REG_MODE
  | SftpListdirAttr p =>
      if bool_decide (p ∈ ["/srv/album"; "/srv/album/2019"]%string)
      then AAttrs (album_listing p)
      else ARaise no_such_file
  | _ => ANone
  end.

(** The world [E] with another [hashlib]. *)
Definition with_hashlib {Bytes} (E : Env Bytes)
    (hashlib : string -> option (list Bytes -> string)) : Env Bytes :=
  {| env_len := env_len E;
     env_hashlib := hashlib;
     env_isdir := env_isdir E;
     env_isfile := env_isfile E;
     env_exists := env_exists E;
     env_getsize := env_getsize E;
     env_scandir := env_scandir E;
     env_mkdir := env_mkdir E;
     env_remove := env_remove E;
     env_rmtree := env_rmtree E;
     env_open_rb := env_open_rb E;
     env_exec_command := env_exec_command E;
     env_sftp_mkdir := env_sftp_mkdir E;
     env_sftp_put := env_sftp_put E;
     env_sftp_get := env_sftp_get E;
     env_sftp_stat := env_sftp_stat E;
     env_sftp_listdir_attr := env_sftp_listdir_attr E;
     env_sftp_remove := env_sftp_remove E;
     env_sftp_rmdir := env_sftp_rmdir E;
  |}.

(** A [hashlib] that, like the real one, also answers to the upper-case
    spelling of a name: [hashlib.new('MD5')] is MD5. *)
Definition hashlib_with_MD5 (algo : string) : option (list blob -> string) :=
  if bool_decide (algo = "MD5") then Some (blob_digest "md5")
  else if bool_decide (algo ∈ known_algorithms) then Some (blob_digest algo)
  else None.

(** The claim about algorithm names outside the command map as the
    specification words it: for every such name the remote checksum is the one
    of ['md5'], the local checksum is the digest of the named algorithm, and
    so the two sides digest with two different algorithms; that is, a digest
    the local side returns under such a name is not the MD5 digest it returns
    for the same file. *)
Definition unknown_names_compare_two_algorithms {Bytes} (E : Env Bytes) : Prop :=
  forall (algo : string), algo ∉ ["md5"; "sha1"; "sha256"]%string ->
  forall (local_path remote_path : string) (full : bool) (s : state),
    compute_remote_checksum E remote_path algo full PARTIAL_MB s
      = compute_remote_checksum E remote_path "md5" full PARTIAL_MB s /\
    forall digest : string,
      eval (compute_local_checksum E local_path algo full PARTIAL_MB DEFAULT_CHUNK_SIZE) s
        = Return (Some digest) ->
      eval (compute_local_checksum E local_path "md5" full PARTIAL_MB DEFAULT_CHUNK_SIZE) s
        <> Return (Some digest).

(** A name made of ASCII characters only.  On such names [Str.lower] is
    [str.lower] and the order of strings is the order of Python's [str]. *)
Definition is_ascii (s : string) : bool :=
  forallb (fun a => (N_of_ascii a <? 128)%N) (list_ascii_of_string s).

(** * Verification *)

(** ** Running computations *)

Lemma bind_Return {A B} (m : M A) (k : A -> M B) s a s' :
  m s = (Return a, s') -> bind m k s = k a s'.
Proof. intros H. unfold bind. by rewrite H. Qed.

Lemma bind_Raise {A B} (m : M A) (k : A -> M B) s e s' :
  m s = (Raise e, s') -> bind m k s = (Raise e, s').
Proof. intros H. unfold bind. by rewrite H. Qed.

Lemma bind_assoc_run {A B C} (m : M A) (k : A -> M B) (k' : B -> M C) s :
  bind (bind m k) k' s = bind m (fun a => bind (k a) k') s.
Proof. unfold bind. by destruct (m s) as [[a|e] s']. Qed.

Lemma run_eta {A} (m : M A) s : m s = (eval m s, exec m s).
Proof. unfold eval, exec. by destruct (m s). Qed.

Lemma bind_eval_Return {A B} (m : M A) (k : A -> M B) s a :
  eval m s = Return a -> bind m k s = k a (exec m s).
Proof. intros H. apply bind_Return. by rewrite (run_eta m s), H. Qed.

Lemma bind_eval_Raise {A B} (m : M A) (k : A -> M B) s e :
  eval m s = Raise e -> bind m k s = (Raise e, exec m s).
Proof. intros H. apply bind_Raise. by rewrite (run_eta m s), H. Qed.

Lemma try_except_Return {A} (body : M A) classes handler s a :
  eval body s = Return a -> try_except body classes handler s = (Return a, exec body s).
Proof. intros H. unfold try_except. by rewrite (run_eta body s), H. Qed.

Lemma try_except_caught {A} (body : M A) classes handler s e :
  eval body s = Raise e -> classes e = true ->
  try_except body classes handler s = handler e (exec body s).
Proof. intros H Hc. unfold try_except. by rewrite (run_eta body s), H, Hc. Qed.

Lemma try_except_passed {A} (body : M A) classes handler s e :
  eval body s = Raise e -> classes e = false ->
  try_except body classes handler s = (Raise e, exec body s).
Proof. intros H Hc. unfold try_except. by rewrite (run_eta body s), H, Hc. Qed.

Lemma for_each_app {A} (l1 l2 : list A) (body : A -> M unit) s :
  eval (for_each l1 body) s = Return tt ->
  for_each (l1 ++ l2) body s = for_each l2 body (exec (for_each l1 body) s).
Proof.
  revert s. induction l1 as [|x l1 IH]; intros s H; [done|].
  simpl in *. unfold eval, exec, bind in *.
  destruct (body x s) as [[[]|e] s1]; simpl in *; [|done].
  by apply IH.
Qed.

(** ** The command log *)

Lemma log_command_run cmd s :
  log_command cmd s =
  (Return tt, {| cmd_log := log_append cmd (cmd_log s); trace := trace s |}).
Proof. done. Qed.

Lemma log_append_last_entries cmd (log : list string) :
  (length log <= CMD_LOG_MAX)%nat ->
  log_append cmd log = drop (length (log ++ [cmd]) - CMD_LOG_MAX) (log ++ [cmd]).
Proof.
  intros Hlen. unfold log_append, CMD_LOG_MAX in *.
  rewrite length_app. simpl.
  destruct (Nat.ltb_spec 5 (length log + 1)) as [Hgt|Hle].
  - replace (length log + 1 - 5)%nat with 1%nat by lia.
    destruct log; simpl in *; [lia|done].
  - by replace (length log + 1 - 5)%nat with 0%nat by lia.
Qed.

Lemma log_append_length cmd (log : list string) :
  (length log <= CMD_LOG_MAX)%nat -> (length (log_append cmd log) <= CMD_LOG_MAX)%nat.
Proof.
  intros Hlen. rewrite log_append_last_entries by done.
  rewrite length_drop, length_app. unfold CMD_LOG_MAX in *. simpl. lia.
Qed.

Lemma log_append_cases cmd (log : list string) :
  (length log <= CMD_LOG_MAX)%nat ->
  ((length log < CMD_LOG_MAX)%nat /\ log_append cmd log = log ++ [cmd]) \/
  (exists c0 log', log = c0 :: log' /\ length log' = 4%nat /\
                   log_append cmd log = log' ++ [cmd]).
Proof.
  intros Hlen. unfold log_append, CMD_LOG_MAX in *. rewrite length_app.
  change (length [cmd]) with 1%nat.
  destruct (Nat.ltb_spec 5 (length log + 1)) as [Hgt|Hle].
  - right. destruct log as [|c0 log']; [simpl in Hgt; lia|].
    exists c0, log'. split; [done|]. split; [simpl in *; lia|done].
  - left. split; [lia|done].
Qed.

Lemma log_commands_last_entries (entries : list string) s :
  (length (cmd_log s) <= CMD_LOG_MAX)%nat ->
  for_each entries log_command s =
  (Return tt,
   {| cmd_log := drop (length (cmd_log s ++ entries) - CMD_LOG_MAX) (cmd_log s ++ entries);
      trace := trace s |}).
Proof.
  revert s. induction entries as [|cmd entries IH]; intros [log tr] Hlen.
  - simpl in *. unfold ret. rewrite app_nil_r.
    by replace (length log - CMD_LOG_MAX)%nat with 0%nat by lia.
  - change (for_each (cmd :: entries) log_command)
      with (bind (log_command cmd) (fun _ => for_each entries log_command)).
    unfold bind. rewrite log_command_run.
    rewrite IH by (by apply log_append_length).
    cbn [cmd_log trace] in *. f_equal. f_equal.
    destruct (log_append_cases cmd log Hlen)
      as [[Hlt ->]|(c0 & log' & -> & Hlen' & ->)].
    + by rewrite <- app_assoc.
    + rewrite <- app_assoc. cbn [app]. rewrite !length_app. cbn [length].
      unfold CMD_LOG_MAX. rewrite !length_app. cbn [length].
      replace (S (length log' + S (length entries)) - 5)%nat
        with (S (length log' + S (length entries) - 5)) by lia.
      done.
Qed.

(** C8.  The diagnostic log is a FIFO of capacity 5: whatever is appended
    through [log_command] to a log of at most 5 lines (the program starts with
    an empty one), the log never holds more than 5 lines afterwards, and after
    more than 5 appends it holds exactly the 5 most recently appended lines,
    in the order in which they were appended. *)
Theorem log_keeps_last_five (entries : list string) (s : state) :
  (length (cmd_log s) <= CMD_LOG_MAX)%nat ->
  let s' := exec (for_each entries log_command) s in
  eval (for_each entries log_command) s = Return tt /\
  (length (cmd_log s') <= 5)%nat /\
  ((5 < length entries)%nat ->
   cmd_log s' = drop (length entries - 5) entries /\ length (cmd_log s') = 5%nat).
Proof.
  intros Hlen s'. subst s'. unfold eval, exec.
  rewrite log_commands_last_entries by done. simpl.
  unfold CMD_LOG_MAX in *. split; [done|]. split.
  - rewrite length_drop, !length_app. lia.
  - intros Hmore. split.
    + rewrite drop_app_ge by (rewrite length_app; lia).
      f_equal. rewrite length_app. lia.
    + rewrite length_drop, length_app. lia.
Qed.

Lemma log_keeps_last_five_witness :
  let entries := ["a"; "b"; "c"; "d"; "e"; "f"; "g"]%string in
  let s' := exec (for_each entries log_command) initial in
  eval (for_each entries log_command) initial = Return tt /\
  (length (cmd_log s') <= 5)%nat /\
  ((5 < length entries)%nat ->
   cmd_log s' = drop (length entries - 5) entries /\ length (cmd_log s') = 5%nat).
Proof.
  apply (log_keeps_last_five ["a"; "b"; "c"; "d"; "e"; "f"; "g"]%string initial).
  simpl. lia.
Defined.

(** ** The digest algorithm on the two sides *)

Lemma command_map_unknown (algo : string) :
  algo ∉ ["md5"; "sha1"; "sha256"]%string -> command_map !! algo = None.
Proof.
  intros Hnot. rewrite !not_elem_of_cons in Hnot.
  destruct Hnot as (Hmd5 & Hsha1 & Hsha256 & _).
  unfold command_map.
  rewrite !lookup_insert_ne by congruence. apply lookup_empty.
Qed.

Lemma command_map_md5 : command_map !! "md5"%string = Some "md5sum"%string.
Proof. unfold command_map. apply lookup_insert_eq. Qed.

(** The same file on both sides, compared under ['sha512']: the local side
    answers with a SHA-512 digest, the remote side with an MD5 digest. *)
Example sha512_digests_of_one_content_differ :
  eval (compute_local_checksum (scripted docs_world) "/home/u/docs/z.txt" "sha512" true 5 65536)
       initial = Return (Some "sha512:final"%string) /\
  eval (compute_remote_checksum (scripted docs_world) "/srv/docs/z.txt" "sha512" true 5)
       initial = Return (Some "md5:final"%string).
Proof. split; vm_compute; reflexivity. Qed.

(** ** The directory diff *)

Lemma fold_each_invariant {A S} (I : list A -> S -> Prop) (body : A -> S -> M S) :
  (forall seen x acc st acc' st',
     I seen acc -> body x acc st = (Return acc', st') -> I (seen ++ [x]) acc') ->
  forall l seen acc st r st',
    I seen acc -> fold_each l acc body st = (Return r, st') -> I (seen ++ l) r.
Proof.
  intros Hstep l. induction l as [|x l IH]; intros seen acc st r st' HI Hrun.
  - simpl in Hrun. unfold ret in Hrun. rewrite app_nil_r. congruence.
  - simpl in Hrun. unfold bind in Hrun.
    destruct (body x acc st) as [[acc1|e] st1] eqn:Hbody; [|done].
    replace (seen ++ x :: l) with ((seen ++ [x]) ++ l) by (by rewrite <- app_assoc).
    eapply IH; [|exact Hrun]. eapply Hstep; eauto.
Qed.

Lemma fold_each_returns {A S} (body : A -> S -> M S) :
  (forall x acc st, exists acc' st', body x acc st = (Return acc', st')) ->
  forall l acc st, exists r st', fold_each l acc body st = (Return r, st').
Proof.
  intros Hbody l. induction l as [|x l IH]; intros acc st; simpl.
  - by eexists _, _.
  - unfold bind. destruct (Hbody x acc st) as (acc1 & st1 & ->). apply IH.
Qed.

Section Diff.

Context {Bytes : Type} (E : Env Bytes).

Lemma read_loop_only_OSError reads max_bytes h n :
  Forall only_OSError reads -> only_OSError (read_loop E reads max_bytes h n).
Proof.
  intros Hreads. revert h n.
  induction Hreads as [|[chunk|e] reads Hr Hrs IH]; intros h n; simpl; try done.
  destruct (env_len E chunk =? 0); [done|].
  destruct max_bytes as [m|]; [|apply IH].
  destruct (n + env_len E chunk >=? m); [done|apply IH].
Qed.

Lemma compute_local_checksum_returns algo path full partial_mb chunk_size s :
  diff_friendly E algo ->
  exists c s', compute_local_checksum E path algo full partial_mb chunk_size s
               = (Return c, s').
Proof.
  intros HE. unfold compute_local_checksum, bind, os_path_isfile, external.
  destruct (env_isfile E (trace s) path); cbn; [|by eexists _, _].
  unfold hashlib_new. destruct (df_hashlib _ _ HE) as [hexdigest ->]. cbn.
  unfold try_except, bind, open_rb, external. cbn.
  pose proof (df_open _ _ HE (trace s ++ [OsPathIsfile path]) path chunk_size) as Hopen.
  destruct (env_open_rb _ _ _ _) as [reads|e]; cbn.
  - pose proof (read_loop_only_OSError reads
                  (if full then None else Some (partial_mb * 1024 * 1024)) [] 0 Hopen)
      as Hloop.
    destruct (read_loop _ _ _ _ _) as [h|e]; cbn.
    + by eexists _, _.
    + unfold raise. simpl in Hloop. rewrite Hloop. by eexists _, _.
  - rewrite Hopen. by eexists _, _.
Qed.

Lemma remote_file_exists_returns algo path s :
  diff_friendly E algo ->
  exists b s', remote_file_exists E path s = (Return b, s').
Proof.
  intros HE. unfold remote_file_exists, bind, log_command, ssh_exec_command, external.
  cbn.
  destruct (df_exec _ _ HE (trace s) ("[ -f '" +:+ path +:+ "' ]")) as [r ->].
  by eexists _, _.
Qed.

Lemma compute_remote_checksum_returns algo0 algo path full partial_mb s :
  diff_friendly E algo0 ->
  exists c s', compute_remote_checksum E path algo full partial_mb s = (Return c, s').
Proof.
  intros HE. unfold compute_remote_checksum, bind at 1.
  destruct (remote_file_exists_returns algo0 path s HE) as (b & s1 & ->).
  destruct b; cbn; [|by eexists _, _].
  unfold try_except, bind, log_command, ssh_exec_command, external. cbn.
  destruct (env_exec_command _ _ _) as [r|e]; cbn; [|by eexists _, _].
  destruct (negb _); cbn; [by eexists _, _|].
  destruct (Str.split _); by eexists _, _.
Qed.

Lemma list_local_dir_returns algo path s :
  diff_friendly E algo ->
  exists l s', list_local_dir E path s = (Return l, s').
Proof.
  intros HE. unfold list_local_dir, try_except, bind, os_scandir, external. cbn.
  pose proof (df_scandir _ _ HE (trace s) path) as Hscan.
  destruct (env_scandir _ _ _) as [l|e]; cbn in *; [by eexists _, _|].
  rewrite Hscan. by eexists _, _.
Qed.

Lemma list_remote_dir_returns algo path s :
  diff_friendly E algo ->
  exists l s', list_remote_dir E path s = (Return l, s').
Proof.
  intros HE. unfold list_remote_dir, try_except, bind, sftp_listdir_attr, external. cbn.
  pose proof (df_listdir _ _ HE (trace s) path) as Hlist.
  destruct (env_sftp_listdir_attr _ _ _) as [l|e]; cbn in *; [by eexists _, _|].
  rewrite Hlist. by eexists _, _.
Qed.

End Diff.

Lemma elem_of_plain_files (entries : list (string * bool)) (fname : string) :
  fname ∈ plain_files entries <-> (fname, false) ∈ entries /\ fname <> ".."%string.
Proof.
  unfold plain_files. rewrite list_elem_of_fmap. split.
  - intros ([n d] & -> & Hin). apply list_elem_of_In, filter_In in Hin.
    destruct Hin as [Hin Hkeep]. simpl in *.
    apply andb_prop in Hkeep as [Hd Hn].
    destruct d; [done|]. split; [by apply list_elem_of_In|].
    intros ->. by rewrite String.eqb_refl in Hn.
  - intros [Hin Hne]. exists (fname, false). split; [done|].
    apply list_elem_of_In, filter_In. split; [by apply list_elem_of_In|]. simpl.
    destruct (String.eqb_spec fname ".."); [done|done].
Qed.

(** One round of the loop over [common] puts the name into exactly one of
    [different] and [same]. *)
Lemma classify_shape (local_sum remote_sum : M (option string)) (x : string)
    (d0 sm0 : gset string) st acc' st' :
  (let* csum_loc := local_sum in
   let* csum_rem := remote_sum in
   match csum_loc, csum_rem with
   | Some loc, Some rem =>
       if bool_decide (loc = rem) then ret (d0, sm0 ∪ {[x]})
       else ret (d0 ∪ {[x]}, sm0)
   | _, _ => ret (d0 ∪ {[x]}, sm0)
   end) st = (Return acc', st') ->
  acc' = (d0 ∪ {[x]}, sm0) \/ acc' = (d0, sm0 ∪ {[x]}).
Proof.
  unfold bind, ret.
  destruct (local_sum st) as [[loc|e1] st1]; [|done].
  destruct (remote_sum st1) as [[rem|e2] st2]; [|done].
  destruct loc as [loc|], rem as [rem|]; try case_bool_decide;
    intros [= <- <-]; auto.
Qed.

Lemma classified_step (seen : list string) (x : string) (d0 sm0 : gset string)
    (acc' : gset string * gset string) :
  d0 ∪ sm0 = list_to_set seen /\ (NoDup seen -> d0 ## sm0) ->
  acc' = (d0 ∪ {[x]}, sm0) \/ acc' = (d0, sm0 ∪ {[x]}) ->
  acc'.1 ∪ acc'.2 = list_to_set (seen ++ [x])
  /\ (NoDup (seen ++ [x]) -> acc'.1 ## acc'.2).
Proof.
  intros [Hunion Hdisj] Hacc. split.
  - rewrite list_to_set_app_L, <- Hunion.
    destruct Hacc as [-> | ->]; simpl; set_solver.
  - intros Hnd. apply NoDup_app in Hnd as (Hnd & Hfresh & _).
    specialize (Hdisj Hnd).
    assert (x ∉ d0 ∪ sm0) as Hx.
    { rewrite Hunion, elem_of_list_to_set. intros Hx.
      apply (Hfresh x Hx). by apply list_elem_of_singleton. }
    clear Hunion Hfresh Hnd.
    destruct Hacc as [-> | ->]; simpl; set_solver.
Qed.

(** C4.  Whenever [compare_directories] returns, its four sets are pairwise
    disjoint and a file name is in one of them exactly when it is a
    non-directory entry other than ['..'] of the local or of the remote
    listing; so every such name is in exactly one of the four sets.  And it
    does return in every world in which [hashlib] knows the algorithm, the
    SSH session answers, and file calls fail with [OSError] only. *)
Theorem compare_directories_partitions {Bytes} (E : Env Bytes) (order : set_order)
    (local_path remote_path algo : string) (full : bool) (s : state) :
  (forall local_entries remote_entries s1 s2 only_local only_remote different same,
     list_local_dir E local_path s = (Return local_entries, s1) ->
     list_remote_dir E remote_path s1 = (Return remote_entries, s2) ->
     eval (compare_directories E order local_path remote_path algo full) s
       = Return (only_local, only_remote, different, same) ->
     only_local ## only_remote /\ only_local ## different /\ only_local ## same /\
     only_remote ## different /\ only_remote ## same /\ different ## same /\
     forall fname : string,
       fname ∈ only_local ∪ only_remote ∪ different ∪ same <->
       (((fname, false) ∈ local_entries \/ (fname, false) ∈ remote_entries)
        /\ fname <> ".."%string)) /\
  (diff_friendly E algo ->
   exists result,
     eval (compare_directories E order local_path remote_path algo full) s
       = Return result).
Proof.
  split.
  - intros local_entries remote_entries s1 s2 only_local only_remote different same
      Hlocal Hremote Hrun.
    unfold compare_directories, eval in Hrun.
    rewrite (bind_Return _ _ _ _ _ Hlocal), (bind_Return _ _ _ _ _ Hremote) in Hrun.
    cbv zeta in Hrun. unfold bind at 1 in Hrun.
    match type of Hrun with
    | context [fold_each ?l0 ?acc0 ?body0 s2] =>
        destruct (fold_each l0 acc0 body0 s2) as [[[d sm]|e] s3] eqn:Hfold;
        [|done];
        pose proof (fold_each_invariant
          (fun (seen : list string) (sets : gset string * gset string) =>
             sets.1 ∪ sets.2 = list_to_set seen /\ (NoDup seen -> sets.1 ## sets.2))
          body0) as Hinv
    end.
    specialize (Hinv ltac:(
      intros seen x [d0 sm0] st acc' st' HI Hbody;
      cbv beta iota in Hbody;
      apply (classify_shape _ _ x d0 sm0) in Hbody;
      by apply (classified_step seen x d0 sm0))).
    assert ((∅ : gset string) ∪ (∅ : gset string) = list_to_set ([] : list string)
            /\ (NoDup ([] : list string) -> (∅ : gset string) ## (∅ : gset string)))
      as Hinit by (split; set_solver).
    specialize (Hinv _ [] (∅, ∅) _ _ _ Hinit Hfold). clear Hinit.
    simpl in Hinv. destruct Hinv as [Hunion Hdisj].
    assert (NoDup (set_iter order
              (list_to_set (plain_files local_entries)
               ∩ list_to_set (plain_files remote_entries)))) as Hnd.
    { rewrite (set_iter_perm order). apply NoDup_elements. }
    specialize (Hdisj Hnd).
    assert (d ∪ sm = list_to_set (plain_files local_entries)
                     ∩ list_to_set (plain_files remote_entries)) as Hcommon.
    { rewrite Hunion. apply set_eq. intros x.
      rewrite elem_of_list_to_set, (set_iter_perm order), elem_of_elements. done. }
    unfold ret in Hrun. simpl in Hrun.
    injection Hrun as <- <- <- <-.
    clear Hfold Hlocal Hremote Hunion Hnd.
    set (L := list_to_set (plain_files local_entries) : gset string) in *.
    set (R := list_to_set (plain_files remote_entries) : gset string) in *.
    assert (forall f : string, f ∈ L <-> (f, false) ∈ local_entries /\ f <> ".."%string)
      as HL by (intros f; unfold L; rewrite elem_of_list_to_set;
                apply elem_of_plain_files).
    assert (forall f : string, f ∈ R <-> (f, false) ∈ remote_entries /\ f <> ".."%string)
      as HR by (intros f; unfold R; rewrite elem_of_list_to_set;
                apply elem_of_plain_files).
    clearbody L R.
    assert (d ⊆ L ∩ R /\ sm ⊆ L ∩ R) as [Hd Hsm]
      by (rewrite <- Hcommon; split; [apply union_subseteq_l|apply union_subseteq_r]).
    split; [clear HL HR; set_solver|]. split; [clear HL HR; set_solver|].
    split; [clear HL HR; set_solver|]. split; [clear HL HR; set_solver|].
    split; [clear HL HR; set_solver|]. split; [done|].
    intros fname.
    assert (L ∖ (L ∩ R) ∪ R ∖ (L ∩ R) ∪ d ∪ sm = L ∪ R) as ->.
    { clear HL HR. apply set_eq. intros x.
      rewrite <- (assoc_L (∪) _ d sm), Hcommon.
      destruct (decide (x ∈ L)), (decide (x ∈ R)); set_solver. }
    rewrite elem_of_union, HL, HR. tauto.
  - intros HE. unfold compare_directories, eval.
    destruct (list_local_dir_returns E algo local_path s HE) as (l1 & s1 & Hl).
    destruct (list_remote_dir_returns E algo remote_path s1 HE) as (l2 & s2 & Hr).
    rewrite (bind_Return _ _ _ _ _ Hl), (bind_Return _ _ _ _ _ Hr).
    cbv zeta. unfold bind at 1.
    match goal with
    | |- context [fold_each ?l0 ?acc0 ?body0 s2] =>
        destruct (fold_each_returns body0) with (l := l0) (acc := acc0) (st := s2)
          as (r & s3 & ->)
    end.
    + intros x [d0 sm0] st. unfold bind.
      destruct (compute_local_checksum_returns E algo (os_path_join local_path x)
                  full PARTIAL_MB DEFAULT_CHUNK_SIZE st HE) as (loc & st1 & ->).
      destruct (compute_remote_checksum_returns E algo algo
                  (remote_child remote_path x) full PARTIAL_MB st1 HE)
        as (rem & st2 & ->).
      destruct loc, rem; try case_bool_decide; by eexists _, _.
    + by eexists.
Qed.

Lemma scripted_diff_friendly (table : list call -> call -> answer) (algo : string) :
  algo ∈ known_algorithms ->
  (forall h c e, table h c = ARaise e ->
                 is_OSError e = true /\ forall cmd, c <> SshExecCommand cmd) ->
  (forall h c reads, table h c = AReads reads -> Forall only_OSError reads) ->
  diff_friendly (scripted table) algo.
Proof.
  intros Halgo Hraise Hreads. split; simpl.
  - rewrite bool_decide_eq_true_2 by done. by eexists.
  - intros h cmd. destruct (table h (SshExecCommand cmd)) eqn:Ht; try by eexists.
    destruct (Hraise _ _ _ Ht) as [_ Hne]. by destruct (Hne cmd).
  - intros h p. destruct (table h (OsScandir p)) eqn:Ht; try done.
    simpl. by destruct (Hraise _ _ _ Ht).
  - intros h p. destruct (table h (SftpListdirAttr p)) eqn:Ht; try done.
    simpl. by destruct (Hraise _ _ _ Ht).
  - intros h p _. destruct (table h (OpenRb p)) eqn:Ht; try done.
    + by apply (Hreads _ _ _ Ht).
    + by destruct (Hraise _ _ _ Ht).
Qed.

Lemma docs_world_diff_friendly : diff_friendly (scripted docs_world) "md5".
Proof.
  apply scripted_diff_friendly.
  - apply (bool_decide_unpack _). vm_compute. reflexivity.
  - intros h c e. destruct c; simpl; repeat case_bool_decide; try discriminate;
      intros [= <-]; done.
  - intros h c reads. destruct c; simpl; repeat case_bool_decide; try discriminate;
      intros [= <-]; repeat constructor.
Qed.

Lemma compare_directories_partitions_witness :
  let only_local : gset string := {["x.txt"%string]} in
  let only_remote : gset string := {["w.txt"%string]} in
  let different : gset string := {["y.txt"%string]} in
  let same : gset string := {["z.txt"%string]} in
  (only_local ## only_remote /\ only_local ## different /\ only_local ## same /\
   only_remote ## different /\ only_remote ## same /\ different ## same /\
   forall fname : string,
     fname ∈ only_local ∪ only_remote ∪ different ∪ same <->
     (((fname, false) ∈ [("..", true); ("old", true); ("x.txt", false);
                          ("y.txt", false); ("z.txt", false)]%string
       \/ (fname, false) ∈ [("..", true); ("old", true); ("w.txt", false);
                             ("y.txt", false); ("z.txt", false)]%string)
      /\ fname <> ".."%string)) /\
  exists result,
    eval (compare_directories (scripted docs_world) elements_order
            "/home/u/docs" "/srv/docs" "md5" false) initial = Return result.
Proof.
  destruct (compare_directories_partitions (scripted docs_world) elements_order
              "/home/u/docs" "/srv/docs" "md5" false initial) as [Hpart Hret].
  split.
  - apply (Hpart _ _
             {| cmd_log := []; trace := [OsScandir "/home/u/docs"] |}
             {| cmd_log := [];
                trace := [OsScandir "/home/u/docs"; SftpListdirAttr "/srv/docs"] |}).
    + vm_compute. reflexivity.
    + vm_compute. reflexivity.
    + vm_compute. reflexivity.
  - apply Hret. exact docs_world_diff_friendly.
Defined.

(** ** What a computation may call *)

Lemma exec_bind {A B} (m : M A) (k : A -> M B) s :
  exec (bind m k) s =
  match eval m s with
  | Return a => exec (k a) (exec m s)
  | Raise _ => exec m s
  end.
Proof. unfold exec, eval, bind. by destruct (m s) as [[a|e] s']. Qed.

Lemma emits_ret {A} P (a : A) : emits P (ret a).
Proof. intros s. exists []. by rewrite app_nil_r. Qed.

Lemma emits_raise {A} P e : emits P (raise (A := A) e).
Proof. intros s. exists []. by rewrite app_nil_r. Qed.

Lemma emits_log_command P cmd : emits P (log_command cmd).
Proof. intros s. exists []. by rewrite app_nil_r. Qed.

Lemma emits_external {A} (P : call -> bool) c (answer : list call -> outcome A) :
  P c = true -> emits P (external c answer).
Proof. intros Hc s. exists [c]. simpl. by rewrite Hc. Qed.

Lemma emits_bind {A B} P (m : M A) (k : A -> M B) :
  emits P m -> (forall a, emits P (k a)) -> emits P (bind m k).
Proof.
  intros Hm Hk s. rewrite exec_bind. destruct (Hm s) as (l1 & Hl1 & HP1).
  destruct (eval m s) as [a|e]; [|by exists l1].
  destruct (Hk a (exec m s)) as (l2 & Hl2 & HP2).
  exists (l1 ++ l2). rewrite Hl2, Hl1, app_assoc. split; [done|].
  rewrite forallb_app. by rewrite HP1, HP2.
Qed.

Lemma emits_try_except {A} P (body : M A) classes handler :
  emits P body -> (forall e, emits P (handler e)) ->
  emits P (try_except body classes handler).
Proof.
  intros Hb Hh s. destruct (Hb s) as (l1 & Hl1 & HP1).
  unfold exec, try_except in *. destruct (body s) as [[a|e] s1]; simpl in *;
    [by exists l1|].
  destruct (classes e); [|by exists l1].
  destruct (Hh e s1) as (l2 & Hl2 & HP2). unfold exec in Hl2.
  exists (l1 ++ l2). rewrite Hl2, Hl1, app_assoc. split; [done|].
  rewrite forallb_app. by rewrite HP1, HP2.
Qed.

Lemma emits_for_each {A} P (l : list A) (body : A -> M unit) :
  (forall x, emits P (body x)) -> emits P (for_each l body).
Proof.
  intros Hbody. induction l as [|x l IH]; simpl.
  - apply emits_ret.
  - apply emits_bind; [apply Hbody|]. intros _. apply IH.
Qed.

Lemma emits_calls_since {A} P (m : M A) s :
  emits P m -> forallb P (calls_since s (exec m s)) = true.
Proof.
  intros Hm. destruct (Hm s) as (l & Hl & HP). unfold calls_since.
  by rewrite Hl, drop_app_length.
Qed.

Lemma calls_since_app s s' l : trace s' = trace s ++ l -> calls_since s s' = l.
Proof. intros H. unfold calls_since. by rewrite H, drop_app_length. Qed.

Lemma no_transfers_filter (l : list call) :
  forallb not_transfer l = true -> List.filter is_transfer l = [].
Proof.
  induction l as [|c l IH]; [done|]. simpl. unfold not_transfer at 1.
  destruct (is_transfer c); [done|]. apply IH.
Qed.

Ltac emits_step :=
  first
    [ apply emits_ret | apply emits_raise | apply emits_log_command
    | apply emits_external; reflexivity
    | apply emits_bind; [|intros ?]
    | apply emits_try_except; [|intros ?]
    | apply emits_for_each; intros ? ].

Section Emits.

Context {Bytes : Type} (E : Env Bytes).

Lemma emits_compute_local_checksum P path algo full partial_mb chunk_size :
  P (OsPathIsfile path) = true -> P (OpenRb path) = true ->
  emits P (compute_local_checksum E path algo full partial_mb chunk_size).
Proof.
  intros H1 H2. unfold compute_local_checksum.
  apply emits_bind; [by apply emits_external|]. intros isfile.
  destruct (negb isfile); [apply emits_ret|].
  apply emits_bind.
  { unfold hashlib_new. destruct (env_hashlib E algo); emits_step. }
  intros hexdigest. apply emits_try_except; [|intros; apply emits_ret].
  apply emits_bind; [by apply emits_external|]. intros reads.
  destruct (read_loop _ _ _ _ _); emits_step.
Qed.

Lemma emits_remote_file_exists P path :
  (forall cmd, P (SshExecCommand cmd) = true) ->
  emits P (remote_file_exists E path).
Proof.
  intros HP. unfold remote_file_exists. cbv zeta.
  apply emits_bind; [apply emits_log_command|]. intros _.
  apply emits_bind; [apply emits_external, HP|]. intros r. apply emits_ret.
Qed.

Lemma emits_compute_remote_checksum P path algo full partial_mb :
  (forall cmd, P (SshExecCommand cmd) = true) ->
  emits P (compute_remote_checksum E path algo full partial_mb).
Proof.
  intros HP. unfold compute_remote_checksum.
  apply emits_bind; [by apply emits_remote_file_exists|]. intros found.
  destruct (negb found); [apply emits_ret|]. cbv zeta.
  apply emits_bind; [apply emits_log_command|]. intros _.
  apply emits_try_except; [|intros; apply emits_ret].
  apply emits_bind; [apply emits_external, HP|]. intros r.
  destruct (negb _); [apply emits_ret|]. destruct (Str.split _); apply emits_ret.
Qed.

Lemma emits_remote_file_size P path :
  (forall cmd, P (SshExecCommand cmd) = true) ->
  emits P (remote_file_size E path).
Proof.
  intros HP. unfold remote_file_size. cbv zeta.
  apply emits_bind; [apply emits_log_command|]. intros _.
  apply emits_try_except; [|intros; apply emits_ret].
  apply emits_bind; [apply emits_external, HP|]. intros r.
  destruct (_ && _); apply emits_ret.
Qed.

End Emits.

Lemma extends_with_refl P s : extends_with P s s.
Proof. exists []. by rewrite app_nil_r. Qed.

Lemma extends_with_trans P s1 s2 s3 :
  extends_with P s1 s2 -> extends_with P s2 s3 -> extends_with P s1 s3.
Proof.
  intros (l1 & H1 & HP1) (l2 & H2 & HP2). exists (l1 ++ l2).
  rewrite H2, H1, app_assoc. split; [done|]. rewrite forallb_app. by rewrite HP1, HP2.
Qed.

Lemma emits_extends {A} P (m : M A) s : emits P m -> extends_with P s (exec m s).
Proof. intros H. apply H. Qed.

Lemma extends_no_transfers s s' :
  extends_with not_transfer s s' -> transfers s s' = [].
Proof.
  intros (l & Hl & HP). unfold transfers.
  rewrite (calls_since_app _ _ _ Hl). by apply no_transfers_filter.
Qed.

Lemma extends_then_transfer s s1 s' c :
  extends_with not_transfer s s1 -> is_transfer c = true ->
  trace s' = trace s1 ++ [c] -> transfers s s' = [c].
Proof.
  intros (l & Hl & HP) Hc Hs'. unfold transfers.
  rewrite (calls_since_app s s' (l ++ [c])) by (by rewrite Hs', Hl, app_assoc).
  rewrite List.filter_app, (no_transfers_filter _ HP). simpl. by rewrite Hc.
Qed.

Lemma last_log_append cmd (log : list string) : last (log_append cmd log) = Some cmd.
Proof.
  unfold log_append. destruct (CMD_LOG_MAX <? length (log ++ [cmd]))%nat eqn:Hlen.
  - destruct log as [|c0 log]; [done|]. simpl. apply last_snoc.
  - apply last_snoc.
Qed.

(** ** The tokens of [split] are not empty *)

Lemma string_of_list_ascii_nonempty (l : list ascii) :
  l <> [] -> string_of_list_ascii l <> ""%string.
Proof. by destruct l. Qed.

Lemma split_aux_nonempty (s : string) (cur : list ascii) (t : string) :
  t ∈ Str.split_aux s cur -> t <> ""%string.
Proof.
  revert cur. induction s as [|a s IH]; intros cur; simpl.
  - destruct cur as [|c cur]; [by intros ?%elem_of_nil|].
    intros ->%list_elem_of_singleton. apply string_of_list_ascii_nonempty.
    simpl. by destruct (rev cur).
  - destruct (Str.isspace a); [|apply IH].
    destruct cur as [|c cur]; [apply IH|].
    intros [->|Hin]%elem_of_cons; [|by apply (IH [])].
    apply string_of_list_ascii_nonempty. simpl. by destruct (rev cur).
Qed.

Lemma compute_remote_checksum_nonempty {Bytes} (E : Env Bytes)
    path algo full partial_mb s digest :
  eval (compute_remote_checksum E path algo full partial_mb) s = Return (Some digest) ->
  digest <> ""%string.
Proof.
  unfold compute_remote_checksum, eval, bind at 1.
  destruct (remote_file_exists E path s) as [[found|e] s1]; [|done].
  destruct (negb found); [done|]. cbv zeta.
  unfold bind at 1. rewrite log_command_run.
  unfold try_except, bind.
  destruct (ssh_exec_command E _ _) as [[r|e] s2]; [|done].
  destruct (negb _); [done|].
  destruct (Str.split _) as [|first rest] eqn:Hsplit; [done|].
  unfold ret. simpl. intros [= <-].
  apply (split_aux_nonempty (Str.strip (stdout r)) []).
  unfold Str.split in Hsplit. rewrite Hsplit. apply list_elem_of_here.
Qed.

(** ** Copying one file *)

Section FileCopy.

Context {Bytes : Type} (E : Env Bytes).

Lemma l2r_put_run local_path remote_path s :
  l2r_put E local_path remote_path s =
  (Return tt,
   {| cmd_log :=
        (let log := log_append ("PUT " +:+ local_path +:+ " -> " +:+ remote_path)
                               (cmd_log s) in
         match env_sftp_put E (trace s) local_path remote_path with
         | Return _ => log
         | Raise e => log_append ("Fehler: " +:+ exn_str e) log
         end);
      trace := trace s ++ [SftpPut local_path remote_path] |}).
Proof.
  unfold l2r_put, bind, try_except, sftp_put, external, log_command. simpl.
  by destruct (env_sftp_put E (trace s) local_path remote_path) as [[]|e].
Qed.

Lemma r2l_get_run remote_path local_path s :
  r2l_get E remote_path local_path s =
  (Return tt,
   {| cmd_log :=
        (let log := log_append ("GET " +:+ remote_path +:+ " -> " +:+ local_path)
                               (cmd_log s) in
         match env_sftp_get E (trace s) remote_path local_path with
         | Return _ => log
         | Raise e => log_append ("Fehler: " +:+ exn_str e) log
         end);
      trace := trace s ++ [SftpGet remote_path local_path] |}).
Proof.
  unfold r2l_get, bind, try_except, sftp_get, external, log_command. simpl.
  by destruct (env_sftp_get E (trace s) remote_path local_path) as [[]|e].
Qed.

(** The comparison of a large local file with an existing remote file, in
    terms of the four checksums. *)
Lemma l2r_skip_identical_large local_path remote_path s size
    (csum_loc_part csum_rem_part csum_loc_full csum_rem_full : option string) :
  let local_sum full :=
    compute_local_checksum E local_path "md5" full PARTIAL_MB DEFAULT_CHUNK_SIZE in
  let remote_sum full := compute_remote_checksum E remote_path "md5" full PARTIAL_MB in
  let t1 := exec (os_path_getsize E local_path) s in
  let t2 := exec (remote_file_exists E remote_path) t1 in
  let t3 := exec (local_sum false) t2 in
  let t4 := exec (remote_sum false) t3 in
  let t5 := exec (local_sum true) t4 in
  let t6 := exec (remote_sum true) t5 in
  eval (os_path_getsize E local_path) s = Return size ->
  size > LARGE_FILE_MB * 1024 * 1024 ->
  eval (remote_file_exists E remote_path) t1 = Return true ->
  eval (local_sum false) t2 = Return csum_loc_part ->
  eval (remote_sum false) t3 = Return csum_rem_part ->
  eval (local_sum true) t4 = Return csum_loc_full ->
  eval (remote_sum true) t5 = Return csum_rem_full ->
  l2r_skip_identical E local_path remote_path s =
  if truthy csum_loc_part && truthy csum_rem_part
     && bool_decide (csum_loc_part = csum_rem_part)
  then
    if bool_decide (csum_loc_full = csum_rem_full)
    then (Return true,
          exec (log_command
                  ("SKIP identical: " +:+ local_path +:+ " -> " +:+ remote_path)) t6)
    else (Return false, t6)
  else (Return false, t4).
Proof.
  intros local_sum remote_sum t1 t2 t3 t4 t5 t6 Hsize Hlarge Hfound Hlp Hrp Hlf Hrf.
  unfold l2r_skip_identical.
  rewrite (bind_eval_Return _ _ _ _ Hsize), (bind_eval_Return _ _ _ _ Hfound).
  cbv iota. replace (size >? LARGE_FILE_MB * 1024 * 1024) with true
    by (symmetry; apply Z.gtb_lt; lia).
  rewrite (bind_eval_Return _ _ _ _ Hlp), (bind_eval_Return _ _ _ _ Hrp).
  destruct (truthy csum_loc_part && truthy csum_rem_part
            && bool_decide (csum_loc_part = csum_rem_part)); [|done].
  rewrite (bind_eval_Return _ _ _ _ Hlf), (bind_eval_Return _ _ _ _ Hrf).
  by destruct (bool_decide (csum_loc_full = csum_rem_full)).
Qed.

(** The same for a large remote file and an existing local path. *)
Lemma r2l_skip_identical_large remote_path local_path s size
    (csum_rem_part csum_loc_part csum_rem_full csum_loc_full : option string) :
  let local_sum full :=
    compute_local_checksum E local_path "md5" full PARTIAL_MB DEFAULT_CHUNK_SIZE in
  let remote_sum full := compute_remote_checksum E remote_path "md5" full PARTIAL_MB in
  let t1 := exec (os_path_exists E local_path) s in
  let t2 := exec (remote_file_size E remote_path) t1 in
  let t3 := exec (remote_sum false) t2 in
  let t4 := exec (local_sum false) t3 in
  let t5 := exec (remote_sum true) t4 in
  let t6 := exec (local_sum true) t5 in
  eval (os_path_exists E local_path) s = Return true ->
  eval (remote_file_size E remote_path) t1 = Return (Some size) ->
  size > LARGE_FILE_MB * 1024 * 1024 ->
  eval (remote_sum false) t2 = Return csum_rem_part ->
  eval (local_sum false) t3 = Return csum_loc_part ->
  eval (remote_sum true) t4 = Return csum_rem_full ->
  eval (local_sum true) t5 = Return csum_loc_full ->
  r2l_skip_identical E remote_path local_path s =
  if truthy csum_rem_part && truthy csum_loc_part
     && bool_decide (csum_rem_part = csum_loc_part)
  then
    if bool_decide (csum_rem_full = csum_loc_full)
    then (Return true,
          exec (log_command
                  ("SKIP identical: " +:+ remote_path +:+ " -> " +:+ local_path)) t6)
    else (Return false, t6)
  else (Return false, t4).
Proof.
  intros local_sum remote_sum t1 t2 t3 t4 t5 t6 Hfound Hsize Hlarge Hrp Hlp Hrf Hlf.
  unfold r2l_skip_identical.
  rewrite (bind_eval_Return _ _ _ _ Hfound). cbv iota.
  rewrite (bind_eval_Return _ _ _ _ Hsize). cbv iota.
  replace (size >? LARGE_FILE_MB * 1024 * 1024) with true
    by (symmetry; apply Z.gtb_lt; lia).
  replace (size =? 0) with false
    by (symmetry; apply Z.eqb_neq; unfold LARGE_FILE_MB in Hlarge; lia).
  cbn [negb andb].
  rewrite (bind_eval_Return _ _ _ _ Hrp), (bind_eval_Return _ _ _ _ Hlp).
  destruct (truthy csum_rem_part && truthy csum_loc_part
            && bool_decide (csum_rem_part = csum_loc_part)); [|done].
  rewrite (bind_eval_Return _ _ _ _ Hrf), (bind_eval_Return _ _ _ _ Hlf).
  by destruct (bool_decide (csum_rem_full = csum_loc_full)).
Qed.

Lemma smart_copy_local_file depth local_path remote_path s :
  eval (os_path_isdir E local_path) s = Return false ->
  smart_copy_local_to_remote E (S depth) local_path remote_path s =
  (let* skipped := l2r_skip_identical E local_path remote_path in
   if skipped then ret tt else l2r_put E local_path remote_path)
    (exec (os_path_isdir E local_path) s).
Proof. intros H. simpl. by rewrite (bind_eval_Return _ _ _ _ H). Qed.

Lemma sftp_stat_guard_run remote_path s st_mode :
  eval (sftp_stat E remote_path) s = Return st_mode ->
  try_except (let* st_mode := sftp_stat E remote_path in ret (Some st_mode))
    is_OSError (fun _ => ret None) s
  = (Return (Some st_mode), exec (sftp_stat E remote_path) s).
Proof.
  intros H. unfold try_except. by rewrite (bind_eval_Return _ _ _ _ H).
Qed.

Lemma smart_copy_remote_file depth remote_path local_path s st_mode :
  eval (sftp_stat E remote_path) s = Return st_mode ->
  mode_is_dir st_mode = false ->
  smart_copy_remote_to_local E (S depth) remote_path local_path s =
  (let* skipped := r2l_skip_identical E remote_path local_path in
   if skipped then ret tt else r2l_get E remote_path local_path)
    (exec (sftp_stat E remote_path) s).
Proof.
  intros H Hfile. simpl.
  rewrite (bind_Return _ _ _ _ _ (sftp_stat_guard_run _ _ _ H)).
  by rewrite Hfile.
Qed.

End FileCopy.

Lemma truthy_Some_nonempty (digest : string) :
  digest <> ""%string -> truthy (Some digest) = true.
Proof. intros H. simpl. by destruct (String.eqb_spec digest ""). Qed.

Lemma l2r_large_file {Bytes} (E : Env Bytes) (depth : nat)
    (local_path remote_path : string) (s0 : state) (size : Z)
    (ploc prem floc frem : string) :
  let local_sum full :=
    compute_local_checksum E local_path "md5" full PARTIAL_MB DEFAULT_CHUNK_SIZE in
  let remote_sum full := compute_remote_checksum E remote_path "md5" full PARTIAL_MB in
  let s1 := exec (os_path_isdir E local_path) s0 in
  let s2 := exec (os_path_getsize E local_path) s1 in
  let s3 := exec (remote_file_exists E remote_path) s2 in
  let s4 := exec (local_sum false) s3 in
  let s5 := exec (remote_sum false) s4 in
  let s6 := exec (local_sum true) s5 in
  let copy := smart_copy_local_to_remote E (S depth) local_path remote_path in
  eval (os_path_isdir E local_path) s0 = Return false ->
  eval (os_path_getsize E local_path) s1 = Return size ->
  size > 10 * 1024 * 1024 ->
  eval (remote_file_exists E remote_path) s2 = Return true ->
  eval (local_sum false) s3 = Return (Some ploc) ->
  eval (remote_sum false) s4 = Return (Some prem) ->
  eval (local_sum true) s5 = Return (Some floc) ->
  eval (remote_sum true) s6 = Return (Some frem) ->
  eval copy s0 = Return tt /\
  (ploc = prem /\ floc = frem ->
   transfers s0 (exec copy s0) = [] /\
   last (cmd_log (exec copy s0))
     = Some ("SKIP identical: " +:+ local_path +:+ " -> " +:+ remote_path)) /\
  (ploc <> prem \/ floc <> frem ->
   transfers s0 (exec copy s0) = [SftpPut local_path remote_path]).
Proof.
  intros local_sum remote_sum s1 s2 s3 s4 s5 s6 copy
    Hfile Hsize Hlarge Hfound Hlp Hrp Hlf Hrf.
  set (s7 := exec (remote_sum true) s6).
  subst local_sum remote_sum. cbv beta in *.
  assert (extends_with not_transfer s0 s5 /\ extends_with not_transfer s0 s7)
    as [Hext5 Hext7].
  { assert (extends_with not_transfer s0 s5) as H5.
    { eapply extends_with_trans; [|apply emits_extends, emits_compute_remote_checksum; done].
      eapply extends_with_trans; [|apply emits_extends, emits_compute_local_checksum; done].
      eapply extends_with_trans; [|apply emits_extends, emits_remote_file_exists; done].
      eapply extends_with_trans; [|apply emits_extends, emits_external; done].
      apply emits_extends, emits_external; done. }
    split; [done|].
    eapply extends_with_trans; [|apply emits_extends, emits_compute_remote_checksum; done].
    eapply extends_with_trans; [|apply emits_extends, emits_compute_local_checksum; done].
    done. }
  pose proof (l2r_skip_identical_large E local_path remote_path s1 size
                _ _ _ _ Hsize Hlarge Hfound Hlp Hrp Hlf Hrf) as Hskip.
  pose proof (compute_remote_checksum_nonempty E _ _ _ _ _ _ Hrp) as Hprem.
  subst copy. unfold eval, exec.
  rewrite (smart_copy_local_file E depth _ _ _ Hfile). fold s1.
  destruct (decide (ploc = prem)) as [->|Hpart].
  - rewrite (truthy_Some_nonempty prem Hprem), bool_decide_eq_true_2 in Hskip by done.
    cbn [andb] in Hskip.
    destruct (decide (floc = frem)) as [->|Hfull].
    + rewrite bool_decide_eq_true_2 in Hskip by done.
      rewrite (bind_Return _ _ _ _ _ Hskip). cbn [ret fst snd].
      split; [done|]. split; [|by intros [|]].
      intros _. split.
      * apply extends_no_transfers.
        eapply extends_with_trans; [exact Hext7|].
        apply emits_extends, emits_log_command.
      * apply last_log_append.
    + rewrite bool_decide_eq_false_2 in Hskip by congruence.
      rewrite (bind_Return _ _ _ _ _ Hskip), l2r_put_run. cbn [fst snd].
      split; [done|]. split; [by intros [_ ?]|].
      intros _. by apply (extends_then_transfer s0 s7 _ _ Hext7).
  - rewrite (bool_decide_eq_false_2 (Some ploc = Some prem)) in Hskip by congruence.
    rewrite andb_false_r in Hskip.
    rewrite (bind_Return _ _ _ _ _ Hskip), l2r_put_run. cbn [fst snd].
    split; [done|]. split; [intros [Heq _]; by destruct Hpart|].
    intros _. by apply (extends_then_transfer s0 s5 _ _ Hext5).
Qed.

Lemma r2l_large_file {Bytes} (E : Env Bytes) (depth : nat)
    (remote_path local_path : string) (s0 : state) (st_mode size : Z)
    (prem ploc frem floc : string) :
  let local_sum full :=
    compute_local_checksum E local_path "md5" full PARTIAL_MB DEFAULT_CHUNK_SIZE in
  let remote_sum full := compute_remote_checksum E remote_path "md5" full PARTIAL_MB in
  let s1 := exec (sftp_stat E remote_path) s0 in
  let s2 := exec (os_path_exists E local_path) s1 in
  let s3 := exec (remote_file_size E remote_path) s2 in
  let s4 := exec (remote_sum false) s3 in
  let s5 := exec (local_sum false) s4 in
  let s6 := exec (remote_sum true) s5 in
  let copy := smart_copy_remote_to_local E (S depth) remote_path local_path in
  eval (sftp_stat E remote_path) s0 = Return st_mode ->
  mode_is_dir st_mode = false ->
  eval (os_path_exists E local_path) s1 = Return true ->
  eval (remote_file_size E remote_path) s2 = Return (Some size) ->
  size > 10 * 1024 * 1024 ->
  eval (remote_sum false) s3 = Return (Some prem) ->
  eval (local_sum false) s4 = Return (Some ploc) ->
  eval (remote_sum true) s5 = Return (Some frem) ->
  eval (local_sum true) s6 = Return (Some floc) ->
  eval copy s0 = Return tt /\
  (prem = ploc /\ frem = floc ->
   transfers s0 (exec copy s0) = [] /\
   last (cmd_log (exec copy s0))
     = Some ("SKIP identical: " +:+ remote_path +:+ " -> " +:+ local_path)) /\
  (prem <> ploc \/ frem <> floc ->
   transfers s0 (exec copy s0) = [SftpGet remote_path local_path]).
Proof.
  intros local_sum remote_sum s1 s2 s3 s4 s5 s6 copy
    Hstat Hfile Hfound Hsize Hlarge Hrp Hlp Hrf Hlf.
  set (s7 := exec (local_sum true) s6).
  subst local_sum remote_sum. cbv beta in *.
  assert (extends_with not_transfer s0 s5 /\ extends_with not_transfer s0 s7)
    as [Hext5 Hext7].
  { assert (extends_with not_transfer s0 s5) as H5.
    { eapply extends_with_trans; [|apply emits_extends, emits_compute_local_checksum; done].
      eapply extends_with_trans; [|apply emits_extends, emits_compute_remote_checksum; done].
      eapply extends_with_trans; [|apply emits_extends, emits_remote_file_size; done].
      eapply extends_with_trans; [|apply emits_extends, emits_external; done].
      apply emits_extends, emits_external; done. }
    split; [done|].
    eapply extends_with_trans; [|apply emits_extends, emits_compute_local_checksum; done].
    eapply extends_with_trans; [|apply emits_extends, emits_compute_remote_checksum; done].
    done. }
  pose proof (r2l_skip_identical_large E remote_path local_path s1 size
                _ _ _ _ Hfound Hsize Hlarge Hrp Hlp Hrf Hlf) as Hskip.
  pose proof (compute_remote_checksum_nonempty E _ _ _ _ _ _ Hrp) as Hprem.
  subst copy. unfold eval, exec.
  rewrite (smart_copy_remote_file E depth _ _ _ _ Hstat Hfile). fold s1.
  destruct (decide (prem = ploc)) as [<-|Hpart].
  - rewrite (truthy_Some_nonempty prem Hprem), bool_decide_eq_true_2 in Hskip by done.
    cbn [andb] in Hskip.
    destruct (decide (frem = floc)) as [<-|Hfull].
    + rewrite bool_decide_eq_true_2 in Hskip by done.
      rewrite (bind_Return _ _ _ _ _ Hskip). cbn [ret fst snd].
      split; [done|]. split; [|by intros [|]].
      intros _. split.
      * apply extends_no_transfers.
        eapply extends_with_trans; [exact Hext7|].
        apply emits_extends, emits_log_command.
      * apply last_log_append.
    + rewrite bool_decide_eq_false_2 in Hskip by congruence.
      rewrite (bind_Return _ _ _ _ _ Hskip), r2l_get_run. cbn [fst snd].
      split; [done|]. split; [by intros [_ ?]|].
      intros _. by apply (extends_then_transfer s0 s7 _ _ Hext7).
  - rewrite (bool_decide_eq_false_2 (Some prem = Some ploc)) in Hskip by congruence.
    rewrite andb_false_r in Hskip.
    rewrite (bind_Return _ _ _ _ _ Hskip), r2l_get_run. cbn [fst snd].
    split; [done|]. split; [intros [Heq _]; by destruct Hpart|].
    intros _. by apply (extends_then_transfer s0 s5 _ _ Hext5).
Qed.

(** C2.  A source file of more than 10 MB whose destination exists, with
    all four checksums (partial and full, both sides) available.  In both
    directions the copy returns; if the partial checksums are equal and the
    full checksums are equal, it makes no byte transfer and the last line
    of the log is the skip-identical line; if the partial or the full
    checksums differ, it makes exactly one byte transfer, of that file. *)
Theorem large_file_skipped_iff_checksums_match {Bytes} (E : Env Bytes) (depth : nat) :
  (forall (local_path remote_path : string) (s0 : state) (size : Z)
          (ploc prem floc frem : string),
     let local_sum full :=
       compute_local_checksum E local_path "md5" full PARTIAL_MB DEFAULT_CHUNK_SIZE in
     let remote_sum full := compute_remote_checksum E remote_path "md5" full PARTIAL_MB in
     let s1 := exec (os_path_isdir E local_path) s0 in
     let s2 := exec (os_path_getsize E local_path) s1 in
     let s3 := exec (remote_file_exists E remote_path) s2 in
     let s4 := exec (local_sum false) s3 in
     let s5 := exec (remote_sum false) s4 in
     let s6 := exec (local_sum true) s5 in
     let copy := smart_copy_local_to_remote E (S depth) local_path remote_path in
     eval (os_path_isdir E local_path) s0 = Return false ->
     eval (os_path_getsize E local_path) s1 = Return size ->
     size > 10 * 1024 * 1024 ->
     eval (remote_file_exists E remote_path) s2 = Return true ->
     eval (local_sum false) s3 = Return (Some ploc) ->
     eval (remote_sum false) s4 = Return (Some prem) ->
     eval (local_sum true) s5 = Return (Some floc) ->
     eval (remote_sum true) s6 = Return (Some frem) ->
     eval copy s0 = Return tt /\
     (ploc = prem /\ floc = frem ->
      transfers s0 (exec copy s0) = [] /\
      last (cmd_log (exec copy s0))
        = Some ("SKIP identical: " +:+ local_path +:+ " -> " +:+ remote_path)) /\
     (ploc <> prem \/ floc <> frem ->
      transfers s0 (exec copy s0) = [SftpPut local_path remote_path])) /\
  (forall (remote_path local_path : string) (s0 : state) (st_mode size : Z)
          (prem ploc frem floc : string),
     let local_sum full :=
       compute_local_checksum E local_path "md5" full PARTIAL_MB DEFAULT_CHUNK_SIZE in
     let remote_sum full := compute_remote_checksum E remote_path "md5" full PARTIAL_MB in
     let s1 := exec (sftp_stat E remote_path) s0 in
     let s2 := exec (os_path_exists E local_path) s1 in
     let s3 := exec (remote_file_size E remote_path) s2 in
     let s4 := exec (remote_sum false) s3 in
     let s5 := exec (local_sum false) s4 in
     let s6 := exec (remote_sum true) s5 in
     let copy := smart_copy_remote_to_local E (S depth) remote_path local_path in
     eval (sftp_stat E remote_path) s0 = Return st_mode ->
     mode_is_dir st_mode = false ->
     eval (os_path_exists E local_path) s1 = Return true ->
     eval (remote_file_size E remote_path) s2 = Return (Some size) ->
     size > 10 * 1024 * 1024 ->
     eval (remote_sum false) s3 = Return (Some prem) ->
     eval (local_sum false) s4 = Return (Some ploc) ->
     eval (remote_sum true) s5 = Return (Some frem) ->
     eval (local_sum true) s6 = Return (Some floc) ->
     eval copy s0 = Return tt /\
     (prem = ploc /\ frem = floc ->
      transfers s0 (exec copy s0) = [] /\
      last (cmd_log (exec copy s0))
        = Some ("SKIP identical: " +:+ remote_path +:+ " -> " +:+ local_path)) /\
     (prem <> ploc \/ frem <> floc ->
      transfers s0 (exec copy s0) = [SftpGet remote_path local_path])).
Proof.
  split.
  - intros. by eapply l2r_large_file.
  - intros. by eapply r2l_large_file.
Qed.

Lemma large_file_skipped_iff_checksums_match_witness :
  let put := smart_copy_local_to_remote (scripted big_twin_world) 1
               "/home/u/big.bin" "/srv/big.bin" in
  let get := smart_copy_remote_to_local (scripted big_twin_world) 1
               "/srv/big.bin" "/home/u/big.bin" in
  (eval put initial = Return tt /\
   transfers initial (exec put initial) = [] /\
   last (cmd_log (exec put initial))
     = Some "SKIP identical: /home/u/big.bin -> /srv/big.bin"%string) /\
  (eval get initial = Return tt /\
   transfers initial (exec get initial) = [] /\
   last (cmd_log (exec get initial))
     = Some "SKIP identical: /srv/big.bin -> /home/u/big.bin"%string).
Proof.
  destruct (large_file_skipped_iff_checksums_match (scripted big_twin_world) 0)
    as [Hput Hget].
  split.
  - destruct (Hput "/home/u/big.bin" "/srv/big.bin" initial 52428800
                "md5:head" "md5:head" "md5:headtail" "md5:headtail")%string
      as (Hret & Hskip & _); try (vm_compute; reflexivity).
    split; [exact Hret|]. apply Hskip. split; reflexivity.
  - destruct (Hget "/srv/big.bin" "/home/u/big.bin" initial REG_MODE 52428800
                "md5:head" "md5:head" "md5:headtail" "md5:headtail")%string
      as (Hret & Hskip & _); try (vm_compute; reflexivity).
    split; [exact Hret|]. apply Hskip. split; reflexivity.
Defined.

(** ** Small files *)

Lemma remote_file_exists_exec {Bytes} (E : Env Bytes) remote_path s :
  exec (remote_file_exists E remote_path) s =
  {| cmd_log := log_append ("[ -f '" +:+ remote_path +:+ "' ]") (cmd_log s);
     trace := trace s ++ [SshExecCommand ("[ -f '" +:+ remote_path +:+ "' ]")] |}.
Proof.
  unfold remote_file_exists, exec, bind, log_command, ssh_exec_command, external.
  simpl. by destruct (env_exec_command E (trace s) _).
Qed.

Lemma remote_file_size_run {Bytes} (E : Env Bytes) remote_path s :
  exists size_remote,
    remote_file_size E remote_path s =
    (Return size_remote,
     {| cmd_log := log_append ("stat -c %s '" +:+ remote_path +:+ "'") (cmd_log s);
        trace := trace s ++ [SshExecCommand ("stat -c %s '" +:+ remote_path +:+ "'")] |}).
Proof.
  unfold remote_file_size, bind, try_except, log_command, ssh_exec_command, external.
  simpl. destruct (env_exec_command E (trace s) _) as [r|e]; simpl.
  - destruct (_ && _); by eexists.
  - by eexists.
Qed.

Lemma l2r_small_file {Bytes} (E : Env Bytes) (depth : nat)
    (local_path remote_path : string) (s0 : state) (size : Z) (found : bool) :
  let s1 := exec (os_path_isdir E local_path) s0 in
  let s2 := exec (os_path_getsize E local_path) s1 in
  let copy := smart_copy_local_to_remote E (S depth) local_path remote_path in
  eval (os_path_isdir E local_path) s0 = Return false ->
  eval (os_path_getsize E local_path) s1 = Return size ->
  size <= 10 * 1024 * 1024 ->
  eval (remote_file_exists E remote_path) s2 = Return found ->
  eval copy s0 = Return tt /\
  calls_since s0 (exec copy s0) =
    [OsPathIsdir local_path; OsPathGetsize local_path;
     SshExecCommand ("[ -f '" +:+ remote_path +:+ "' ]");
     SftpPut local_path remote_path].
Proof.
  intros s1 s2 copy Hfile Hsize Hsmall Hfound.
  assert (l2r_skip_identical E local_path remote_path s1
          = (Return false, exec (remote_file_exists E remote_path) s2)) as Hskip.
  { unfold l2r_skip_identical.
    rewrite (bind_eval_Return _ _ _ _ Hsize), (bind_eval_Return _ _ _ _ Hfound).
    replace (size >? LARGE_FILE_MB * 1024 * 1024) with false
      by (symmetry; rewrite Z.gtb_ltb; apply Z.ltb_ge; unfold LARGE_FILE_MB; lia).
    by destruct found. }
  subst copy. unfold eval, exec.
  rewrite (smart_copy_local_file E depth _ _ _ Hfile). fold s1.
  rewrite (bind_Return _ _ _ _ _ Hskip), l2r_put_run. cbn [fst snd].
  split; [done|]. apply calls_since_app. cbn [trace].
  rewrite remote_file_exists_exec. cbn [trace].
  subst s2 s1. unfold exec, os_path_getsize, os_path_isdir, external. cbn [snd trace].
  by rewrite <- !app_assoc.
Qed.

Lemma r2l_small_file {Bytes} (E : Env Bytes) (depth : nat)
    (remote_path local_path : string) (s0 : state) (st_mode : Z) (found : bool) :
  let s1 := exec (sftp_stat E remote_path) s0 in
  let s2 := exec (os_path_exists E local_path) s1 in
  let copy := smart_copy_remote_to_local E (S depth) remote_path local_path in
  eval (sftp_stat E remote_path) s0 = Return st_mode ->
  mode_is_dir st_mode = false ->
  eval (os_path_exists E local_path) s1 = Return found ->
  (found = true ->
   forall size, eval (remote_file_size E remote_path) s2 = Return (Some size) ->
                size <= 10 * 1024 * 1024) ->
  eval copy s0 = Return tt /\
  calls_since s0 (exec copy s0) =
    [SftpStat remote_path; OsPathExists local_path]
    ++ (if found then [SshExecCommand ("stat -c %s '" +:+ remote_path +:+ "'")] else [])
    ++ [SftpGet remote_path local_path].
Proof.
  intros s1 s2 copy Hstat Hfile Hfound Hsmall.
  subst copy. unfold eval, exec.
  rewrite (smart_copy_remote_file E depth _ _ _ _ Hstat Hfile). fold s1.
  unfold r2l_skip_identical.
  rewrite bind_assoc_run, (bind_eval_Return _ _ _ _ Hfound). fold s2.
  destruct found.
  - destruct (remote_file_size_run E remote_path s2) as (size_remote & Hrun).
    rewrite bind_assoc_run, (bind_Return _ _ _ _ _ Hrun).
    assert (match size_remote with
            | Some size => negb (size =? 0) && (size >? LARGE_FILE_MB * 1024 * 1024)
            | None => false
            end = false) as Hnot_large.
    { destruct size_remote as [size|]; [|done].
      assert (size <= 10 * 1024 * 1024) as Hle
        by (apply Hsmall; [done|]; unfold eval; by rewrite Hrun).
      replace (size >? LARGE_FILE_MB * 1024 * 1024) with false
        by (symmetry; rewrite Z.gtb_ltb; apply Z.ltb_ge; unfold LARGE_FILE_MB; lia).
      apply andb_false_r. }
    destruct size_remote as [size|]; [rewrite Hnot_large|];
      unfold bind, ret; rewrite r2l_get_run; cbn [fst snd];
      (split; [done|]); apply calls_since_app; cbn [trace];
      subst s2 s1; unfold exec, os_path_exists, sftp_stat, external; cbn [snd trace];
      by rewrite <- !app_assoc.
  - unfold bind, ret. rewrite r2l_get_run. cbn [fst snd].
    split; [done|]. apply calls_since_app. cbn [trace].
    subst s2 s1. unfold exec, os_path_exists, sftp_stat, external. cbn [snd trace].
    by rewrite <- !app_assoc.
Qed.

Lemma exists_test_not_digest (remote_path : string) :
  is_digest_call (SshExecCommand ("[ -f '" +:+ remote_path +:+ "' ]")) = false.
Proof. vm_compute. reflexivity. Qed.

Lemma stat_not_digest (remote_path : string) :
  is_digest_call (SshExecCommand ("stat -c %s '" +:+ remote_path +:+ "'")) = false.
Proof. vm_compute. reflexivity. Qed.

Lemma filter_digest_skip (c : call) (l : list call) :
  is_digest_call c = false ->
  List.filter is_digest_call (c :: l) = List.filter is_digest_call l.
Proof. intros H. cbn [List.filter]. by rewrite H. Qed.

Ltac no_digest_calls :=
  repeat (rewrite filter_digest_skip
            by first [reflexivity | apply exists_test_not_digest | apply stat_not_digest]);
  reflexivity.

(** C3.  A source file of at most 10 MB is transferred whatever the
    destination is.  Local to remote: whether the remote file exists or not,
    the copy returns after exactly the calls listed, the last of which is
    the transfer.  Remote to local: whether the local path exists or not
    (and, if it does, when the size reported for the remote file is at most
    10 MB or is not reported), likewise.  In neither direction is a file
    opened or a digest command run. *)
Theorem small_file_always_transferred {Bytes} (E : Env Bytes) (depth : nat) :
  (forall (local_path remote_path : string) (s0 : state) (size : Z) (found : bool),
     let s1 := exec (os_path_isdir E local_path) s0 in
     let s2 := exec (os_path_getsize E local_path) s1 in
     let copy := smart_copy_local_to_remote E (S depth) local_path remote_path in
     eval (os_path_isdir E local_path) s0 = Return false ->
     eval (os_path_getsize E local_path) s1 = Return size ->
     size <= 10 * 1024 * 1024 ->
     eval (remote_file_exists E remote_path) s2 = Return found ->
     eval copy s0 = Return tt /\
     calls_since s0 (exec copy s0) =
       [OsPathIsdir local_path; OsPathGetsize local_path;
        SshExecCommand ("[ -f '" +:+ remote_path +:+ "' ]");
        SftpPut local_path remote_path] /\
     transfers s0 (exec copy s0) = [SftpPut local_path remote_path] /\
     List.filter is_digest_call (calls_since s0 (exec copy s0)) = []) /\
  (forall (remote_path local_path : string) (s0 : state) (st_mode : Z) (found : bool),
     let s1 := exec (sftp_stat E remote_path) s0 in
     let s2 := exec (os_path_exists E local_path) s1 in
     let copy := smart_copy_remote_to_local E (S depth) remote_path local_path in
     eval (sftp_stat E remote_path) s0 = Return st_mode ->
     mode_is_dir st_mode = false ->
     eval (os_path_exists E local_path) s1 = Return found ->
     (found = true ->
      forall size, eval (remote_file_size E remote_path) s2 = Return (Some size) ->
                   size <= 10 * 1024 * 1024) ->
     eval copy s0 = Return tt /\
     calls_since s0 (exec copy s0) =
       [SftpStat remote_path; OsPathExists local_path]
       ++ (if found then [SshExecCommand ("stat -c %s '" +:+ remote_path +:+ "'")]
           else [])
       ++ [SftpGet remote_path local_path] /\
     transfers s0 (exec copy s0) = [SftpGet remote_path local_path] /\
     List.filter is_digest_call (calls_since s0 (exec copy s0)) = []).
Proof.
  split.
  - intros local_path remote_path s0 size found s1 s2 copy Hfile Hsize Hsmall Hfound.
    destruct (l2r_small_file E depth local_path remote_path s0 size found
                Hfile Hsize Hsmall Hfound) as [Hret Hcalls].
    fold copy in Hret, Hcalls. unfold transfers. rewrite Hcalls.
    split; [done|]. split; [done|]. split; [reflexivity|no_digest_calls].
  - intros remote_path local_path s0 st_mode found s1 s2 copy Hstat Hfile Hfound Hsmall.
    destruct (r2l_small_file E depth remote_path local_path s0 st_mode found
                Hstat Hfile Hfound Hsmall) as [Hret Hcalls].
    fold copy in Hret, Hcalls. unfold transfers. rewrite Hcalls.
    split; [done|]. split; [done|]. split; [by destruct found|].
    destruct found; cbn [app]; no_digest_calls.
Qed.

Lemma small_file_always_transferred_witness :
  let put := smart_copy_local_to_remote (scripted small_twin_world) 1
               "/home/u/notes.txt" "/srv/notes.txt" in
  let get := smart_copy_remote_to_local (scripted small_twin_world) 1
               "/srv/notes.txt" "/home/u/notes.txt" in
  (eval put initial = Return tt /\
   calls_since initial (exec put initial) =
     [OsPathIsdir "/home/u/notes.txt"; OsPathGetsize "/home/u/notes.txt";
      SshExecCommand "[ -f '/srv/notes.txt' ]";
      SftpPut "/home/u/notes.txt" "/srv/notes.txt"]) /\
  (eval get initial = Return tt /\
   calls_since initial (exec get initial) =
     [SftpStat "/srv/notes.txt"; OsPathExists "/home/u/notes.txt";
      SshExecCommand "stat -c %s '/srv/notes.txt'";
      SftpGet "/srv/notes.txt" "/home/u/notes.txt"]).
Proof.
  destruct (small_file_always_transferred (scripted small_twin_world) 0)
    as [Hput Hget].
  split.
  - destruct (Hput "/home/u/notes.txt" "/srv/notes.txt" initial 2048 true)%string
      as (Hret & Hcalls & _).
    + vm_compute. reflexivity.
    + vm_compute. reflexivity.
    + vm_compute. discriminate.
    + vm_compute. reflexivity.
    + split; [exact Hret|exact Hcalls].
  - destruct (Hget "/srv/notes.txt" "/home/u/notes.txt" initial REG_MODE true)%string
      as (Hret & Hcalls & _).
    + vm_compute. reflexivity.
    + vm_compute. reflexivity.
    + vm_compute. reflexivity.
    + intros _ size Hsize. vm_compute in Hsize. injection Hsize as <-. lia.
    + split; [exact Hret|exact Hcalls].
Defined.

(** ** Full checksums that are both unavailable *)

(** C1 (the code departs from it).  In [flaky_share_world] the source is
    larger than 10 MB, the destination exists and the partial checksums are
    equal; then neither full checksum can be computed: both calls return
    [None].  The copy compares [None == None], logs the file as identical and
    returns without a transfer, in both directions. *)
Theorem unavailable_full_checksums_skip_the_file :
  let E := scripted flaky_share_world in
  let local_sum full :=
    compute_local_checksum E "/mnt/share/big.bin" "md5" full PARTIAL_MB DEFAULT_CHUNK_SIZE in
  let remote_sum full :=
    compute_remote_checksum E "/srv/backup/big.bin" "md5" full PARTIAL_MB in
  let put := smart_copy_local_to_remote E 1 "/mnt/share/big.bin" "/srv/backup/big.bin" in
  let get := smart_copy_remote_to_local E 1 "/srv/backup/big.bin" "/mnt/share/big.bin" in
  let s3 := exec (remote_file_exists E "/srv/backup/big.bin")
              (exec (os_path_getsize E "/mnt/share/big.bin")
                 (exec (os_path_isdir E "/mnt/share/big.bin") initial)) in
  let s4 := exec (local_sum false) s3 in
  let s5 := exec (remote_sum false) s4 in
  let s6 := exec (local_sum true) s5 in
  (eval (local_sum false) s3 = Return (Some "md5:head"%string) /\
   eval (remote_sum false) s4 = Return (Some "md5:head"%string) /\
   eval (local_sum true) s5 = Return None /\
   eval (remote_sum true) s6 = Return None) /\
  (eval put initial = Return tt /\
   transfers initial (exec put initial) = [] /\
   last (cmd_log (exec put initial))
     = Some "SKIP identical: /mnt/share/big.bin -> /srv/backup/big.bin"%string) /\
  (eval get initial = Return tt /\
   transfers initial (exec get initial) = [] /\
   last (cmd_log (exec get initial))
     = Some "SKIP identical: /srv/backup/big.bin -> /mnt/share/big.bin"%string).
Proof. vm_compute. repeat split; reflexivity. Qed.

(** Without the outage the same two files are told apart by their full
    checksums, and the file is transferred. *)
Example available_full_checksums_transfer_the_file :
  let put := smart_copy_local_to_remote (scripted steady_share_world) 1
               "/mnt/share/big.bin" "/srv/backup/big.bin" in
  transfers initial (exec put initial)
    = [SftpPut "/mnt/share/big.bin" "/srv/backup/big.bin"].
Proof. vm_compute. reflexivity. Qed.

(** ** A failed transfer inside a recursive copy *)

Section Walk.

Context {Bytes : Type} (E : Env Bytes).

Lemma smart_copy_local_dir depth local_path remote_path s :
  eval (os_path_isdir E local_path) s = Return true ->
  smart_copy_local_to_remote E (S depth) local_path remote_path s =
  (try_except (sftp_mkdir E remote_path) is_OSError (fun _ => ret tt) ;;
   let* entries := os_scandir E local_path in
   for_each entries (fun entry =>
     smart_copy_local_to_remote E depth
       (os_path_join local_path entry.1) (remote_child remote_path entry.1)))
    (exec (os_path_isdir E local_path) s).
Proof.
  intros H.
  change (smart_copy_local_to_remote E (S depth) local_path remote_path)
    with
    (let* is_dir := os_path_isdir E local_path in
     if is_dir then
       try_except (sftp_mkdir E remote_path) is_OSError (fun _ => ret tt) ;;
       let* entries := os_scandir E local_path in
       for_each entries (fun entry =>
         smart_copy_local_to_remote E depth
           (os_path_join local_path entry.1) (remote_child remote_path entry.1))
     else
       let* skipped := l2r_skip_identical E local_path remote_path in
       if skipped then ret tt else l2r_put E local_path remote_path).
  by rewrite (bind_eval_Return _ _ _ _ H).
Qed.

Lemma smart_copy_remote_dir depth remote_path local_path s st_mode :
  eval (sftp_stat E remote_path) s = Return st_mode ->
  mode_is_dir st_mode = true ->
  smart_copy_remote_to_local E (S depth) remote_path local_path s =
  ((let* present := os_path_exists E local_path in
    if negb present then
      try_except (os_mkdir E local_path) is_OSError (fun _ => ret tt)
    else ret tt) ;;
   try_except
     (let* entries := sftp_listdir_attr E remote_path in
      for_each entries (fun e =>
        smart_copy_remote_to_local E depth
          (remote_child remote_path e.1) (os_path_join local_path e.1)))
     is_OSError (fun _ => ret tt))
    (exec (sftp_stat E remote_path) s).
Proof.
  intros H Hdir.
  change (smart_copy_remote_to_local E (S depth) remote_path local_path)
    with
    (let* attr :=
       try_except (let* st_mode := sftp_stat E remote_path in ret (Some st_mode))
         is_OSError (fun _ => ret None) in
     match attr with
     | None => ret tt
     | Some st_mode =>
         if mode_is_dir st_mode then
           (let* present := os_path_exists E local_path in
            if negb present then
              try_except (os_mkdir E local_path) is_OSError (fun _ => ret tt)
            else ret tt) ;;
           try_except
             (let* entries := sftp_listdir_attr E remote_path in
              for_each entries (fun e =>
                smart_copy_remote_to_local E depth
                  (remote_child remote_path e.1) (os_path_join local_path e.1)))
             is_OSError (fun _ => ret tt)
         else
           let* skipped := r2l_skip_identical E remote_path local_path in
           if skipped then ret tt else r2l_get E remote_path local_path
     end).
  rewrite (bind_Return _ _ _ _ _ (sftp_stat_guard_run E _ _ _ H)).
  by rewrite Hdir.
Qed.

Lemma for_each_resume {A} (before after : list A) (x : A) (body : A -> M unit) s :
  eval (for_each before body) s = Return tt ->
  eval (body x) (exec (for_each before body) s) = Return tt ->
  for_each (before ++ x :: after) body s =
  for_each after body (exec (body x) (exec (for_each before body) s)).
Proof.
  intros Hbefore Hx. rewrite (for_each_app _ _ _ _ Hbefore).
  change (for_each (x :: after) body)
    with (bind (body x) (fun _ => for_each after body)).
  by rewrite (bind_eval_Return _ _ _ _ Hx).
Qed.

Lemma try_except_bind_Return {A B} (m : M A) (k : A -> M B) classes handler s a :
  eval m s = Return a ->
  try_except (bind m k) classes handler s = try_except (k a) classes handler (exec m s).
Proof.
  intros H. unfold try_except. by rewrite (bind_eval_Return _ _ _ _ H).
Qed.

End Walk.

(** ** The walk does not depend on the outcome of the transfers *)

Lemma agree_ret {A} (a : A) : agree (ret a) (ret a).
Proof. by intros s s' Htrace. Qed.

Lemma agree_raise {A} (e : exn) : agree (raise (A := A) e) (raise e).
Proof. by intros s s' Htrace. Qed.

Lemma agree_log_command cmd cmd' : agree (log_command cmd) (log_command cmd').
Proof. by intros s s' Htrace. Qed.

Lemma agree_external {A} c (answer : list call -> outcome A) :
  agree (external c answer) (external c answer).
Proof.
  intros s s' Htrace. unfold eval, exec, external. simpl. by rewrite Htrace.
Qed.

Lemma agree_bind {A B} (m m' : M A) (k k' : A -> M B) :
  agree m m' -> (forall a, agree (k a) (k' a)) -> agree (bind m k) (bind m' k').
Proof.
  intros Hm Hk s s' Htrace. destruct (Hm s s' Htrace) as [Heval Hexec].
  unfold eval, exec, bind in *.
  destruct (m s) as [[a|e] s1], (m' s') as [[a'|e'] s1']; simpl in *;
    try discriminate; simplify_eq; [|done].
  by apply Hk.
Qed.

Lemma agree_try_except {A} (body body' : M A) classes (handler handler' : exn -> M A) :
  agree body body' -> (forall e, agree (handler e) (handler' e)) ->
  agree (try_except body classes handler) (try_except body' classes handler').
Proof.
  intros Hb Hh s s' Htrace. destruct (Hb s s' Htrace) as [Heval Hexec].
  unfold eval, exec, try_except in *.
  destruct (body s) as [[a|e] s1], (body' s') as [[a'|e'] s1']; simpl in *;
    try discriminate; simplify_eq; [done|].
  destruct (classes e'); [|done]. by apply Hh.
Qed.

Lemma agree_for_each {A} (l : list A) (body body' : A -> M unit) :
  (forall x, agree (body x) (body' x)) -> agree (for_each l body) (for_each l body').
Proof.
  intros Hbody. induction l as [|x l IH]; simpl.
  - apply agree_ret.
  - apply agree_bind; [apply Hbody|]. intros _. apply IH.
Qed.

Ltac agree_step :=
  lazymatch goal with
  | |- agree (ret _) (ret _) => apply agree_ret
  | |- agree (raise _) (raise _) => apply agree_raise
  | |- agree (log_command _) (log_command _) => apply agree_log_command
  | |- agree (external _ _) (external _ _) => apply agree_external
  | |- agree (bind _ _) (bind _ _) => apply agree_bind; [|intros ?]
  | |- agree (try_except _ _ _) (try_except _ _ _) => apply agree_try_except; [|intros ?]
  | |- agree (for_each _ _) (for_each _ _) => apply agree_for_each; intros ?
  | |- agree (if ?b then _ else _) (if ?b then _ else _) => destruct b
  | |- agree (match ?x with _ => _ end) (match ?x with _ => _ end) => destruct x
  end.

Section Agree.

Context {Bytes : Type} (E : Env Bytes).

Lemma agree_compute_local_checksum path algo full partial_mb chunk_size :
  agree (compute_local_checksum E path algo full partial_mb chunk_size)
        (compute_local_checksum E path algo full partial_mb chunk_size).
Proof.
  unfold compute_local_checksum, os_path_isfile, hashlib_new, open_rb.
  repeat agree_step.
Qed.

Lemma agree_remote_file_exists path :
  agree (remote_file_exists E path) (remote_file_exists E path).
Proof.
  unfold remote_file_exists, ssh_exec_command. cbv zeta. repeat agree_step.
Qed.

Lemma agree_compute_remote_checksum path algo full partial_mb :
  agree (compute_remote_checksum E path algo full partial_mb)
        (compute_remote_checksum E path algo full partial_mb).
Proof.
  unfold compute_remote_checksum, ssh_exec_command.
  apply agree_bind; [apply agree_remote_file_exists|]. intros found.
  cbv zeta. repeat agree_step.
Qed.

Lemma agree_remote_file_size path :
  agree (remote_file_size E path) (remote_file_size E path).
Proof.
  unfold remote_file_size, ssh_exec_command. cbv zeta. repeat agree_step.
Qed.

Lemma agree_l2r_skip_identical local_path remote_path :
  agree (l2r_skip_identical E local_path remote_path)
        (l2r_skip_identical E local_path remote_path).
Proof.
  unfold l2r_skip_identical, os_path_getsize.
  apply agree_bind; [apply agree_external|]. intros size.
  apply agree_bind; [apply agree_remote_file_exists|]. intros found.
  destruct found; [|apply agree_ret].
  destruct (size >? _); [|apply agree_ret].
  apply agree_bind; [apply agree_compute_local_checksum|]. intros c1.
  apply agree_bind; [apply agree_compute_remote_checksum|]. intros c2.
  destruct (_ && _); [|apply agree_ret].
  apply agree_bind; [apply agree_compute_local_checksum|]. intros c3.
  apply agree_bind; [apply agree_compute_remote_checksum|]. intros c4.
  repeat agree_step.
Qed.

Lemma agree_r2l_skip_identical remote_path local_path :
  agree (r2l_skip_identical E remote_path local_path)
        (r2l_skip_identical E remote_path local_path).
Proof.
  unfold r2l_skip_identical, os_path_exists.
  apply agree_bind; [apply agree_external|]. intros found.
  destruct found; [|apply agree_ret].
  apply agree_bind; [apply agree_remote_file_size|]. intros [size|];
    [|apply agree_ret].
  destruct (_ && _); [|apply agree_ret].
  apply agree_bind; [apply agree_compute_remote_checksum|]. intros c1.
  apply agree_bind; [apply agree_compute_local_checksum|]. intros c2.
  destruct (_ && _); [|apply agree_ret].
  apply agree_bind; [apply agree_compute_remote_checksum|]. intros c3.
  apply agree_bind; [apply agree_compute_local_checksum|]. intros c4.
  repeat agree_step.
Qed.

Context (put get : list call -> string -> string -> outcome unit).

Lemma agree_l2r_put local_path remote_path :
  agree (l2r_put E local_path remote_path)
        (l2r_put (with_transfers E put get) local_path remote_path).
Proof.
  intros s s' Htrace. unfold eval, exec. rewrite !l2r_put_run. simpl.
  by rewrite Htrace.
Qed.

Lemma agree_r2l_get remote_path local_path :
  agree (r2l_get E remote_path local_path)
        (r2l_get (with_transfers E put get) remote_path local_path).
Proof.
  intros s s' Htrace. unfold eval, exec. rewrite !r2l_get_run. simpl.
  by rewrite Htrace.
Qed.

Lemma agree_smart_copy_local_to_remote depth local_path remote_path :
  agree (smart_copy_local_to_remote E depth local_path remote_path)
        (smart_copy_local_to_remote (with_transfers E put get) depth
           local_path remote_path).
Proof.
  revert local_path remote_path.
  induction depth as [|depth IH]; intros local_path remote_path.
  - apply agree_raise.
  - change (agree
      (let* is_dir := os_path_isdir E local_path in
       if is_dir then
         try_except (sftp_mkdir E remote_path) is_OSError (fun _ => ret tt) ;;
         let* entries := os_scandir E local_path in
         for_each entries (fun entry =>
           smart_copy_local_to_remote E depth
             (os_path_join local_path entry.1) (remote_child remote_path entry.1))
       else
         let* skipped := l2r_skip_identical E local_path remote_path in
         if skipped then ret tt else l2r_put E local_path remote_path)
      (let* is_dir := os_path_isdir E local_path in
       if is_dir then
         try_except (sftp_mkdir E remote_path) is_OSError (fun _ => ret tt) ;;
         let* entries := os_scandir E local_path in
         for_each entries (fun entry =>
           smart_copy_local_to_remote (with_transfers E put get) depth
             (os_path_join local_path entry.1) (remote_child remote_path entry.1))
       else
         let* skipped := l2r_skip_identical E local_path remote_path in
         if skipped then ret tt
         else l2r_put (with_transfers E put get) local_path remote_path)).
    apply agree_bind; [apply agree_external|]. intros is_dir.
    destruct is_dir.
    + apply agree_bind;
        [apply agree_try_except; [apply agree_external|intros; apply agree_ret]|].
      intros _. apply agree_bind; [apply agree_external|]. intros entries.
      apply agree_for_each. intros entry. apply IH.
    + apply agree_bind; [apply agree_l2r_skip_identical|]. intros skipped.
      destruct skipped; [apply agree_ret|apply agree_l2r_put].
Qed.

Lemma agree_smart_copy_remote_to_local depth remote_path local_path :
  agree (smart_copy_remote_to_local E depth remote_path local_path)
        (smart_copy_remote_to_local (with_transfers E put get) depth
           remote_path local_path).
Proof.
  revert remote_path local_path.
  induction depth as [|depth IH]; intros remote_path local_path.
  - apply agree_raise.
  - change (agree
      (let* attr :=
         try_except (let* st_mode := sftp_stat E remote_path in ret (Some st_mode))
           is_OSError (fun _ => ret None) in
       match attr with
       | None => ret tt
       | Some st_mode =>
           if mode_is_dir st_mode then
             (let* present := os_path_exists E local_path in
              if negb present then
                try_except (os_mkdir E local_path) is_OSError (fun _ => ret tt)
              else ret tt) ;;
             try_except
               (let* entries := sftp_listdir_attr E remote_path in
                for_each entries (fun e =>
                  smart_copy_remote_to_local E depth
                    (remote_child remote_path e.1) (os_path_join local_path e.1)))
               is_OSError (fun _ => ret tt)
           else
             let* skipped := r2l_skip_identical E remote_path local_path in
             if skipped then ret tt else r2l_get E remote_path local_path
       end)
      (let* attr :=
         try_except (let* st_mode := sftp_stat E remote_path in ret (Some st_mode))
           is_OSError (fun _ => ret None) in
       match attr with
       | None => ret tt
       | Some st_mode =>
           if mode_is_dir st_mode then
             (let* present := os_path_exists E local_path in
              if negb present then
                try_except (os_mkdir E local_path) is_OSError (fun _ => ret tt)
              else ret tt) ;;
             try_except
               (let* entries := sftp_listdir_attr E remote_path in
                for_each entries (fun e =>
                  smart_copy_remote_to_local (with_transfers E put get) depth
                    (remote_child remote_path e.1) (os_path_join local_path e.1)))
               is_OSError (fun _ => ret tt)
           else
             let* skipped := r2l_skip_identical E remote_path local_path in
             if skipped then ret tt
             else r2l_get (with_transfers E put get) remote_path local_path
       end)).
    apply agree_bind.
    { apply agree_try_except; [|intros; apply agree_ret].
      apply agree_bind; [apply agree_external|]. intros; apply agree_ret. }
    intros [st_mode|]; [|apply agree_ret].
    destruct (mode_is_dir st_mode).
    + apply agree_bind.
      { apply agree_bind; [apply agree_external|]. intros present.
        destruct (negb present); [|apply agree_ret].
        apply agree_try_except; [apply agree_external|intros; apply agree_ret]. }
      intros _. apply agree_try_except; [|intros; apply agree_ret].
      apply agree_bind; [apply agree_external|]. intros entries.
      apply agree_for_each. intros entry. apply IH.
    + apply agree_bind; [apply agree_r2l_skip_identical|]. intros skipped.
      destruct skipped; [apply agree_ret|apply agree_r2l_get].
Qed.

End Agree.

Lemma l2r_transfer_failure {Bytes} (E : Env Bytes) (depth : nat)
    (local_path remote_path : string) (s0 : state)
    (before after : list (string * bool)) (entry : string * bool) (e : exn) :
  let child := fun x : string * bool =>
    smart_copy_local_to_remote E (S depth)
      (os_path_join local_path x.1) (remote_child remote_path x.1) in
  let src := os_path_join local_path entry.1 in
  let dst := remote_child remote_path entry.1 in
  let s1 := exec (os_path_isdir E local_path) s0 in
  let s2 := exec (try_except (sftp_mkdir E remote_path) is_OSError (fun _ => ret tt)) s1 in
  let s3 := exec (os_scandir E local_path) s2 in
  let s4 := exec (for_each before child) s3 in
  let s5 := exec (os_path_isdir E src) s4 in
  let s6 := exec (l2r_skip_identical E src dst) s5 in
  eval (os_path_isdir E local_path) s0 = Return true ->
  eval (try_except (sftp_mkdir E remote_path) is_OSError (fun _ => ret tt)) s1
    = Return tt ->
  eval (os_scandir E local_path) s2 = Return (before ++ entry :: after) ->
  eval (for_each before child) s3 = Return tt ->
  eval (os_path_isdir E src) s4 = Return false ->
  eval (l2r_skip_identical E src dst) s5 = Return false ->
  env_sftp_put E (trace s6) src dst = Raise e ->
  eval (child entry) s4 = Return tt /\
  last (cmd_log (exec (child entry) s4)) = Some ("Fehler: " +:+ exn_str e) /\
  smart_copy_local_to_remote E (S (S depth)) local_path remote_path s0
    = for_each after child (exec (child entry) s4).
Proof.
  intros child src dst s1 s2 s3 s4 s5 s6 Hdir Hmkdir Hscan Hbefore Hfile Hskip Hput.
  assert (child entry s4 =
          (Return tt,
           {| cmd_log := log_append ("Fehler: " +:+ exn_str e)
                           (log_append ("PUT " +:+ src +:+ " -> " +:+ dst) (cmd_log s6));
              trace := trace s6 ++ [SftpPut src dst] |})) as Hchild.
  { unfold child. fold src dst.
    rewrite (smart_copy_local_file E depth _ _ _ Hfile). fold s5.
    rewrite (bind_eval_Return _ _ _ _ Hskip). fold s6.
    rewrite l2r_put_run. cbv zeta. by rewrite Hput. }
  assert (eval (child entry) s4 = Return tt) as Hret
    by (unfold eval; by rewrite Hchild).
  split; [done|]. split.
  - unfold exec. rewrite Hchild. apply last_log_append.
  - rewrite (smart_copy_local_dir E (S depth) _ _ _ Hdir). fold s1.
    rewrite (bind_eval_Return _ _ _ _ Hmkdir). fold s2.
    rewrite (bind_eval_Return _ _ _ _ Hscan). fold s3.
    fold child. by apply for_each_resume.
Qed.

Lemma r2l_transfer_failure {Bytes} (E : Env Bytes) (depth : nat)
    (remote_path local_path : string) (s0 : state) (dir_mode file_mode : Z)
    (before after : list (string * Z)) (entry : string * Z) (e : exn) :
  let child := fun x : string * Z =>
    smart_copy_remote_to_local E (S depth)
      (remote_child remote_path x.1) (os_path_join local_path x.1) in
  let make_local_dir :=
    (let* present := os_path_exists E local_path in
     if negb present then try_except (os_mkdir E local_path) is_OSError (fun _ => ret tt)
     else ret tt) in
  let src := remote_child remote_path entry.1 in
  let dst := os_path_join local_path entry.1 in
  let s1 := exec (sftp_stat E remote_path) s0 in
  let s2 := exec make_local_dir s1 in
  let s3 := exec (sftp_listdir_attr E remote_path) s2 in
  let s4 := exec (for_each before child) s3 in
  let s5 := exec (sftp_stat E src) s4 in
  let s6 := exec (r2l_skip_identical E src dst) s5 in
  eval (sftp_stat E remote_path) s0 = Return dir_mode ->
  mode_is_dir dir_mode = true ->
  eval make_local_dir s1 = Return tt ->
  eval (sftp_listdir_attr E remote_path) s2 = Return (before ++ entry :: after) ->
  eval (for_each before child) s3 = Return tt ->
  eval (sftp_stat E src) s4 = Return file_mode ->
  mode_is_dir file_mode = false ->
  eval (r2l_skip_identical E src dst) s5 = Return false ->
  env_sftp_get E (trace s6) src dst = Raise e ->
  eval (child entry) s4 = Return tt /\
  last (cmd_log (exec (child entry) s4)) = Some ("Fehler: " +:+ exn_str e) /\
  smart_copy_remote_to_local E (S (S depth)) remote_path local_path s0
    = try_except (for_each after child) is_OSError (fun _ => ret tt)
        (exec (child entry) s4).
Proof.
  intros child make_local_dir src dst s1 s2 s3 s4 s5 s6
    Hstat Hdir Hmk Hlist Hbefore Hcstat Hfile Hskip Hget.
  assert (child entry s4 =
          (Return tt,
           {| cmd_log := log_append ("Fehler: " +:+ exn_str e)
                           (log_append ("GET " +:+ src +:+ " -> " +:+ dst) (cmd_log s6));
              trace := trace s6 ++ [SftpGet src dst] |})) as Hchild.
  { unfold child. fold src dst.
    rewrite (smart_copy_remote_file E depth _ _ _ _ Hcstat Hfile). fold s5.
    rewrite (bind_eval_Return _ _ _ _ Hskip). fold s6.
    rewrite r2l_get_run. cbv zeta. by rewrite Hget. }
  assert (eval (child entry) s4 = Return tt) as Hret
    by (unfold eval; by rewrite Hchild).
  split; [done|]. split.
  - unfold exec. rewrite Hchild. apply last_log_append.
  - rewrite (smart_copy_remote_dir E (S depth) _ _ _ _ Hstat Hdir). fold s1.
    fold make_local_dir. rewrite (bind_eval_Return _ _ _ _ Hmk). fold s2.
    rewrite (try_except_bind_Return _ _ _ _ _ _ Hlist). fold s3. fold child.
    unfold try_except. by rewrite (for_each_resume _ _ _ _ _ Hbefore Hret).
Qed.

(** C5.  During the copy of a directory, let the entries listed before
    [entry] have been copied, let [entry] be a file that is not skipped, and
    let its byte transfer raise [e].  Then the copy of that one file returns
    normally, the last log line is the error line for [e], and the copy of
    the directory carries on with the entries listed after it (for the remote
    to local direction inside the [try] that surrounds the loop).  More
    generally, over a whole tree: replace the answers of the transfers by any
    others (raise where they returned, return where they raised); the copy
    then makes the same external calls in the same order and ends the same
    way.  So no entry is left out because a transfer failed. *)
Theorem transfer_failure_does_not_abort_walk {Bytes} (E : Env Bytes) (depth : nat) :
  (forall (local_path remote_path : string) (s0 : state)
          (before after : list (string * bool)) (entry : string * bool) (e : exn),
     let child := fun x : string * bool =>
       smart_copy_local_to_remote E (S depth)
         (os_path_join local_path x.1) (remote_child remote_path x.1) in
     let src := os_path_join local_path entry.1 in
     let dst := remote_child remote_path entry.1 in
     let s1 := exec (os_path_isdir E local_path) s0 in
     let s2 :=
       exec (try_except (sftp_mkdir E remote_path) is_OSError (fun _ => ret tt)) s1 in
     let s3 := exec (os_scandir E local_path) s2 in
     let s4 := exec (for_each before child) s3 in
     let s5 := exec (os_path_isdir E src) s4 in
     let s6 := exec (l2r_skip_identical E src dst) s5 in
     eval (os_path_isdir E local_path) s0 = Return true ->
     eval (try_except (sftp_mkdir E remote_path) is_OSError (fun _ => ret tt)) s1
       = Return tt ->
     eval (os_scandir E local_path) s2 = Return (before ++ entry :: after) ->
     eval (for_each before child) s3 = Return tt ->
     eval (os_path_isdir E src) s4 = Return false ->
     eval (l2r_skip_identical E src dst) s5 = Return false ->
     env_sftp_put E (trace s6) src dst = Raise e ->
     eval (child entry) s4 = Return tt /\
     last (cmd_log (exec (child entry) s4)) = Some ("Fehler: " +:+ exn_str e) /\
     smart_copy_local_to_remote E (S (S depth)) local_path remote_path s0
       = for_each after child (exec (child entry) s4)) /\
  (forall (remote_path local_path : string) (s0 : state) (dir_mode file_mode : Z)
          (before after : list (string * Z)) (entry : string * Z) (e : exn),
     let child := fun x : string * Z =>
       smart_copy_remote_to_local E (S depth)
         (remote_child remote_path x.1) (os_path_join local_path x.1) in
     let make_local_dir :=
       (let* present := os_path_exists E local_path in
        if negb present
        then try_except (os_mkdir E local_path) is_OSError (fun _ => ret tt)
        else ret tt) in
     let src := remote_child remote_path entry.1 in
     let dst := os_path_join local_path entry.1 in
     let s1 := exec (sftp_stat E remote_path) s0 in
     let s2 := exec make_local_dir s1 in
     let s3 := exec (sftp_listdir_attr E remote_path) s2 in
     let s4 := exec (for_each before child) s3 in
     let s5 := exec (sftp_stat E src) s4 in
     let s6 := exec (r2l_skip_identical E src dst) s5 in
     eval (sftp_stat E remote_path) s0 = Return dir_mode ->
     mode_is_dir dir_mode = true ->
     eval make_local_dir s1 = Return tt ->
     eval (sftp_listdir_attr E remote_path) s2 = Return (before ++ entry :: after) ->
     eval (for_each before child) s3 = Return tt ->
     eval (sftp_stat E src) s4 = Return file_mode ->
     mode_is_dir file_mode = false ->
     eval (r2l_skip_identical E src dst) s5 = Return false ->
     env_sftp_get E (trace s6) src dst = Raise e ->
     eval (child entry) s4 = Return tt /\
     last (cmd_log (exec (child entry) s4)) = Some ("Fehler: " +:+ exn_str e) /\
     smart_copy_remote_to_local E (S (S depth)) remote_path local_path s0
       = try_except (for_each after child) is_OSError (fun _ => ret tt)
           (exec (child entry) s4)) /\
  (forall (put get : list call -> string -> string -> outcome unit)
          (local_path remote_path : string) (s : state),
     let copy := smart_copy_local_to_remote E depth local_path remote_path in
     let copy' :=
       smart_copy_local_to_remote (with_transfers E put get) depth
         local_path remote_path in
     eval copy s = eval copy' s /\ trace (exec copy s) = trace (exec copy' s)) /\
  (forall (put get : list call -> string -> string -> outcome unit)
          (remote_path local_path : string) (s : state),
     let copy := smart_copy_remote_to_local E depth remote_path local_path in
     let copy' :=
       smart_copy_remote_to_local (with_transfers E put get) depth
         remote_path local_path in
     eval copy s = eval copy' s /\ trace (exec copy s) = trace (exec copy' s)).
Proof.
  split; [|split; [|split]].
  - intros. by eapply l2r_transfer_failure.
  - intros. by eapply r2l_transfer_failure.
  - intros. by apply agree_smart_copy_local_to_remote.
  - intros. by apply agree_smart_copy_remote_to_local.
Qed.

Lemma transfer_failure_does_not_abort_walk_witness :
  let E := scripted photos_world in
  (let a := smart_copy_local_to_remote E 1 "/home/u/photos/a.jpg" "/srv/photos/a.jpg" in
   let b := smart_copy_local_to_remote E 1 "/home/u/photos/b.jpg" "/srv/photos/b.jpg" in
   let s3 := {| cmd_log := [];
                trace := [OsPathIsdir "/home/u/photos"; SftpMkdir "/srv/photos";
                          OsScandir "/home/u/photos"] |} in
   eval a s3 = Return tt /\
   last (cmd_log (exec a s3)) = Some "Fehler: Permission denied"%string /\
   smart_copy_local_to_remote E 2 "/home/u/photos" "/srv/photos" initial
     = (b ;; ret tt) (exec a s3)) /\
  (let a := smart_copy_remote_to_local E 1 "/srv/photos/a.jpg" "/home/u/photos/a.jpg" in
   let b := smart_copy_remote_to_local E 1 "/srv/photos/b.jpg" "/home/u/photos/b.jpg" in
   let s3 := {| cmd_log := [];
                trace := [SftpStat "/srv/photos"; OsPathExists "/home/u/photos";
                          OsMkdir "/home/u/photos"; SftpListdirAttr "/srv/photos"] |} in
   eval a s3 = Return tt /\
   last (cmd_log (exec a s3)) = Some "Fehler: Permission denied"%string /\
   smart_copy_remote_to_local E 2 "/srv/photos" "/home/u/photos" initial
     = try_except (b ;; ret tt) is_OSError (fun _ => ret tt) (exec a s3)).
Proof.
  intros E.
  destruct (transfer_failure_does_not_abort_walk E 0) as (Hput & Hget & _).
  split.
  - apply (Hput "/home/u/photos" "/srv/photos" initial
             [] [("b.jpg", false)] ("a.jpg", false) (OSError "Permission denied"))%string.
    + vm_compute. reflexivity.
    + vm_compute. reflexivity.
    + vm_compute. reflexivity.
    + vm_compute. reflexivity.
    + vm_compute. reflexivity.
    + vm_compute. reflexivity.
    + vm_compute. reflexivity.
  - apply (Hget "/srv/photos" "/home/u/photos" initial DIR_MODE REG_MODE
             [] [("b.jpg", REG_MODE)] ("a.jpg", REG_MODE)
             (OSError "Permission denied"))%string.
    + vm_compute. reflexivity.
    + vm_compute. reflexivity.
    + vm_compute. reflexivity.
    + vm_compute. reflexivity.
    + vm_compute. reflexivity.
    + vm_compute. reflexivity.
    + vm_compute. reflexivity.
    + vm_compute. reflexivity.
    + vm_compute. reflexivity.
Defined.

(** In [photos_world] the transfer of [a.jpg] fails and [b.jpg] is
    transferred all the same. *)
Example failed_picture_does_not_stop_the_next :
  let E := scripted photos_world in
  let put := smart_copy_local_to_remote E 2 "/home/u/photos" "/srv/photos" in
  let get := smart_copy_remote_to_local E 2 "/srv/photos" "/home/u/photos" in
  eval put initial = Return tt /\
  transfers initial (exec put initial)
    = [SftpPut "/home/u/photos/a.jpg" "/srv/photos/a.jpg";
       SftpPut "/home/u/photos/b.jpg" "/srv/photos/b.jpg"] /\
  eval get initial = Return tt /\
  transfers initial (exec get initial)
    = [SftpGet "/srv/photos/a.jpg" "/home/u/photos/a.jpg";
       SftpGet "/srv/photos/b.jpg" "/home/u/photos/b.jpg"].
Proof. vm_compute. repeat split; reflexivity. Qed.

(** ** Move *)

Section CopyCalls.

Context {Bytes : Type} (E : Env Bytes).

Lemma emits_l2r_skip_identical local_path remote_path :
  emits not_removal (l2r_skip_identical E local_path remote_path).
Proof.
  unfold l2r_skip_identical.
  apply emits_bind; [by apply emits_external|]. intros size.
  apply emits_bind; [by apply emits_remote_file_exists|]. intros found.
  destruct found; [|apply emits_ret].
  destruct (size >? _); [|apply emits_ret].
  apply emits_bind; [by apply emits_compute_local_checksum|]. intros c1.
  apply emits_bind; [by apply emits_compute_remote_checksum|]. intros c2.
  destruct (_ && _); [|apply emits_ret].
  apply emits_bind; [by apply emits_compute_local_checksum|]. intros c3.
  apply emits_bind; [by apply emits_compute_remote_checksum|]. intros c4.
  destruct (bool_decide _); repeat emits_step.
Qed.

Lemma emits_r2l_skip_identical remote_path local_path :
  emits not_removal (r2l_skip_identical E remote_path local_path).
Proof.
  unfold r2l_skip_identical.
  apply emits_bind; [by apply emits_external|]. intros found.
  destruct found; [|apply emits_ret].
  apply emits_bind; [by apply emits_remote_file_size|]. intros [size|];
    [|apply emits_ret].
  destruct (_ && _); [|apply emits_ret].
  apply emits_bind; [by apply emits_compute_remote_checksum|]. intros c1.
  apply emits_bind; [by apply emits_compute_local_checksum|]. intros c2.
  destruct (_ && _); [|apply emits_ret].
  apply emits_bind; [by apply emits_compute_remote_checksum|]. intros c3.
  apply emits_bind; [by apply emits_compute_local_checksum|]. intros c4.
  destruct (bool_decide _); repeat emits_step.
Qed.

(** A copy deletes nothing. *)
Lemma emits_smart_copy_local_to_remote depth local_path remote_path :
  emits not_removal (smart_copy_local_to_remote E depth local_path remote_path).
Proof.
  revert local_path remote_path.
  induction depth as [|depth IH]; intros local_path remote_path; simpl.
  - apply emits_raise.
  - apply emits_bind; [by apply emits_external|]. intros is_dir.
    destruct is_dir.
    + apply emits_bind;
        [apply emits_try_except; [by apply emits_external|intros; apply emits_ret]|].
      intros _. apply emits_bind; [by apply emits_external|]. intros entries.
      apply emits_for_each. intros entry. apply IH.
    + apply emits_bind; [apply emits_l2r_skip_identical|]. intros skipped.
      destruct skipped; [apply emits_ret|].
      unfold l2r_put. repeat emits_step.
Qed.

Lemma emits_smart_copy_remote_to_local depth remote_path local_path :
  emits not_removal (smart_copy_remote_to_local E depth remote_path local_path).
Proof.
  revert remote_path local_path.
  induction depth as [|depth IH]; intros remote_path local_path; simpl.
  - apply emits_raise.
  - apply emits_bind.
    { apply emits_try_except; [|intros; apply emits_ret].
      apply emits_bind; [by apply emits_external|]. intros; apply emits_ret. }
    intros [st_mode|]; [|apply emits_ret].
    destruct (mode_is_dir st_mode).
    + apply emits_bind.
      { apply emits_bind; [by apply emits_external|]. intros present.
        destruct (negb present); [|apply emits_ret].
        apply emits_try_except; [by apply emits_external|intros; apply emits_ret]. }
      intros _. apply emits_try_except; [|intros; apply emits_ret].
      apply emits_bind; [by apply emits_external|]. intros entries.
      apply emits_for_each. intros entry. apply IH.
    + apply emits_bind; [apply emits_r2l_skip_identical|]. intros skipped.
      destruct skipped; [apply emits_ret|].
      unfold r2l_get. repeat emits_step.
Qed.

End CopyCalls.

Lemma no_removals_filter (l : list call) :
  forallb not_removal l = true -> List.filter is_removal l = [].
Proof.
  induction l as [|c l IH]; [done|]. simpl. unfold not_removal at 1.
  destruct (is_removal c); [done|]. apply IH.
Qed.

Lemma l2r_move {Bytes} (E : Env Bytes) (depth : nat)
    (local_path remote_path : string) (s0 : state) :
  let copy := smart_copy_local_to_remote E depth local_path remote_path in
  let move := move_file_local_to_remote E depth local_path remote_path in
  let s1 := exec copy s0 in
  List.filter is_removal (calls_since s0 s1) = [] /\
  (forall e, eval copy s0 = Raise e -> eval move s0 = Raise e /\ exec move s0 = s1) /\
  (eval copy s0 = Return tt ->
   eval move s0 = Return tt /\
   calls_since s1 (exec move s0) =
     [OsPathIsfile local_path;
      if env_isfile E (trace s1) local_path then OsRemove local_path
      else ShutilRmtree local_path]).
Proof.
  intros copy move s1. split; [|split].
  - apply no_removals_filter, emits_calls_since, emits_smart_copy_local_to_remote.
  - intros e He. unfold move, move_file_local_to_remote, eval, exec.
    fold copy. by rewrite (bind_eval_Raise _ _ _ _ He).
  - intros Hret. unfold move, move_file_local_to_remote, eval, exec.
    fold copy. rewrite (bind_eval_Return _ _ _ _ Hret). fold s1.
    unfold try_except, bind, os_path_isfile, os_remove, shutil_rmtree, external,
      log_command.
    cbn [trace cmd_log].
    destruct (env_isfile E (trace s1) local_path).
    + destruct (env_remove E _ local_path) as [[]|e]; cbn;
        (split; [done|]); apply calls_since_app; cbn; by rewrite <- app_assoc.
    + destruct (env_rmtree E _ local_path) as [[]|e]; cbn;
        (split; [done|]); apply calls_since_app; cbn; by rewrite <- app_assoc.
Qed.

Lemma r2l_move {Bytes} (E : Env Bytes) (depth : nat)
    (remote_path local_path : string) (s0 : state) :
  let copy := smart_copy_remote_to_local E depth remote_path local_path in
  let move := move_file_remote_to_local E depth remote_path local_path in
  let s1 := exec copy s0 in
  let s2 := exec (sftp_stat E remote_path) s1 in
  List.filter is_removal (calls_since s0 s1) = [] /\
  (forall e, eval copy s0 = Raise e -> eval move s0 = Raise e /\ exec move s0 = s1) /\
  (eval copy s0 = Return tt ->
   eval move s0 = Return tt /\
   (forall st_mode, eval (sftp_stat E remote_path) s1 = Return st_mode ->
      if mode_is_dir st_mode
      then trace (exec move s0)
           = trace (exec (remove_remote_dir_recursive E depth remote_path) s2)
      else calls_since s1 (exec move s0) = [SftpStat remote_path; SftpRemove remote_path]) /\
   (forall e, eval (sftp_stat E remote_path) s1 = Raise e ->
      calls_since s1 (exec move s0) = [SftpStat remote_path] /\
      last (cmd_log (exec move s0)) = Some ("Fehler bei rm remote: " +:+ exn_str e))).
Proof.
  intros copy move s1 s2. split; [|split].
  - apply no_removals_filter, emits_calls_since, emits_smart_copy_remote_to_local.
  - intros e He. unfold move, move_file_remote_to_local, eval, exec.
    fold copy. by rewrite (bind_eval_Raise _ _ _ _ He).
  - intros Hret.
    assert (move s0 =
            try_except
              (let* st_mode := sftp_stat E remote_path in
               if mode_is_dir st_mode then
                 remove_remote_dir_recursive E depth remote_path ;;
                 log_command ("RM REMOTE DIR " +:+ remote_path)
               else
                 sftp_remove E remote_path ;;
                 log_command ("RM REMOTE " +:+ remote_path))
              is_Exception
              (fun e => log_command ("Fehler bei rm remote: " +:+ exn_str e)) s1)
      as Hmove.
    { unfold move, move_file_remote_to_local. fold copy.
      by rewrite (bind_eval_Return _ _ _ _ Hret). }
    change (eval move s0) with (fst (move s0)).
    change (exec move s0) with (snd (move s0)).
    rewrite Hmove. clear Hmove.
    assert (trace s2 = trace s1 ++ [SftpStat remote_path]) as Htrace by done.
    unfold try_except.
    destruct (eval (sftp_stat E remote_path) s1) as [st_mode|e] eqn:Hstat.
    + rewrite (bind_eval_Return _ _ _ _ Hstat). fold s2.
      destruct (mode_is_dir st_mode) eqn:Hdir.
      * unfold bind, log_command.
        destruct (remove_remote_dir_recursive E depth remote_path s2)
          as [[[]|e] s3] eqn:Hrm; cbn [fst snd is_Exception trace].
        -- split; [done|]. split; [|done].
           intros ? [= <-]. rewrite Hdir. unfold exec. by rewrite Hrm.
        -- split; [done|]. split; [|done].
           intros ? [= <-]. rewrite Hdir. unfold exec. by rewrite Hrm.
      * unfold bind, sftp_remove, external, log_command.
        destruct (env_sftp_remove E (trace s2) remote_path) as [[]|e];
          cbn [fst snd is_Exception trace cmd_log];
          (split; [done|]); (split; [|done]); intros ? [= <-]; rewrite Hdir;
          apply calls_since_app; cbn [trace]; by rewrite Htrace, <- app_assoc.
    + rewrite (bind_eval_Raise _ _ _ _ Hstat). cbn [fst snd is_Exception].
      unfold log_command. cbn [fst snd trace cmd_log].
      split; [done|]. split; [done|]. intros ? [= <-]. split.
      * by apply calls_since_app.
      * apply last_log_append.
Qed.

Section RemoveTree.

Context {Bytes : Type} (E : Env Bytes).

Lemma remove_removable_tree (listing : string -> list (string * Z)) (depth : nat)
    (path : string) (s : state) :
  removable E listing depth path ->
  remove_remote_dir_recursive E depth path s =
  (Return tt,
   {| cmd_log := cmd_log s; trace := trace s ++ subtree_removal listing depth path |}).
Proof.
  revert path s. induction depth as [|depth IH]; intros path s Hok; [destruct Hok|].
  destruct Hok as (Hlist & Hrmdir & Hitems).
  cbn [remove_remote_dir_recursive subtree_removal].
  assert (forall items s',
            Forall (fun item : string * Z =>
                      if mode_is_dir item.2
                      then removable E listing depth (remote_child path item.1)
                      else forall h,
                          env_sftp_remove E h (remote_child path item.1) = Return tt)
                   items ->
            for_each items (fun item : string * Z =>
              if mode_is_dir item.2
              then remove_remote_dir_recursive E depth (remote_child path item.1)
              else sftp_remove E (remote_child path item.1)) s' =
            (Return tt,
             {| cmd_log := cmd_log s';
                trace := trace s' ++
                  flat_map (fun item : string * Z =>
                              if mode_is_dir item.2
                              then subtree_removal listing depth (remote_child path item.1)
                              else [SftpRemove (remote_child path item.1)]) items |}))
    as Hloop.
  { induction items as [|item items IHitems]; intros s' Hall.
    - cbn [for_each flat_map]. unfold ret. rewrite app_nil_r. by destruct s'.
    - apply Forall_cons in Hall as [Hitem Hall].
      cbn [for_each flat_map]. unfold bind at 1.
      destruct (mode_is_dir item.2).
      + rewrite (IH _ _ Hitem). rewrite (IHitems _ Hall). cbn [trace cmd_log].
        by rewrite <- app_assoc.
      + unfold sftp_remove at 1, external at 1. rewrite Hitem.
        rewrite (IHitems _ Hall). cbn [trace cmd_log].
        by rewrite <- app_assoc. }
  unfold try_except. unfold bind at 1. unfold sftp_listdir_attr, external.
  rewrite Hlist. unfold bind at 1. rewrite (Hloop _ _ Hitems).
  unfold sftp_rmdir, external. cbn [trace cmd_log]. rewrite Hrmdir.
  f_equal. f_equal. rewrite <- !app_assoc. reflexivity.
Qed.

End RemoveTree.

Lemma r2l_move_directory {Bytes} (E : Env Bytes) (depth : nat)
    (remote_path local_path : string) (s0 : state) (st_mode : Z)
    (listing : string -> list (string * Z)) :
  let copy := smart_copy_remote_to_local E depth remote_path local_path in
  let move := move_file_remote_to_local E depth remote_path local_path in
  let s1 := exec copy s0 in
  eval copy s0 = Return tt ->
  eval (sftp_stat E remote_path) s1 = Return st_mode ->
  mode_is_dir st_mode = true ->
  removable E listing depth remote_path ->
  eval move s0 = Return tt /\
  calls_since s1 (exec move s0)
    = SftpStat remote_path :: subtree_removal listing depth remote_path /\
  last (cmd_log (exec move s0)) = Some ("RM REMOTE DIR " +:+ remote_path).
Proof.
  intros copy move s1 Hret Hstat Hdir Hok.
  subst move. unfold move_file_remote_to_local, eval, exec.
  fold copy. rewrite (bind_eval_Return _ _ _ _ Hret). fold s1.
  unfold try_except. rewrite (bind_eval_Return _ _ _ _ Hstat), Hdir.
  unfold bind. rewrite (remove_removable_tree E listing depth remote_path _ Hok).
  unfold log_command. cbn [fst snd trace cmd_log].
  split; [reflexivity|]. split.
  - apply calls_since_app. unfold exec, sftp_stat, external. cbn [snd trace].
    by rewrite <- app_assoc.
  - apply last_log_append.
Qed.

(** C6.  A move is the copy followed by the removal of the source, in both
    directions.  The copy itself makes no deleting call.  If the copy raises,
    the move raises the same exception in the state the copy ended in: no
    deleting call is made at all.  If the copy returns (whatever was skipped,
    transferred or failed inside it), the move returns and the removal is
    issued on the source path: for a local source [os.remove] if it is a
    regular file and [shutil.rmtree] otherwise; for a remote source, once
    [sftp.stat] has answered, [sftp.remove] for a file and the recursive
    delete [remove_remote_dir_recursive] for a directory (if [sftp.stat]
    raises, the error is logged and nothing is removed).  The removal of a
    remote directory is that of its whole tree: where the directories below
    it are listed and the removals succeed, the calls after the copy are
    [sftp.stat] and then, depth-first, for every directory its listing, the
    removal of each of its entries and its [rmdir]; the last log line is
    [RM REMOTE DIR <path>]. *)
Theorem move_removes_source_only_after_copy {Bytes} (E : Env Bytes) (depth : nat) :
  (forall (local_path remote_path : string) (s0 : state),
     let copy := smart_copy_local_to_remote E depth local_path remote_path in
     let move := move_file_local_to_remote E depth local_path remote_path in
     let s1 := exec copy s0 in
     List.filter is_removal (calls_since s0 s1) = [] /\
     (forall e, eval copy s0 = Raise e -> eval move s0 = Raise e /\ exec move s0 = s1) /\
     (eval copy s0 = Return tt ->
      eval move s0 = Return tt /\
      calls_since s1 (exec move s0) =
        [OsPathIsfile local_path;
         if env_isfile E (trace s1) local_path then OsRemove local_path
         else ShutilRmtree local_path])) /\
  (forall (remote_path local_path : string) (s0 : state),
     let copy := smart_copy_remote_to_local E depth remote_path local_path in
     let move := move_file_remote_to_local E depth remote_path local_path in
     let s1 := exec copy s0 in
     let s2 := exec (sftp_stat E remote_path) s1 in
     List.filter is_removal (calls_since s0 s1) = [] /\
     (forall e, eval copy s0 = Raise e -> eval move s0 = Raise e /\ exec move s0 = s1) /\
     (eval copy s0 = Return tt ->
      eval move s0 = Return tt /\
      (forall st_mode, eval (sftp_stat E remote_path) s1 = Return st_mode ->
         if mode_is_dir st_mode
         then trace (exec move s0)
              = trace (exec (remove_remote_dir_recursive E depth remote_path) s2)
         else calls_since s1 (exec move s0)
              = [SftpStat remote_path; SftpRemove remote_path]) /\
      (forall e, eval (sftp_stat E remote_path) s1 = Raise e ->
         calls_since s1 (exec move s0) = [SftpStat remote_path] /\
         last (cmd_log (exec move s0))
           = Some ("Fehler bei rm remote: " +:+ exn_str e)))) /\
  (forall (remote_path local_path : string) (s0 : state) (st_mode : Z)
          (listing : string -> list (string * Z)),
     let copy := smart_copy_remote_to_local E depth remote_path local_path in
     let move := move_file_remote_to_local E depth remote_path local_path in
     let s1 := exec copy s0 in
     eval copy s0 = Return tt ->
     eval (sftp_stat E remote_path) s1 = Return st_mode ->
     mode_is_dir st_mode = true ->
     removable E listing depth remote_path ->
     eval move s0 = Return tt /\
     calls_since s1 (exec move s0)
       = SftpStat remote_path :: subtree_removal listing depth remote_path /\
     last (cmd_log (exec move s0)) = Some ("RM REMOTE DIR " +:+ remote_path)).
Proof.
  split; [|split].
  - intros. apply l2r_move.
  - intros. apply r2l_move.
  - intros remote_path local_path s0 st_mode listing copy move s1 Hret Hstat Hdir Hok.
    exact (r2l_move_directory E depth remote_path local_path s0 st_mode listing
             Hret Hstat Hdir Hok).
Qed.

Lemma move_removes_source_only_after_copy_witness :
  (let move := move_file_local_to_remote (scripted dying_session_world) 2
                 "/home/u/photos" "/srv/photos" in
   eval move initial = Raise (SSHException "SSH session not active") /\
   calls_since initial (exec move initial) =
     [OsPathIsdir "/home/u/photos"; SftpMkdir "/srv/photos"; OsScandir "/home/u/photos";
      OsPathIsdir "/home/u/photos/a.jpg"; OsPathGetsize "/home/u/photos/a.jpg";
      SshExecCommand "[ -f '/srv/photos/a.jpg' ]";
      SftpPut "/home/u/photos/a.jpg" "/srv/photos/a.jpg";
      OsPathIsdir "/home/u/photos/b.jpg"; OsPathGetsize "/home/u/photos/b.jpg";
      SshExecCommand "[ -f '/srv/photos/b.jpg' ]"]) /\
  (let copy := smart_copy_local_to_remote (scripted photos_world) 2
                 "/home/u/photos" "/srv/photos" in
   let move := move_file_local_to_remote (scripted photos_world) 2
                 "/home/u/photos" "/srv/photos" in
   eval move initial = Return tt /\
   calls_since (exec copy initial) (exec move initial) =
     [OsPathIsfile "/home/u/photos"; ShutilRmtree "/home/u/photos"]) /\
  (let copy := smart_copy_remote_to_local (scripted photos_world) 2
                 "/srv/photos/b.jpg" "/home/u/photos/b.jpg" in
   let move := move_file_remote_to_local (scripted photos_world) 2
                 "/srv/photos/b.jpg" "/home/u/photos/b.jpg" in
   eval move initial = Return tt /\
   calls_since (exec copy initial) (exec move initial) =
     [SftpStat "/srv/photos/b.jpg"; SftpRemove "/srv/photos/b.jpg"]) /\
  (let copy := smart_copy_remote_to_local (scripted album_world) 3
                 "/srv/album" "/home/u/album" in
   let move := move_file_remote_to_local (scripted album_world) 3
                 "/srv/album" "/home/u/album" in
   eval move initial = Return tt /\
   calls_since initial (exec copy initial) =
     [SftpStat "/srv/album"; OsPathExists "/home/u/album"; OsMkdir "/home/u/album";
      SftpListdirAttr "/srv/album";
      SftpStat "/srv/album/2019"; OsPathExists "/home/u/album/2019";
      OsMkdir "/home/u/album/2019"; SftpListdirAttr "/srv/album/2019";
      SftpStat "/srv/album/2019/x.jpg"; OsPathExists "/home/u/album/2019/x.jpg";
      SftpGet "/srv/album/2019/x.jpg" "/home/u/album/2019/x.jpg";
      SftpStat "/srv/album/cover.jpg"; OsPathExists "/home/u/album/cover.jpg";
      SftpGet "/srv/album/cover.jpg" "/home/u/album/cover.jpg"] /\
   calls_since (exec copy initial) (exec move initial) =
     [SftpStat "/srv/album"; SftpListdirAttr "/srv/album";
      SftpListdirAttr "/srv/album/2019"; SftpRemove "/srv/album/2019/x.jpg";
      SftpRmdir "/srv/album/2019"; SftpRemove "/srv/album/cover.jpg";
      SftpRmdir "/srv/album"] /\
   last (cmd_log (exec move initial)) = Some "RM REMOTE DIR /srv/album"%string).
Proof.
  split; [|split; [|split]].
  - destruct (move_removes_source_only_after_copy (scripted dying_session_world) 2)
      as [Hl2r _].
    destruct (Hl2r "/home/u/photos" "/srv/photos" initial)%string
      as (_ & Hraise & _).
    destruct (Hraise (SSHException "SSH session not active")) as [Heval Hexec].
    + vm_compute. reflexivity.
    + split; [exact Heval|]. rewrite Hexec. vm_compute. reflexivity.
  - destruct (move_removes_source_only_after_copy (scripted photos_world) 2)
      as [Hl2r _].
    destruct (Hl2r "/home/u/photos" "/srv/photos" initial)%string
      as (_ & _ & Hreturn).
    apply Hreturn. vm_compute. reflexivity.
  - destruct (move_removes_source_only_after_copy (scripted photos_world) 2)
      as (_ & Hr2l & _).
    destruct (Hr2l "/srv/photos/b.jpg" "/home/u/photos/b.jpg" initial)%string
      as (_ & _ & Hreturn).
    destruct Hreturn as (Heval & Hstat & _).
    + vm_compute. reflexivity.
    + split; [exact Heval|]. apply (Hstat REG_MODE). vm_compute. reflexivity.
  - destruct (move_removes_source_only_after_copy (scripted album_world) 3)
      as (_ & _ & Htree).
    destruct (Htree "/srv/album" "/home/u/album" initial DIR_MODE album_listing)%string
      as (Heval & Hcalls & Hlog).
    + vm_compute. reflexivity.
    + vm_compute. reflexivity.
    + vm_compute. reflexivity.
    + split; [intros h; vm_compute; reflexivity|].
      split; [intros h; vm_compute; reflexivity|].
      change (album_listing "/srv/album")
        with [("2019"%string, DIR_MODE); ("cover.jpg"%string, REG_MODE)].
      constructor; [|constructor; [|constructor]].
      * change (removable (scripted album_world) album_listing 2 "/srv/album/2019").
        split; [intros h; vm_compute; reflexivity|].
        split; [intros h; vm_compute; reflexivity|].
        change (album_listing "/srv/album/2019") with [("x.jpg"%string, REG_MODE)].
        constructor; [|constructor].
        intros h. vm_compute. reflexivity.
      * intros h. vm_compute. reflexivity.
    + split; [exact Heval|]. split; [vm_compute; reflexivity|].
      split; [|exact Hlog]. rewrite Hcalls. vm_compute. reflexivity.
Defined.

(** ** Recursive removal on the remote side *)

Section Remove.

Context {Bytes : Type} (E : Env Bytes).

Lemma remove_remote_dir_recursive_unfold depth path :
  remove_remote_dir_recursive E (S depth) path =
  try_except
    (let* items := sftp_listdir_attr E path in
     for_each items (remove_item E depth path) ;;
     sftp_rmdir E path)
    (fun _ => true) (fun _ => ret tt).
Proof. reflexivity. Qed.

Lemma remove_remote_dir_recursive_returns depth path s :
  eval (remove_remote_dir_recursive E (S depth) path) s = Return tt.
Proof.
  rewrite remove_remote_dir_recursive_unfold. unfold eval, try_except.
  by destruct (bind _ _ s) as [[[]|e] s'].
Qed.

Lemma remove_after_directory_child depth path s before item after :
  let s1 := exec (sftp_listdir_attr E path) s in
  let s2 := exec (for_each before (remove_item E (S depth) path)) s1 in
  eval (sftp_listdir_attr E path) s = Return (before ++ item :: after) ->
  eval (for_each before (remove_item E (S depth) path)) s1 = Return tt ->
  mode_is_dir item.2 = true ->
  remove_remote_dir_recursive E (S (S depth)) path s =
  try_except
    (for_each after (remove_item E (S depth) path) ;; sftp_rmdir E path)
    (fun _ => true) (fun _ => ret tt)
    (exec (remove_remote_dir_recursive E (S depth) (remote_child path item.1)) s2).
Proof.
  intros s1 s2 Hlist Hbefore Hdir.
  rewrite remove_remote_dir_recursive_unfold.
  rewrite (try_except_bind_Return _ _ _ _ _ _ Hlist). fold s1.
  assert (eval (remove_item E (S depth) path item) s2 = Return tt) as Hitem.
  { unfold remove_item. rewrite Hdir. apply remove_remote_dir_recursive_returns. }
  unfold try_except, bind.
  rewrite (for_each_resume _ _ _ _ _ Hbefore Hitem). fold s2.
  by replace (remove_item E (S depth) path item)
    with (remove_remote_dir_recursive E (S depth) (remote_child path item.1))
    by (unfold remove_item; by rewrite Hdir).
Qed.

Lemma remove_stops_at_failed_file depth path s before item after e :
  let s1 := exec (sftp_listdir_attr E path) s in
  let s2 := exec (for_each before (remove_item E depth path)) s1 in
  eval (sftp_listdir_attr E path) s = Return (before ++ item :: after) ->
  eval (for_each before (remove_item E depth path)) s1 = Return tt ->
  mode_is_dir item.2 = false ->
  eval (sftp_remove E (remote_child path item.1)) s2 = Raise e ->
  remove_remote_dir_recursive E (S depth) path s =
  (Return tt, exec (sftp_remove E (remote_child path item.1)) s2).
Proof.
  intros s1 s2 Hlist Hbefore Hfile Hremove.
  rewrite remove_remote_dir_recursive_unfold.
  rewrite (try_except_bind_Return _ _ _ _ _ _ Hlist). fold s1.
  unfold try_except. unfold bind at 1.
  rewrite (for_each_app _ _ _ _ Hbefore). fold s2.
  change (for_each (item :: after) (remove_item E depth path))
    with (bind (remove_item E depth path item)
            (fun _ => for_each after (remove_item E depth path))).
  assert (eval (remove_item E depth path item) s2 = Raise e) as Hitem
    by (unfold remove_item; by rewrite Hfile).
  rewrite (bind_eval_Raise _ _ _ _ Hitem).
  unfold remove_item. by rewrite Hfile.
Qed.

End Remove.

(** C7, as the code has it.  [remove_remote_dir_recursive] never raises
    (given room for one call).  While it walks a directory, whatever fails
    inside a child directory stays inside the nested call, and the walk goes
    on with the entries after that directory and then [rmdir].  But when
    [sftp.remove] raises for a file entry, the walk of the directory ends
    there: the entries after it are not processed, [rmdir] is not called, and
    the call returns as if nothing had happened. *)
Theorem removal_continues_after_directories_stops_at_files {Bytes} (E : Env Bytes) :
  (forall depth path s,
     eval (remove_remote_dir_recursive E (S depth) path) s = Return tt) /\
  (forall depth path s before item after,
     let s1 := exec (sftp_listdir_attr E path) s in
     let s2 := exec (for_each before (remove_item E (S depth) path)) s1 in
     eval (sftp_listdir_attr E path) s = Return (before ++ item :: after) ->
     eval (for_each before (remove_item E (S depth) path)) s1 = Return tt ->
     mode_is_dir item.2 = true ->
     remove_remote_dir_recursive E (S (S depth)) path s =
     try_except
       (for_each after (remove_item E (S depth) path) ;; sftp_rmdir E path)
       (fun _ => true) (fun _ => ret tt)
       (exec (remove_remote_dir_recursive E (S depth) (remote_child path item.1)) s2)) /\
  (forall depth path s before item after e,
     let s1 := exec (sftp_listdir_attr E path) s in
     let s2 := exec (for_each before (remove_item E depth path)) s1 in
     eval (sftp_listdir_attr E path) s = Return (before ++ item :: after) ->
     eval (for_each before (remove_item E depth path)) s1 = Return tt ->
     mode_is_dir item.2 = false ->
     eval (sftp_remove E (remote_child path item.1)) s2 = Raise e ->
     remove_remote_dir_recursive E (S depth) path s =
     (Return tt, exec (sftp_remove E (remote_child path item.1)) s2)).
Proof.
  split; [|split].
  - intros. apply remove_remote_dir_recursive_returns.
  - intros. by apply remove_after_directory_child.
  - intros. by eapply remove_stops_at_failed_file.
Qed.

Lemma removal_continues_after_directories_stops_at_files_witness :
  let E := scripted sticky_dir_world in
  let after_cache :=
    {| cmd_log := [];
       trace := [SftpListdirAttr "/srv/tmp"; SftpListdirAttr "/srv/tmp/cache";
                 SftpRemove "/srv/tmp/cache/x"] |} in
  remove_remote_dir_recursive E 2 "/srv/tmp" initial =
    try_except
      (sftp_remove E "/srv/tmp/a.log" ;; sftp_remove E "/srv/tmp/b.log" ;; ret tt ;;
       sftp_rmdir E "/srv/tmp")
      (fun _ => true) (fun _ => ret tt) after_cache /\
  remove_remote_dir_recursive E 2 "/srv/tmp" initial =
    (Return tt,
     {| cmd_log := [];
        trace := [SftpListdirAttr "/srv/tmp"; SftpListdirAttr "/srv/tmp/cache";
                  SftpRemove "/srv/tmp/cache/x"; SftpRemove "/srv/tmp/a.log"] |}).
Proof.
  intros E after_cache.
  destruct (removal_continues_after_directories_stops_at_files E)
    as (_ & Hdir & Hfile).
  split.
  - apply (Hdir 0%nat "/srv/tmp" initial []
             ("cache", DIR_MODE) [("a.log", REG_MODE); ("b.log", REG_MODE)])%string.
    + vm_compute. reflexivity.
    + vm_compute. reflexivity.
    + vm_compute. reflexivity.
  - apply (Hfile 1%nat "/srv/tmp" initial [("cache", DIR_MODE)]
             ("a.log", REG_MODE) [("b.log", REG_MODE)]
             (OSError "Permission denied"))%string.
    + vm_compute. reflexivity.
    + vm_compute. reflexivity.
    + vm_compute. reflexivity.
    + vm_compute. reflexivity.
Defined.

(** C7, as the specification has it, fails in [sticky_dir_world]: [a.log]
    cannot be removed, and its sibling [b.log], which could be, is never
    tried. *)
Lemma removal_is_not_best_effort : ~ removal_is_best_effort (scripted sticky_dir_world).
Proof.
  intros Hclaim.
  specialize (Hclaim 1%nat "/srv/tmp"%string initial
                [("cache", DIR_MODE); ("a.log", REG_MODE); ("b.log", REG_MODE)]%string).
  specialize (Hclaim ltac:(vm_compute; reflexivity) ("b.log"%string, REG_MODE)).
  specialize (Hclaim ltac:(apply (bool_decide_unpack _); vm_compute; reflexivity)).
  revert Hclaim. apply (bool_decide_unpack _). vm_compute. reflexivity.
Qed.

(** ** The paths of the children *)

(** C9, as the specification has it, fails for a source directory named
    with trailing slashes: the remote grammar would strip them from the local
    source path, and [os.path.join] would keep them in the remote source path;
    the code does neither. *)
Lemma children_not_by_destination_grammar :
  ~ children_by_destination_grammar (scripted trailing_slash_world).
Proof.
  intros [Hl2r _].
  specialize (Hl2r 1%nat "/home/u/photos//"%string "/srv/photos"%string initial
                [("a.jpg"%string, false)]).
  specialize (Hl2r ltac:(vm_compute; reflexivity) ltac:(vm_compute; reflexivity)
                ltac:(vm_compute; reflexivity)).
  apply (f_equal (fun r => trace r.2)) in Hl2r.
  vm_compute in Hl2r. discriminate Hl2r.
Qed.

Example trailing_slashes_kept_or_stripped_by_side :
  let E := scripted trailing_slash_world in
  calls_since initial
    (exec (smart_copy_local_to_remote E 2 "/home/u/photos//" "/srv/photos//") initial)
  = [OsPathIsdir "/home/u/photos//"; SftpMkdir "/srv/photos//";
     OsScandir "/home/u/photos//";
     OsPathIsdir "/home/u/photos//a.jpg"; OsPathGetsize "/home/u/photos//a.jpg";
     SshExecCommand "[ -f '/srv/photos/a.jpg' ]";
     SftpPut "/home/u/photos//a.jpg" "/srv/photos/a.jpg"] /\
  calls_since initial
    (exec (smart_copy_remote_to_local E 2 "/srv/photos//" "/home/u/photos//") initial)
  = [SftpStat "/srv/photos//"; OsPathExists "/home/u/photos//";
     OsMkdir "/home/u/photos//"; SftpListdirAttr "/srv/photos//";
     SftpStat "/srv/photos/a.jpg"; OsPathExists "/home/u/photos//a.jpg";
     SftpGet "/srv/photos/a.jpg" "/home/u/photos//a.jpg"].
Proof. vm_compute. split; reflexivity. Qed.

(** On a parent path without trailing slash (or on the root) and an entry
    name, [os.path.join] and the remote concatenation build the same string:
    the two grammars part only on parents such as [""] or ["dir//"]. *)
Lemma rstrip_without_trailing_slash (parent : string) :
  Str.endswith_slash parent = false -> Str.rstrip Str.slash parent = parent.
Proof.
  induction parent as [|a parent IH]; [done|]. intros Hend.
  destruct parent as [|b parent].
  - simpl in *. by rewrite Hend.
  - change (Str.endswith_slash (String a (String b parent)))
      with (Str.endswith_slash (String b parent)) in Hend.
    change (Str.rstrip Str.slash (String a (String b parent)))
      with (match Str.rstrip Str.slash (String b parent) with
            | EmptyString =>
                if Ascii.eqb a Str.slash then EmptyString else String a EmptyString
            | r => String a r
            end).
    by rewrite (IH Hend).
Qed.

Lemma grammars_agree_on_tidy_parents (parent name : string) :
  Str.startswith_slash name = false ->
  parent = "/"%string \/ (parent <> ""%string /\ Str.endswith_slash parent = false) ->
  remote_child parent name = os_path_join parent name.
Proof.
  intros Hname [->|[Hne Hend]].
  - unfold remote_child, os_path_join. by rewrite Hname.
  - unfold remote_child, os_path_join. rewrite Hname, Hend.
    destruct (String.eqb_spec parent "/") as [->|_]; [done|].
    destruct (String.eqb_spec parent "") as [->|_]; [done|].
    by rewrite (rstrip_without_trailing_slash parent Hend).
Qed.

(** C9, as the code has it.  In both directions the child of the local path
    is made by [os.path.join] and the child of the remote path by the remote
    concatenation (["/" + name] under the root, else the parent without its
    trailing slashes, ["/"] and the name): each side in its own grammar. *)
Theorem children_by_own_side_grammar {Bytes} (E : Env Bytes) :
  (forall depth local_path remote_path s entries,
     let s1 := exec (os_path_isdir E local_path) s in
     let s2 :=
       exec (try_except (sftp_mkdir E remote_path) is_OSError (fun _ => ret tt)) s1 in
     let s3 := exec (os_scandir E local_path) s2 in
     eval (os_path_isdir E local_path) s = Return true ->
     eval (try_except (sftp_mkdir E remote_path) is_OSError (fun _ => ret tt)) s1
       = Return tt ->
     eval (os_scandir E local_path) s2 = Return entries ->
     smart_copy_local_to_remote E (S depth) local_path remote_path s =
     for_each entries (fun entry : string * bool =>
       smart_copy_local_to_remote E depth
         (os_path_join local_path entry.1)
         (if (remote_path =? "/")%string then "/" +:+ entry.1
          else Str.rstrip Str.slash remote_path +:+ "/" +:+ entry.1)) s3) /\
  (forall depth remote_path local_path s st_mode entries,
     let make_local_dir :=
       (let* present := os_path_exists E local_path in
        if negb present
        then try_except (os_mkdir E local_path) is_OSError (fun _ => ret tt)
        else ret tt) in
     let s1 := exec (sftp_stat E remote_path) s in
     let s2 := exec make_local_dir s1 in
     let s3 := exec (sftp_listdir_attr E remote_path) s2 in
     eval (sftp_stat E remote_path) s = Return st_mode ->
     mode_is_dir st_mode = true ->
     eval make_local_dir s1 = Return tt ->
     eval (sftp_listdir_attr E remote_path) s2 = Return entries ->
     smart_copy_remote_to_local E (S depth) remote_path local_path s =
     try_except
       (for_each entries (fun e : string * Z =>
          smart_copy_remote_to_local E depth
            (if (remote_path =? "/")%string then "/" +:+ e.1
             else Str.rstrip Str.slash remote_path +:+ "/" +:+ e.1)
            (os_path_join local_path e.1)))
       is_OSError (fun _ => ret tt) s3).
Proof.
  split.
  - intros depth local_path remote_path s entries s1 s2 s3 Hdir Hmkdir Hscan.
    rewrite (smart_copy_local_dir E depth _ _ _ Hdir). fold s1.
    rewrite (bind_eval_Return _ _ _ _ Hmkdir). fold s2.
    by rewrite (bind_eval_Return _ _ _ _ Hscan).
  - intros depth remote_path local_path s st_mode entries make_local_dir s1 s2 s3
      Hstat Hdir Hmk Hlist.
    rewrite (smart_copy_remote_dir E depth _ _ _ _ Hstat Hdir). fold s1.
    fold make_local_dir. rewrite (bind_eval_Return _ _ _ _ Hmk). fold s2.
    by rewrite (try_except_bind_Return _ _ _ _ _ _ Hlist).
Qed.

Lemma children_by_own_side_grammar_witness :
  let E := scripted photos_world in
  smart_copy_local_to_remote E 2 "/home/u/photos" "/srv/photos" initial =
    (smart_copy_local_to_remote E 1 "/home/u/photos/a.jpg" "/srv/photos/a.jpg" ;;
     smart_copy_local_to_remote E 1 "/home/u/photos/b.jpg" "/srv/photos/b.jpg" ;;
     ret tt)
      {| cmd_log := [];
         trace := [OsPathIsdir "/home/u/photos"; SftpMkdir "/srv/photos";
                   OsScandir "/home/u/photos"] |} /\
  smart_copy_remote_to_local E 2 "/srv/photos" "/home/u/photos" initial =
    try_except
      (smart_copy_remote_to_local E 1 "/srv/photos/a.jpg" "/home/u/photos/a.jpg" ;;
       smart_copy_remote_to_local E 1 "/srv/photos/b.jpg" "/home/u/photos/b.jpg" ;;
       ret tt)
      is_OSError (fun _ => ret tt)
      {| cmd_log := [];
         trace := [SftpStat "/srv/photos"; OsPathExists "/home/u/photos";
                   OsMkdir "/home/u/photos"; SftpListdirAttr "/srv/photos"] |}.
Proof.
  intros E. destruct (children_by_own_side_grammar E) as [Hl2r Hr2l]. split.
  - apply (Hl2r 1%nat "/home/u/photos" "/srv/photos" initial
             [("a.jpg", false); ("b.jpg", false)])%string.
    + vm_compute. reflexivity.
    + vm_compute. reflexivity.
    + vm_compute. reflexivity.
  - apply (Hr2l 1%nat "/srv/photos" "/home/u/photos" initial DIR_MODE
             [("a.jpg", REG_MODE); ("b.jpg", REG_MODE)])%string.
    + vm_compute. reflexivity.
    + vm_compute. reflexivity.
    + vm_compute. reflexivity.
    + vm_compute. reflexivity.
Defined.

(** ** Algorithm names outside the command map *)

(** C10, as the code has it.  For an algorithm name outside [md5], [sha1],
    [sha256] the remote checksum is computed by [md5sum]: the call is the
    same computation as the call with ['md5']; once the file is found, the
    one command run and logged after the test is [md5sum '<path>'], or [dd
    ... | md5sum] for a partial checksum, and when that command exits with 0
    the result is the first word of its output.  The local checksum hands the
    name to [hashlib.new]: for a regular file, a name [hashlib] does not know
    raises [ValueError] out of the function, and a name it knows gives the
    digest it computes under that name over the chunks read.  Whether the two
    sides then digest with different algorithms depends on what the name
    means to [hashlib]. *)
Theorem unknown_algorithm_remote_md5_local_hashlib {Bytes} (E : Env Bytes)
    (algo remote_path local_path : string) (full : bool) (partial_mb chunk_size : Z)
    (s : state) :
  algo ∉ ["md5"; "sha1"; "sha256"]%string ->
  let check_cmd := "[ -f '" +:+ remote_path +:+ "' ]" in
  let md5_cmd :=
    if full then "md5sum '" +:+ remote_path +:+ "'"
    else "dd if='" +:+ remote_path +:+ "' bs=1M count=" +:+ Str.of_int partial_mb
         +:+ " 2>/dev/null | md5sum" in
  let remote_sum := compute_remote_checksum E remote_path algo full partial_mb in
  let local_sum := compute_local_checksum E local_path algo full partial_mb chunk_size in
  remote_sum s = compute_remote_checksum E remote_path "md5" full partial_mb s /\
  (forall r : exec_result,
     env_exec_command E (trace s) check_cmd = Return r -> exit_status r = 0 ->
     calls_since s (exec remote_sum s) = [SshExecCommand check_cmd; SshExecCommand md5_cmd] /\
     last (cmd_log (exec remote_sum s)) = Some md5_cmd /\
     forall r' : exec_result,
       env_exec_command E (trace s ++ [SshExecCommand check_cmd]) md5_cmd = Return r' ->
       exit_status r' = 0 ->
       eval remote_sum s = Return (head (Str.split (Str.strip (stdout r'))))) /\
  (env_isfile E (trace s) local_path = true ->
   (env_hashlib E algo = None ->
    eval local_sum s = Raise (ValueError ("unsupported hash type " +:+ algo))) /\
   (forall (hexdigest : list Bytes -> string) (reads : list (outcome Bytes))
           (h : list Bytes),
      env_hashlib E algo = Some hexdigest ->
      env_open_rb E (trace s ++ [OsPathIsfile local_path]) local_path chunk_size
        = Return reads ->
      read_loop E reads (if full then None else Some (partial_mb * 1024 * 1024)) [] 0
        = Return h ->
      eval local_sum s = Return (Some (hexdigest h)))).
Proof.
  intros Hnot check_cmd md5_cmd remote_sum local_sum.
  split; [|split].
  - subst remote_sum. unfold compute_remote_checksum.
    by rewrite (command_map_unknown algo Hnot), command_map_md5.
  - intros r Hcheck Hstatus. subst remote_sum.
    unfold compute_remote_checksum, remote_file_exists.
    rewrite (command_map_unknown algo Hnot). cbn [default].
    fold check_cmd.
    assert ((if full then "md5sum" +:+ " '" +:+ remote_path +:+ "'"
             else "dd if='" +:+ remote_path +:+ "' bs=1M count=" +:+ Str.of_int partial_mb
                  +:+ " 2>/dev/null | " +:+ "md5sum") = md5_cmd) as ->
      by (subst md5_cmd; destruct full; reflexivity).
    unfold eval, exec, bind, log_command, ssh_exec_command, external, try_except, ret.
    cbn [trace cmd_log]. rewrite Hcheck. cbn [trace cmd_log].
    rewrite Hstatus. cbn [Z.eqb negb trace cmd_log].
    split; [|split].
    + apply calls_since_app.
      destruct (env_exec_command E _ md5_cmd) as [r'|e']; cbn [is_Exception];
        [destruct (negb (exit_status r' =? 0)); [|destruct (Str.split _)]|];
        cbn [snd trace]; by rewrite <- app_assoc.
    + destruct (env_exec_command E _ md5_cmd) as [r'|e']; cbn [is_Exception];
        [destruct (negb (exit_status r' =? 0)); [|destruct (Str.split _)]|];
        cbn [snd cmd_log]; apply last_log_append.
    + intros r' -> Hstatus'. rewrite Hstatus'. cbn [Z.eqb negb].
      destruct (Str.split _); reflexivity.
  - intros Hfile. subst local_sum. split.
    + intros Hnone.
      unfold compute_local_checksum, eval, bind, os_path_isfile, external, hashlib_new,
        raise.
      cbn [trace cmd_log]. rewrite Hfile, Hnone. reflexivity.
    + intros hexdigest reads h Hhash Hopen Hloop.
      unfold compute_local_checksum, eval, bind, os_path_isfile, external, hashlib_new.
      cbn [trace cmd_log]. rewrite Hfile, Hhash. cbn.
      unfold try_except, bind, open_rb, external, ret. cbn [trace cmd_log].
      by rewrite Hopen, Hloop.
Qed.

Lemma unknown_algorithm_remote_md5_local_hashlib_witness :
  let E := scripted docs_world in
  let remote_sum := compute_remote_checksum E "/srv/docs/z.txt" "sha512" true 5 in
  let local_sum := compute_local_checksum E "/home/u/docs/z.txt" "sha512" true 5 65536 in
  remote_sum initial = compute_remote_checksum E "/srv/docs/z.txt" "md5" true 5 initial /\
  (calls_since initial (exec remote_sum initial)
     = [SshExecCommand "[ -f '/srv/docs/z.txt' ]"; SshExecCommand "md5sum '/srv/docs/z.txt'"] /\
   last (cmd_log (exec remote_sum initial)) = Some "md5sum '/srv/docs/z.txt'"%string /\
   eval remote_sum initial = Return (Some "md5:final"%string)) /\
  eval local_sum initial = Return (Some (blob_digest "sha512" [(5, "final"%string)])).
Proof.
  intros E remote_sum local_sum.
  destruct (unknown_algorithm_remote_md5_local_hashlib E
              "sha512" "/srv/docs/z.txt" "/home/u/docs/z.txt" true 5 65536 initial)
    as (Hsame & Hmd5 & Hlocal).
  - apply (bool_decide_unpack _). vm_compute. reflexivity.
  - split; [exact Hsame|]. split.
    + destruct (Hmd5 {| stdout := ""; stderr := ""; exit_status := 0 |})
        as (Hcalls & Hlog & Hresult).
      * vm_compute. reflexivity.
      * reflexivity.
      * split; [exact Hcalls|]. split; [exact Hlog|].
        apply (Hresult {| stdout := "md5:final  /srv/docs/z.txt"; stderr := "";
                          exit_status := 0 |}).
        -- vm_compute. reflexivity.
        -- reflexivity.
    + destruct Hlocal as [_ Hdigest].
      * vm_compute. reflexivity.
      * apply (Hdigest (blob_digest "sha512") [Return (5, "final"%string)]
                 [(5, "final"%string)]).
        -- vm_compute. reflexivity.
        -- vm_compute. reflexivity.
        -- vm_compute. reflexivity.
Defined.

(** The claim as worded does not hold: under the name ['MD5'], which is
    outside the command map, the remote side runs [md5sum] and [hashlib]
    computes MD5 as well, so the two sides digest with one and the same
    algorithm. *)
Lemma unknown_names_may_compare_one_algorithm :
  ~ unknown_names_compare_two_algorithms
      (with_hashlib (scripted docs_world) hashlib_with_MD5).
Proof.
  intros Hclaim.
  destruct (Hclaim "MD5"%string) with (local_path := "/home/u/docs/z.txt"%string)
    (remote_path := "/srv/docs/z.txt"%string) (full := true) (s := initial)
    as [_ Hdiffer].
  - apply (bool_decide_unpack _). vm_compute. reflexivity.
  - apply (Hdiffer "md5:final"%string); vm_compute; reflexivity.
Qed.

(** * More of the program *)

(** ** The order of a listing *)

Lemma ascii_compare_refl (a : ascii) : Ascii.compare a a = Eq.
Proof. unfold Ascii.compare. apply N.compare_refl. Qed.

Lemma ascii_compare_Lt_trans (a b c : ascii) :
  Ascii.compare a b = Lt -> Ascii.compare b c = Lt -> Ascii.compare a c = Lt.
Proof. unfold Ascii.compare. rewrite !N.compare_lt_iff. lia. Qed.

Lemma string_compare_Lt_trans (a b c : string) :
  String.compare a b = Lt -> String.compare b c = Lt -> String.compare a c = Lt.
Proof.
  revert b c. induction a as [|x a IH]; intros [|y b] [|z c]; simpl; try congruence.
  destruct (Ascii.compare x y) eqn:Hxy; destruct (Ascii.compare y z) eqn:Hyz;
    try discriminate.
  - apply Ascii.compare_eq_iff in Hxy as ->. apply Ascii.compare_eq_iff in Hyz as ->.
    rewrite ascii_compare_refl. apply IH.
  - apply Ascii.compare_eq_iff in Hxy as ->. rewrite Hyz. reflexivity.
  - apply Ascii.compare_eq_iff in Hyz as <-. rewrite Hxy. reflexivity.
  - rewrite (ascii_compare_Lt_trans x y z Hxy Hyz). reflexivity.
Qed.

Lemma string_ltb_asym (a b : string) : String.ltb a b = true -> String.ltb b a = false.
Proof.
  unfold String.ltb. rewrite (String.compare_antisym a b).
  destruct (String.compare b a); simpl; congruence.
Qed.

Lemma string_ltb_false_trans (a b c : string) :
  String.ltb b a = false -> String.ltb c b = false -> String.ltb c a = false.
Proof.
  unfold String.ltb. intros Hba Hcb.
  destruct (String.compare c a) eqn:Hca; try reflexivity.
  destruct (String.compare c b) eqn:Hcb'; try discriminate.
  - apply String.compare_eq_iff in Hcb' as ->. rewrite Hca in Hba. discriminate.
  - rewrite (String.compare_antisym c b) in Hcb'.
    destruct (String.compare b c) eqn:Hbc; try discriminate.
    rewrite (string_compare_Lt_trans b c a Hbc Hca) in Hba. discriminate.
Qed.

Lemma key_lt_asym (a b : bool * string) : key_lt a b = true -> key_lt b a = false.
Proof.
  unfold key_lt. destruct a as [[] a], b as [[] b]; simpl; try congruence;
    apply string_ltb_asym.
Qed.

Lemma listed_before_trans (a b c : string * bool) :
  listed_before a b -> listed_before b c -> listed_before a c.
Proof.
  unfold listed_before, key_lt, sort_key.
  destruct a as [a []], b as [b []], c as [c []]; simpl; try congruence;
    apply string_ltb_false_trans.
Qed.

Lemma sort_insert_perm (x : string * bool) (l : list (string * bool)) :
  sort_insert x l ≡ₚ x :: l.
Proof.
  induction l as [|y l IH]; simpl; [reflexivity|].
  destruct (key_lt (sort_key y) (sort_key x)); [|reflexivity].
  rewrite IH. apply Permutation_swap.
Qed.

Lemma sort_items_perm (l : list (string * bool)) : sort_items l ≡ₚ l.
Proof.
  induction l as [|x l IH]; simpl; [reflexivity|].
  rewrite sort_insert_perm, IH. reflexivity.
Qed.

Lemma sort_insert_sorted (x : string * bool) (l : list (string * bool)) :
  StronglySorted listed_before l -> StronglySorted listed_before (sort_insert x l).
Proof.
  induction l as [|y l IH]; simpl; intros Hl.
  - constructor; constructor.
  - apply StronglySorted_inv in Hl as [Hl Hy].
    destruct (key_lt (sort_key y) (sort_key x)) eqn:Hk.
    + constructor; [apply IH, Hl|].
      rewrite sort_insert_perm. constructor; [|exact Hy].
      apply key_lt_asym, Hk.
    + constructor; [constructor; assumption|].
      constructor; [exact Hk|].
      eapply Forall_impl; [exact Hy|].
      intros z Hz. apply (listed_before_trans x y z); [exact Hk|exact Hz].
Qed.

Lemma sort_items_sorted (l : list (string * bool)) :
  StronglySorted listed_before (sort_items l).
Proof.
  induction l as [|x l IH]; simpl; [constructor|]. apply sort_insert_sorted, IH.
Qed.

(** X1.  A listing of ASCII names that succeeds is the scanned entries,
    every one of them once, in the order of the panel: no entry stands before
    one that sorts strictly lower by (is a file, lower-cased name), so
    directories come before files; for the paths ["/"] and [""] that is the
    whole listing, for every other path the entry [("..", True)] stands in
    front of it. *)
Theorem listings_are_sorted_permutations {Bytes} (E : Env Bytes) (path : string)
    (s : state) :
  (forall items, eval (os_scandir E path) s = Return items ->
     Forall (fun x : string * bool => is_ascii x.1 = true) items ->
     exists sorted,
       eval (list_local_dir E path) s
         = Return (if (path =? "/")%string || (path =? "")%string then sorted
                   else ("..", true) :: sorted) /\
       sorted ≡ₚ items /\ StronglySorted listed_before sorted) /\
  (forall attrs, eval (sftp_listdir_attr E path) s = Return attrs ->
     Forall (fun x : string * Z => is_ascii x.1 = true) attrs ->
     exists sorted,
       eval (list_remote_dir E path) s
         = Return (if (path =? "/")%string || (path =? "")%string then sorted
                   else ("..", true) :: sorted) /\
       sorted ≡ₚ map (fun x : string * Z => (x.1, mode_is_dir x.2)) attrs /\
       StronglySorted listed_before sorted).
Proof.
  split.
  - intros items Hscan _. exists (sort_items items).
    split; [|split; [apply sort_items_perm | apply sort_items_sorted]].
    unfold list_local_dir, eval.
    rewrite (try_except_Return _ _ _ _ (with_parent_entry path (sort_items items)));
      [reflexivity|].
    unfold eval. rewrite (bind_eval_Return _ _ _ _ Hscan). reflexivity.
  - intros attrs Hlist _.
    exists (sort_items (map (fun x : string * Z => (x.1, mode_is_dir x.2)) attrs)).
    split; [|split; [apply sort_items_perm | apply sort_items_sorted]].
    unfold list_remote_dir, eval.
    rewrite (try_except_Return _ _ _ _
               (with_parent_entry path
                  (sort_items (map (fun x : string * Z => (x.1, mode_is_dir x.2)) attrs))));
      [reflexivity|].
    unfold eval. rewrite (bind_eval_Return _ _ _ _ Hlist). reflexivity.
Qed.

Lemma listings_are_sorted_permutations_witness :
  (exists sorted,
     eval (list_local_dir (scripted docs_world) "/home/u/docs") initial
       = Return (("..", true) :: sorted) /\
     sorted ≡ₚ [("z.txt", false); ("old", true); ("x.txt", false); ("y.txt", false)]%string /\
     StronglySorted listed_before sorted) /\
  (exists sorted,
     eval (list_remote_dir (scripted docs_world) "/srv/docs") initial
       = Return (("..", true) :: sorted) /\
     sorted ≡ₚ [("y.txt", false); ("w.txt", false); ("old", true); ("z.txt", false)]%string /\
     StronglySorted listed_before sorted).
Proof.
  destruct (listings_are_sorted_permutations (scripted docs_world) "/home/u/docs" initial)
    as [Hlocal _].
  destruct (listings_are_sorted_permutations (scripted docs_world) "/srv/docs" initial)
    as [_ Hremote].
  split.
  - apply Hlocal.
    + vm_compute. reflexivity.
    + repeat constructor.
  - apply (Hremote [("y.txt", REG_MODE); ("w.txt", REG_MODE); ("old", DIR_MODE);
                    ("z.txt", REG_MODE)]%string).
    + vm_compute. reflexivity.
    + repeat constructor.
Defined.

(** ** The partial checksum of a local file *)

Section ReadLoop.

Context {Bytes : Type} (E : Env Bytes).

Lemma bytes_delivered_nonneg (reads : list (outcome Bytes)) :
  Forall (sound_read E) reads -> 0 <= bytes_delivered E reads.
Proof.
  induction 1 as [|[chunk|e] reads Hr _ IH]; simpl in *; lia.
Qed.

Lemma read_loop_short (reads : list (outcome Bytes)) (m : Z) (h : list Bytes) (n : Z) :
  Forall (sound_read E) reads ->
  n + bytes_delivered E reads < m ->
  read_loop E reads (Some m) h n = read_loop E reads None h n.
Proof.
  revert h n. induction reads as [|[chunk|e] reads IH]; intros h n Hs Hlt; simpl;
    try reflexivity.
  apply Forall_cons in Hs as [Hc Hs]. simpl in Hc, Hlt.
  pose proof (bytes_delivered_nonneg reads Hs) as Hpos.
  destruct (env_len E chunk =? 0); [reflexivity|].
  destruct (Z.geb_spec (n + env_len E chunk) m) as [Hge|Hsmall]; [lia|].
  apply IH; [exact Hs|lia].
Qed.

Lemma read_loop_head (head : list Bytes) (rest1 rest2 : list (outcome Bytes))
    (m : Z) (h : list Bytes) (n : Z) :
  n < m ->
  m <= n + bytes_delivered E (map Return head) ->
  read_loop E (map Return head ++ rest1) (Some m) h n
  = read_loop E (map Return head ++ rest2) (Some m) h n.
Proof.
  revert h n. induction head as [|chunk head IH]; intros h n Hlt Hge; simpl in *; [lia|].
  destruct (env_len E chunk =? 0); [reflexivity|].
  destruct (Z.geb_spec (n + env_len E chunk) m) as [Hstop|Hgo]; [reflexivity|].
  apply IH; lia.
Qed.

Lemma compute_local_checksum_of_file path algo full partial_mb chunk_size s
    (hexdigest : list Bytes -> string) (reads : list (outcome Bytes)) :
  env_isfile E (trace s) path = true ->
  env_hashlib E algo = Some hexdigest ->
  env_open_rb E (trace s ++ [OsPathIsfile path]) path chunk_size = Return reads ->
  compute_local_checksum E path algo full partial_mb chunk_size s =
  (match read_loop E reads (if full then None else Some (partial_mb * 1024 * 1024)) [] 0 with
   | Return h => Return (Some (hexdigest h))
   | Raise e => if is_OSError e then Return None else Raise e
   end,
   {| cmd_log := cmd_log s; trace := trace s ++ [OsPathIsfile path; OpenRb path] |}).
Proof.
  intros Hfile Halgo Hopen.
  unfold compute_local_checksum, os_path_isfile, hashlib_new, open_rb, external,
    try_except, bind, ret, raise.
  cbn [trace cmd_log]. rewrite Hfile. cbn [negb]. rewrite Halgo. cbn [trace cmd_log].
  rewrite Hopen.
  rewrite <- app_assoc. cbn [app].
  destruct (read_loop E reads _ [] 0) as [h|e]; [reflexivity|].
  destruct (is_OSError e); reflexivity.
Qed.

End ReadLoop.

(** X2.  A file that is shorter than the limit of the partial checksum has
    its partial checksum equal to its full one (and is read to its end for
    either): the two runs of [compute_local_checksum] coincide. *)
Theorem short_file_partial_checksum_is_full {Bytes} (E : Env Bytes)
    (path algo : string) (partial_mb chunk_size : Z) (s : state)
    (reads : list (outcome Bytes)) :
  env_open_rb E (trace s ++ [OsPathIsfile path]) path chunk_size = Return reads ->
  Forall (sound_read E) reads ->
  bytes_delivered E reads < partial_mb * 1024 * 1024 ->
  compute_local_checksum E path algo false partial_mb chunk_size s =
  compute_local_checksum E path algo true partial_mb chunk_size s.
Proof.
  intros Hopen Hsound Hshort.
  unfold compute_local_checksum, os_path_isfile, hashlib_new, open_rb, external,
    try_except, bind, ret, raise.
  cbn [trace cmd_log].
  destruct (env_isfile E (trace s) path); cbn [negb]; [|reflexivity].
  destruct (env_hashlib E algo); [|reflexivity].
  cbn [trace cmd_log]. rewrite Hopen.
  rewrite (read_loop_short E reads _ [] 0 Hsound) by lia.
  reflexivity.
Qed.

Lemma short_file_partial_checksum_is_full_witness :
  compute_local_checksum (scripted docs_world) "/home/u/docs/z.txt" "md5" false 5 65536 initial =
  compute_local_checksum (scripted docs_world) "/home/u/docs/z.txt" "md5" true 5 65536 initial.
Proof.
  apply (short_file_partial_checksum_is_full (scripted docs_world) "/home/u/docs/z.txt"
           "md5" 5 65536 initial [Return (5, "final"%string)]).
  - vm_compute. reflexivity.
  - repeat constructor. vm_compute. discriminate.
  - vm_compute. reflexivity.
Defined.

(** X3.  The partial checksum depends on nothing behind the chunk with which
    the limit is reached: two regular files whose reads begin with the same
    chunks, of at least [partial_mb] MB in all, have the same partial
    checksum, whatever follows in either. *)
Theorem partial_checksum_reads_only_the_head {Bytes} (E : Env Bytes)
    (path1 path2 algo : string) (partial_mb chunk_size : Z) (s1 s2 : state)
    (head : list Bytes) (rest1 rest2 : list (outcome Bytes)) :
  env_isfile E (trace s1) path1 = true ->
  env_isfile E (trace s2) path2 = true ->
  env_open_rb E (trace s1 ++ [OsPathIsfile path1]) path1 chunk_size
    = Return (map Return head ++ rest1) ->
  env_open_rb E (trace s2 ++ [OsPathIsfile path2]) path2 chunk_size
    = Return (map Return head ++ rest2) ->
  0 < partial_mb ->
  partial_mb * 1024 * 1024 <= bytes_delivered E (map Return head) ->
  eval (compute_local_checksum E path1 algo false partial_mb chunk_size) s1 =
  eval (compute_local_checksum E path2 algo false partial_mb chunk_size) s2.
Proof.
  intros Hfile1 Hfile2 Hopen1 Hopen2 Hpos Hhead.
  destruct (env_hashlib E algo) as [hexdigest|] eqn:Halgo.
  - unfold eval.
    rewrite (compute_local_checksum_of_file E path1 algo false partial_mb chunk_size s1
               hexdigest _ Hfile1 Halgo Hopen1).
    rewrite (compute_local_checksum_of_file E path2 algo false partial_mb chunk_size s2
               hexdigest _ Hfile2 Halgo Hopen2).
    cbn [fst]. rewrite (read_loop_head E head rest1 rest2) by lia. reflexivity.
  - unfold eval, compute_local_checksum, os_path_isfile, hashlib_new, external, bind, raise.
    cbn [trace cmd_log]. rewrite Hfile1, Hfile2. cbn [negb]. rewrite Halgo. reflexivity.
Qed.

Lemma partial_checksum_reads_only_the_head_witness :
  eval (compute_local_checksum (scripted edited_copy_world) "/home/u/a.bin" "md5" false 1 65536)
       initial =
  eval (compute_local_checksum (scripted edited_copy_world) "/home/u/b.bin" "md5" false 1 65536)
       initial.
Proof.
  apply (partial_checksum_reads_only_the_head (scripted edited_copy_world)
           "/home/u/a.bin" "/home/u/b.bin" "md5" 1 65536 initial initial
           [(1048576, "head"%string)]
           [Return (10, "-old"%string)] [Return (12, "-new"%string)]).
  - vm_compute. reflexivity.
  - vm_compute. reflexivity.
  - vm_compute. reflexivity.
  - vm_compute. reflexivity.
  - lia.
  - vm_compute. discriminate.
Defined.

(** ** The selection of a panel *)

Ltac split_comparisons :=
  repeat match goal with
         | |- context [?a >? ?b] => destruct (Z.gtb_spec a b)
         | |- context [?a >=? ?b] => destruct (Z.geb_spec a b)
         | |- context [?a <? ?b] => destruct (Z.ltb_spec a b)
         end.

(** X4.  On a listing that is not empty, with a visible area that is not
    negative, none of the four navigation keys moves the selection out of the
    listing. *)
Theorem navigation_keeps_selection_in_range (key : nav_key) (sel count visible_area : Z) :
  0 <= sel < count -> 0 <= visible_area ->
  0 <= navigate key sel count visible_area < count.
Proof.
  intros Hsel Harea. destruct key; unfold navigate; split_comparisons; lia.
Qed.

Lemma navigation_keeps_selection_in_range_witness :
  0 <= navigate KEY_NPAGE 7 9 20 < 9.
Proof.
  apply (navigation_keeps_selection_in_range KEY_NPAGE 7 9 20); lia.
Defined.

(** X5.  When the listing has shrunk, the clamp at the top of the main
    loop brings a selection that is not negative back into the listing: a
    selection inside the listing is left alone, one beyond its end is put on
    the last entry, and on an empty listing the selection becomes 0. *)
Theorem clamp_restores_selection (sel count : Z) :
  0 <= sel -> 0 <= count ->
  0 <= clamp_selection sel count /\
  (0 < count -> clamp_selection sel count < count) /\
  (sel < count -> clamp_selection sel count = sel) /\
  (0 < count <= sel -> clamp_selection sel count = count - 1) /\
  (count = 0 -> clamp_selection sel count = 0).
Proof.
  intros Hsel Hcount. unfold clamp_selection. split_comparisons; lia.
Qed.

Lemma clamp_restores_selection_witness :
  0 <= clamp_selection 12 4 /\
  (0 < 4 -> clamp_selection 12 4 < 4) /\
  (12 < 4 -> clamp_selection 12 4 = 12) /\
  (0 < 4 <= 12 -> clamp_selection 12 4 = 4 - 1) /\
  (4 = 0 -> clamp_selection 12 4 = 0).
Proof.
  apply (clamp_restores_selection 12 4); lia.
Defined.

(** X6.  With at least one visible row, the scroll correction makes the
    selected row one of the visible rows, and does not scroll when it already
    is one. *)
Theorem scroll_correction_shows_selection (sel scroll visible_area : Z) :
  1 <= visible_area ->
  let scroll' := correct_scroll sel scroll visible_area in
  scroll' <= sel < scroll' + visible_area /\
  (scroll <= sel < scroll + visible_area -> scroll' = scroll).
Proof.
  intros Harea. unfold correct_scroll. split_comparisons; lia.
Qed.

Lemma scroll_correction_shows_selection_witness :
  let scroll' := correct_scroll 30 0 20 in
  scroll' <= 30 < scroll' + 20 /\ (0 <= 30 < 0 + 20 -> scroll' = 0).
Proof.
  apply (scroll_correction_shows_selection 30 0 20). lia.
Defined.

(** X7.  On an empty listing Page Down sets the selection to -1, and the
    clamp of the next round of the main loop does not repair it, whatever
    the length of the listing then is: the clamp only looks for a selection
    that is too large. *)
Theorem page_down_on_empty_listing_goes_negative (sel visible_area count : Z) :
  0 <= sel -> 0 <= visible_area -> 0 <= count ->
  navigate KEY_NPAGE sel 0 visible_area = -1 /\
  clamp_selection (navigate KEY_NPAGE sel 0 visible_area) count = -1.
Proof.
  intros Hsel Harea Hcount. unfold clamp_selection, navigate.
  split_comparisons; lia.
Qed.

Lemma page_down_on_empty_listing_goes_negative_witness :
  navigate KEY_NPAGE 0 0 20 = -1 /\
  clamp_selection (navigate KEY_NPAGE 0 0 20) 3 = -1.
Proof.
  apply (page_down_on_empty_listing_goes_negative 0 20 3); lia.
Defined.

(** ** Remote paths *)

Lemma append_nil (b : string) : "" +:+ b = b.
Proof. reflexivity. Qed.

Lemma append_cons (x : ascii) (a b : string) : String x a +:+ b = String x (a +:+ b).
Proof. reflexivity. Qed.

Lemma rstrip_app (c : ascii) (a b : string) :
  Str.rstrip c (a +:+ b) =
  match Str.rstrip c b with
  | EmptyString => Str.rstrip c a
  | r => a +:+ r
  end.
Proof.
  induction a as [|x a IH].
  - rewrite append_nil. destruct (Str.rstrip c b); reflexivity.
  - rewrite append_cons. cbn [Str.rstrip]. rewrite IH.
    destruct (Str.rstrip c b) as [|y r]; [reflexivity|].
    rewrite append_cons. destruct a; reflexivity.
Qed.

Lemma endswith_slash_rstrip (s : string) :
  Str.endswith_slash (Str.rstrip Str.slash s) = false.
Proof.
  induction s as [|a s IH]; simpl; [reflexivity|].
  destruct (Str.rstrip Str.slash s) as [|b r] eqn:Hr.
  - destruct (Ascii.eqb a Str.slash) eqn:Ha; simpl; [reflexivity|exact Ha].
  - exact IH.
Qed.

Lemma rstrip_slash_idem (s : string) :
  Str.rstrip Str.slash (Str.rstrip Str.slash s) = Str.rstrip Str.slash s.
Proof.
  destruct (Str.rstrip Str.slash s) as [|a r] eqn:Hr; [reflexivity|].
  rewrite <- Hr.
  assert (Str.endswith_slash (Str.rstrip Str.slash s) = false) as Hend
    by apply endswith_slash_rstrip.
  revert Hend. generalize (Str.rstrip Str.slash s). clear.
  induction s as [|a s IH]; simpl; [reflexivity|].
  destruct s as [|b s].
  - simpl. intros ->. reflexivity.
  - intros Hend. rewrite (IH Hend). reflexivity.
Qed.

Lemma remote_child_rstrip (parent name : string) :
  remote_child parent name = Str.rstrip Str.slash parent +:+ "/" +:+ name.
Proof.
  unfold remote_child. destruct (String.eqb_spec parent "/") as [->|_]; reflexivity.
Qed.

Lemma has_slash_false_rstrip (t : string) :
  Posix.has_slash t = false -> Str.rstrip Str.slash t = t.
Proof.
  induction t as [|a t IH]; simpl; [reflexivity|].
  intros [Ha Ht]%orb_false_iff. rewrite (IH Ht), Ha. destruct t; reflexivity.
Qed.

Lemma has_slash_app (a b : string) :
  Posix.has_slash (a +:+ b) = Posix.has_slash a || Posix.has_slash b.
Proof.
  induction a as [|x a IH]; [reflexivity|].
  rewrite append_cons. cbn [Posix.has_slash]. rewrite IH, orb_assoc. reflexivity.
Qed.

Lemma head_to_last_slash_no_slash (t : string) :
  Posix.has_slash t = false -> Posix.head_to_last_slash t = ""%string.
Proof. destruct t; simpl; [reflexivity|]. intros ->. reflexivity. Qed.

Lemma head_to_last_slash_child (a t : string) :
  Posix.has_slash t = false ->
  Posix.head_to_last_slash (a +:+ "/" +:+ t) = a +:+ "/".
Proof.
  intros Ht. induction a as [|x a IH].
  - rewrite !append_nil. change ("/" +:+ t) with (String "/" t).
    cbn [Posix.head_to_last_slash Posix.has_slash].
    rewrite (head_to_last_slash_no_slash t Ht). reflexivity.
  - rewrite (append_cons x a).
    assert (Posix.has_slash (a +:+ "/" +:+ t) = true) as Hhas
      by (rewrite has_slash_app; apply orb_true_iff; right; reflexivity).
    cbn [Posix.head_to_last_slash Posix.has_slash].
    rewrite Hhas, orb_true_r, IH. reflexivity.
Qed.

Lemma all_slashes_rstrip (s : string) :
  Posix.all_slashes s = true -> Str.rstrip Str.slash s = ""%string.
Proof.
  induction s as [|a s IH]; simpl; [reflexivity|].
  intros [Ha Hs]%andb_true_iff. rewrite (IH Hs), Ha. reflexivity.
Qed.

Lemma all_slashes_app (a b : string) :
  Posix.all_slashes (a +:+ b) = Posix.all_slashes a && Posix.all_slashes b.
Proof.
  induction a as [|x a IH]; [reflexivity|].
  rewrite append_cons. cbn [Posix.all_slashes]. rewrite IH, andb_assoc. reflexivity.
Qed.

Lemma dirname_child (a t : string) :
  Str.rstrip Str.slash a = a ->
  Posix.has_slash t = false ->
  Posix.dirname (a +:+ "/" +:+ t) = if (a =? "")%string then "/"%string else a.
Proof.
  intros Ha Ht. unfold Posix.dirname. rewrite (head_to_last_slash_child a t Ht).
  destruct a as [|x a]; [reflexivity|].
  change ((String x a +:+ "/" =? "")%string) with false.
  change ((String x a =? "")%string) with false. cbn [negb andb].
  destruct (Posix.all_slashes (String x a +:+ "/")) eqn:Hall.
  - rewrite all_slashes_app in Hall. apply andb_true_iff in Hall as [Hall _].
    apply all_slashes_rstrip in Hall. congruence.
  - cbn [negb]. rewrite rstrip_app. exact Ha.
Qed.

Lemma rstrip_child (a t : string) :
  t <> ""%string -> Posix.has_slash t = false ->
  Str.rstrip Str.slash (a +:+ "/" +:+ t) = a +:+ "/" +:+ t.
Proof.
  intros Hne Ht. rewrite rstrip_app.
  change ("/" +:+ t) with (String "/" t). cbn [Str.rstrip].
  rewrite (has_slash_false_rstrip t Ht). destruct t; [congruence|reflexivity].
Qed.

Lemma child_is_not_root (a t : string) : t <> ""%string -> a +:+ "/" +:+ t <> "/"%string.
Proof.
  intros Hne. destruct a as [|x a].
  - rewrite append_nil. change ("/" +:+ t) with (String "/" t). destruct t; congruence.
  - rewrite append_cons. destruct a; [rewrite append_nil|rewrite append_cons]; discriminate.
Qed.

(** X8.  Entering a directory and going up again leads back: for a name
    other than [..], not empty and without a slash, that the server reports
    as a directory, [change_directory_remote] returns the child path, and
    from there [..] returns the path one came from, without its trailing
    slashes (["/"] when nothing else is left), without asking the server. *)
Theorem cd_into_directory_and_back {Bytes} (E : Env Bytes)
    (current_path target : string) (s s' : state) (st_mode : Z) :
  target <> ""%string -> target <> ".."%string -> Posix.has_slash target = false ->
  let newpath := remote_child current_path target in
  let stripped := Str.rstrip Str.slash current_path in
  eval (sftp_stat E newpath) s = Return st_mode ->
  mode_is_dir st_mode = true ->
  eval (change_directory_remote E current_path target) s = Return newpath /\
  change_directory_remote E newpath ".." s'
    = (Return (if (stripped =? "")%string then "/"%string else stripped), s').
Proof.
  intros Hne Hup Hslash newpath stripped Hstat Hdir. split.
  - unfold change_directory_remote.
    destruct (String.eqb_spec target "..") as [|_]; [congruence|].
    fold (remote_child current_path target). fold newpath.
    unfold eval.
    rewrite (bind_eval_Return _ _ _ (Some newpath)); [reflexivity|].
    unfold eval. rewrite (try_except_Return _ _ _ _ (Some newpath)); [reflexivity|].
    unfold eval. rewrite (bind_eval_Return _ _ _ _ Hstat). rewrite Hdir. reflexivity.
  - unfold change_directory_remote. cbn [String.eqb Ascii.eqb Bool.eqb].
    subst newpath. rewrite remote_child_rstrip. fold stripped.
    destruct (String.eqb_spec (stripped +:+ "/" +:+ target) "/") as [Hroot|_].
    + exfalso. exact (child_is_not_root stripped target Hne Hroot).
    + rewrite (rstrip_child stripped target Hne Hslash).
      rewrite (dirname_child stripped target (rstrip_slash_idem current_path) Hslash).
      reflexivity.
Qed.

Lemma cd_into_directory_and_back_witness :
  eval (change_directory_remote (scripted sticky_dir_world) "/srv/tmp/" "cache") initial
    = Return "/srv/tmp/cache"%string /\
  change_directory_remote (scripted sticky_dir_world) "/srv/tmp/cache" ".." initial
    = (Return "/srv/tmp"%string, initial).
Proof.
  apply (cd_into_directory_and_back (scripted sticky_dir_world) "/srv/tmp/" "cache"
           initial initial DIR_MODE).
  - discriminate.
  - discriminate.
  - vm_compute. reflexivity.
  - vm_compute. reflexivity.
  - vm_compute. reflexivity.
Defined.

(** X9.  A target that cannot be entered leaves the path as it is: when
    [sftp.stat] fails with an [IOError], or reports something that is no
    directory, [change_directory_remote] returns the current path after that
    one call.  An exception of another class is not caught. *)
Theorem cd_stays_when_target_is_no_directory {Bytes} (E : Env Bytes)
    (current_path target : string) (s : state) :
  target <> ".."%string ->
  let stat := sftp_stat E (remote_child current_path target) in
  (forall st_mode, eval stat s = Return st_mode -> mode_is_dir st_mode = false ->
     change_directory_remote E current_path target s = (Return current_path, exec stat s)) /\
  (forall e, eval stat s = Raise e ->
     change_directory_remote E current_path target s
       = (if is_OSError e then Return current_path else Raise e, exec stat s)) /\
  calls_since s (exec stat s) = [SftpStat (remote_child current_path target)].
Proof.
  intros Hup stat. unfold change_directory_remote.
  destruct (String.eqb_spec target "..") as [|_]; [congruence|].
  fold (remote_child current_path target). fold stat.
  split; [|split].
  - intros st_mode Hstat Hfile.
    rewrite (bind_eval_Return _ _ _ None).
    + f_equal. unfold exec.
      rewrite (try_except_Return _ _ _ _ None).
      * cbn [snd]. unfold exec. rewrite (bind_eval_Return _ _ _ _ Hstat), Hfile. reflexivity.
      * unfold eval. rewrite (bind_eval_Return _ _ _ _ Hstat), Hfile. reflexivity.
    + unfold eval. rewrite (try_except_Return _ _ _ _ None); [reflexivity|].
      unfold eval. rewrite (bind_eval_Return _ _ _ _ Hstat), Hfile. reflexivity.
  - intros e Hstat. unfold bind at 1.
    destruct (is_OSError e) eqn:He.
    + rewrite (try_except_caught _ _ _ _ e).
      * unfold exec. rewrite (bind_eval_Raise _ _ _ _ Hstat). reflexivity.
      * unfold eval. rewrite (bind_eval_Raise _ _ _ _ Hstat). reflexivity.
      * exact He.
    + rewrite (try_except_passed _ _ _ _ e).
      * unfold exec. rewrite (bind_eval_Raise _ _ _ _ Hstat). reflexivity.
      * unfold eval. rewrite (bind_eval_Raise _ _ _ _ Hstat). reflexivity.
      * exact He.
  - apply calls_since_app. reflexivity.
Qed.

Lemma cd_stays_when_target_is_no_directory_witness :
  change_directory_remote (scripted photos_world) "/srv/photos" "a.jpg" initial
    = (Return "/srv/photos"%string,
       exec (sftp_stat (scripted photos_world) "/srv/photos/a.jpg") initial) /\
  change_directory_remote (scripted photos_world) "/srv/photos" "2019" initial
    = (Return "/srv/photos"%string,
       exec (sftp_stat (scripted photos_world) "/srv/photos/2019") initial).
Proof.
  split.
  - destruct (cd_stays_when_target_is_no_directory (scripted photos_world)
                "/srv/photos" "a.jpg" initial) as [Hfile _]; [discriminate|].
    apply (Hfile REG_MODE).
    + vm_compute. reflexivity.
    + vm_compute. reflexivity.
  - destruct (cd_stays_when_target_is_no_directory (scripted photos_world)
                "/srv/photos" "2019" initial) as (_ & Hgone & _); [discriminate|].
    apply (Hgone no_such_file).
    vm_compute. reflexivity.
Defined.

(** ** What the copies, the diff and the removal call *)

Lemma append_assoc (a b c : string) : (a +:+ b) +:+ c = a +:+ (b +:+ c).
Proof.
  induction a as [|x a IH]; [reflexivity|]. rewrite !append_cons, IH. reflexivity.
Qed.

Lemma prefix_append (a b : string) : String.prefix a (a +:+ b) = true.
Proof.
  induction a as [|x a IH]; [destruct b; reflexivity|].
  rewrite append_cons. simpl. destruct (ascii_dec x x); [exact IH|congruence].
Qed.

Lemma prefix_inv (a q : string) : String.prefix a q = true -> exists t, q = a +:+ t.
Proof.
  revert q. induction a as [|x a IH]; intros q Hq.
  - exists q. reflexivity.
  - destruct q as [|y q]; simpl in Hq; [discriminate|].
    destruct (ascii_dec x y) as [->|]; [|discriminate].
    destruct (IH q Hq) as [t ->]. exists t. reflexivity.
Qed.

Lemma under_refl (root : string) : under root root = true.
Proof. unfold under. rewrite String.eqb_refl. reflexivity. Qed.

Lemma under_child (root p name : string) :
  under root p = true -> under root (remote_child p name) = true.
Proof.
  unfold under. intros [Heq|Hpre]%orb_true_iff; apply orb_true_iff; right;
    rewrite remote_child_rstrip.
  - apply String.eqb_eq in Heq as ->. rewrite <- append_assoc. apply prefix_append.
  - apply prefix_inv in Hpre as [t ->]. rewrite rstrip_app.
    destruct (Str.rstrip Str.slash t) as [|y r].
    + rewrite rstrip_app. cbn [Str.rstrip]. rewrite Ascii.eqb_refl.
      rewrite rstrip_slash_idem, <- append_assoc. apply prefix_append.
    + rewrite append_assoc. apply prefix_append.
Qed.

Section Calls.

Context {Bytes : Type} (E : Env Bytes).

Context (P : call -> bool) (HP : forall c, read_only c = true -> P c = true).

Lemma emits_l2r_skip_identical_reads local_path remote_path :
  emits P (l2r_skip_identical E local_path remote_path).
Proof using HP.
  assert (forall cmd, P (SshExecCommand cmd) = true) as Hssh by (intros; by apply HP).
  unfold l2r_skip_identical.
  apply emits_bind; [by apply emits_external, HP|]. intros size.
  apply emits_bind; [by apply emits_remote_file_exists|]. intros found.
  destruct found; [|apply emits_ret].
  destruct (size >? _); [|apply emits_ret].
  apply emits_bind; [by apply emits_compute_local_checksum; apply HP|]. intros c1.
  apply emits_bind; [by apply emits_compute_remote_checksum|]. intros c2.
  destruct (_ && _); [|apply emits_ret].
  apply emits_bind; [by apply emits_compute_local_checksum; apply HP|]. intros c3.
  apply emits_bind; [by apply emits_compute_remote_checksum|]. intros c4.
  destruct (bool_decide _); repeat emits_step.
Qed.

Lemma emits_r2l_skip_identical_reads remote_path local_path :
  emits P (r2l_skip_identical E remote_path local_path).
Proof using HP.
  assert (forall cmd, P (SshExecCommand cmd) = true) as Hssh by (intros; by apply HP).
  unfold r2l_skip_identical.
  apply emits_bind; [by apply emits_external, HP|]. intros found.
  destruct found; [|apply emits_ret].
  apply emits_bind; [by apply emits_remote_file_size|]. intros [size|];
    [|apply emits_ret].
  destruct (_ && _); [|apply emits_ret].
  apply emits_bind; [by apply emits_compute_remote_checksum|]. intros c1.
  apply emits_bind; [by apply emits_compute_local_checksum; apply HP|]. intros c2.
  destruct (_ && _); [|apply emits_ret].
  apply emits_bind; [by apply emits_compute_remote_checksum|]. intros c3.
  apply emits_bind; [by apply emits_compute_local_checksum; apply HP|]. intros c4.
  destruct (bool_decide _); repeat emits_step.
Qed.

End Calls.

Lemma emits_fold_each {A S} (P : call -> bool) (l : list A) (acc : S)
    (body : A -> S -> M S) :
  (forall x acc, emits P (body x acc)) -> emits P (fold_each l acc body).
Proof.
  intros Hbody. revert acc. induction l as [|x l IH]; intros acc; simpl.
  - apply emits_ret.
  - apply emits_bind; [apply Hbody|]. intros acc'. apply IH.
Qed.

Lemma upload_into_reads (root : string) (c : call) :
  read_only c = true -> upload_into root c = true.
Proof. destruct c; simpl; intros H; first [exact H | discriminate H]. Qed.

Lemma download_call_reads (c : call) : read_only c = true -> download_call c = true.
Proof. destruct c; simpl; intros H; first [exact H | discriminate H]. Qed.

Lemma emits_upload {Bytes} (E : Env Bytes) (root : string) (depth : nat)
    (local_path remote_path : string) :
  under root remote_path = true ->
  emits (upload_into root) (smart_copy_local_to_remote E depth local_path remote_path).
Proof.
  revert local_path remote_path.
  induction depth as [|depth IH]; intros local_path remote_path Hunder; simpl.
  - apply emits_raise.
  - apply emits_bind; [by apply emits_external|]. intros is_dir.
    destruct is_dir.
    + apply emits_bind;
        [apply emits_try_except; [by apply emits_external|intros; apply emits_ret]|].
      intros _. apply emits_bind; [by apply emits_external|]. intros entries.
      apply emits_for_each. intros entry. apply IH. by apply under_child.
    + apply emits_bind;
        [apply emits_l2r_skip_identical_reads, upload_into_reads|].
      intros skipped. destruct skipped; [apply emits_ret|].
      unfold l2r_put.
      apply emits_bind; [apply emits_log_command|]. intros _.
      apply emits_try_except; [by apply emits_external|].
      intros e. apply emits_log_command.
Qed.

(** X10.  An upload writes only into the destination: every [sftp.mkdir]
    and [sftp.put] of [smart_copy_local_to_remote] goes to the destination
    path or to a path that begins with it (stripped of its trailing slashes)
    and a slash, and none of its calls is another modifying file or SFTP
    call. *)
Theorem upload_stays_below_destination {Bytes} (E : Env Bytes) (depth : nat)
    (local_path remote_path : string) (s : state) :
  forallb (upload_into remote_path)
    (calls_since s (exec (smart_copy_local_to_remote E depth local_path remote_path) s))
  = true.
Proof. apply emits_calls_since, emits_upload, under_refl. Qed.

(** X11.  A download makes no modifying SFTP call on the remote side, and
    on the local side it only makes directories and gets files: none of the
    calls of [smart_copy_remote_to_local] is another modifying file or SFTP
    call. *)
Theorem download_leaves_remote_side_alone {Bytes} (E : Env Bytes) (depth : nat)
    (remote_path local_path : string) (s : state) :
  forallb download_call
    (calls_since s (exec (smart_copy_remote_to_local E depth remote_path local_path) s))
  = true.
Proof.
  apply emits_calls_since. clear s. revert remote_path local_path.
  induction depth as [|depth IH]; intros remote_path local_path; simpl.
  - apply emits_raise.
  - apply emits_bind.
    { apply emits_try_except; [|intros; apply emits_ret].
      apply emits_bind; [by apply emits_external|]. intros; apply emits_ret. }
    intros [st_mode|]; [|apply emits_ret].
    destruct (mode_is_dir st_mode).
    + apply emits_bind.
      { apply emits_bind; [by apply emits_external|]. intros present.
        destruct (negb present); [|apply emits_ret].
        apply emits_try_except; [by apply emits_external|intros; apply emits_ret]. }
      intros _. apply emits_try_except; [|intros; apply emits_ret].
      apply emits_bind; [by apply emits_external|]. intros entries.
      apply emits_for_each. intros entry. apply IH.
    + apply emits_bind;
        [apply emits_r2l_skip_identical_reads, download_call_reads|].
      intros skipped. destruct skipped; [apply emits_ret|].
      unfold r2l_get. repeat emits_step.
Qed.

(** X12.  The diff only looks: the calls of [compare_directories] are the
    two listings, [os.path.isfile], [open] for reading and
    [ssh.exec_command], and no other; so none of them is a call that modifies
    the local or the remote side, whatever the algorithm and the mode. *)
Theorem compare_directories_only_reads {Bytes} (E : Env Bytes) (order : set_order)
    (local_path remote_path algo : string) (full : bool) (s : state) :
  let calls :=
    calls_since s
      (exec (compare_directories E order local_path remote_path algo full) s) in
  forallb diff_call calls = true /\ forallb read_only calls = true.
Proof.
  assert (emits diff_call (compare_directories E order local_path remote_path algo full))
    as Hdiff.
  { unfold compare_directories.
    apply emits_bind.
    { unfold list_local_dir. apply emits_try_except; [|intros; apply emits_ret].
      apply emits_bind; [by apply emits_external|]. intros; apply emits_ret. }
    intros local_entries. apply emits_bind.
    { unfold list_remote_dir. apply emits_try_except; [|intros; apply emits_ret].
      apply emits_bind; [by apply emits_external|]. intros; apply emits_ret. }
    intros remote_entries.
    cbv zeta. apply emits_bind; [|intros; apply emits_ret].
    apply emits_fold_each. intros fname [different same].
    apply emits_bind; [by apply emits_compute_local_checksum|]. intros csum_loc.
    apply emits_bind; [by apply emits_compute_remote_checksum|]. intros csum_rem.
    destruct csum_loc as [loc|], csum_rem as [rem|]; try apply emits_ret.
    destruct (bool_decide (loc = rem)); apply emits_ret. }
  intros calls. subst calls.
  pose proof (emits_calls_since diff_call _ s Hdiff) as Hcalls.
  split; [exact Hcalls|].
  apply forallb_forall. intros c Hc.
  assert (diff_call c = true) as Hd
    by (revert c Hc; apply forallb_forall; exact Hcalls).
  destruct c; simpl in Hd; try discriminate Hd; reflexivity.
Qed.

Lemma emits_removal {Bytes} (E : Env Bytes) (root : string) (depth : nat) (path : string) :
  under root path = true ->
  emits (removal_within root) (remove_remote_dir_recursive E depth path).
Proof.
  revert path. induction depth as [|depth IH]; intros path Hunder; simpl.
  - apply emits_raise.
  - apply emits_try_except; [|intros; apply emits_ret].
    apply emits_bind; [by apply emits_external|]. intros items.
    apply emits_bind; [|intros _; by apply emits_external].
    apply emits_for_each. intros item.
    destruct (mode_is_dir item.2).
    + apply IH. by apply under_child.
    + apply emits_external. simpl. by apply under_child.
Qed.

(** X13.  The recursive removal touches nothing outside the tree it
    removes: [remove_remote_dir_recursive] lists, removes and [rmdir]s only
    the given path and paths that begin with it (stripped of its trailing
    slashes) and a slash, and makes no other call. *)
Theorem remote_removal_stays_below_path {Bytes} (E : Env Bytes) (depth : nat)
    (path : string) (s : state) :
  forallb (removal_within path)
    (calls_since s (exec (remove_remote_dir_recursive E depth path) s))
  = true.
Proof. apply emits_calls_since, emits_removal, under_refl. Qed.

(** ** Deleting *)

(** X14.  [delete_local_file_or_dir] never raises.  It asks whether the
    path is a directory and then calls [shutil.rmtree] for a directory and
    [os.remove] for anything else, and nothing more; when that call fails,
    the error ends up as the last line of the log. *)
Theorem delete_local_never_raises {Bytes} (E : Env Bytes) (path : string) (s : state) :
  let delete := delete_local_file_or_dir E path in
  let removal :=
    if env_isdir E (trace s) path
    then env_rmtree E (trace s ++ [OsPathIsdir path]) path
    else env_remove E (trace s ++ [OsPathIsdir path]) path in
  eval delete s = Return tt /\
  calls_since s (exec delete s) =
    [OsPathIsdir path;
     if env_isdir E (trace s) path then ShutilRmtree path else OsRemove path] /\
  (forall e, removal = Raise e ->
     last (cmd_log (exec delete s)) = Some ("Fehler: " +:+ exn_str e)).
Proof.
  intros delete removal. subst delete removal.
  unfold delete_local_file_or_dir, eval, exec, bind, log_command, os_path_isdir,
    try_except, shutil_rmtree, os_remove, external.
  cbn [trace cmd_log].
  destruct (env_isdir E (trace s) path); cbn [trace cmd_log].
  - destruct (env_rmtree E (trace s ++ [OsPathIsdir path]) path) as [[]|e'];
      cbn [fst snd is_Exception trace cmd_log];
      (split; [reflexivity|]);
      (split; [apply calls_since_app; cbn [trace]; by rewrite <- app_assoc|]);
      intros e [= <-]. apply last_log_append.
  - destruct (env_remove E (trace s ++ [OsPathIsdir path]) path) as [[]|e'];
      cbn [fst snd is_Exception trace cmd_log];
      (split; [reflexivity|]);
      (split; [apply calls_since_app; cbn [trace]; by rewrite <- app_assoc|]);
      intros e [= <-]. apply last_log_append.
Qed.

Lemma delete_local_never_raises_witness :
  let delete := delete_local_file_or_dir (scripted readonly_disk_world) "/mnt/cd/photos" in
  eval delete initial = Return tt /\
  calls_since initial (exec delete initial)
    = [OsPathIsdir "/mnt/cd/photos"; ShutilRmtree "/mnt/cd/photos"] /\
  last (cmd_log (exec delete initial))
    = Some "Fehler: [Errno 30] Read-only file system"%string.
Proof.
  destruct (delete_local_never_raises (scripted readonly_disk_world) "/mnt/cd/photos"
              initial) as (Hret & Hcalls & Hlog).
  split; [exact Hret|]. split; [exact Hcalls|].
  apply (Hlog (OSError "[Errno 30] Read-only file system")).
  vm_compute. reflexivity.
Defined.

(** X15.  [delete_remote_file_or_dir] never raises, however little room
    for nested calls is left.  Its first call is [sftp.stat] on the path;
    every call after that is a listing or a removal of the path or of
    something below it. *)
Theorem delete_remote_never_raises {Bytes} (E : Env Bytes) (depth : nat)
    (path : string) (s : state) :
  let delete := delete_remote_file_or_dir E depth path in
  eval delete s = Return tt /\
  exists below,
    calls_since s (exec delete s) = SftpStat path :: below /\
    forallb (removal_within path) below = true.
Proof.
  intros delete. subst delete.
  unfold delete_remote_file_or_dir, eval, exec.
  unfold bind at 1 3. unfold log_command at 1 3.
  set (s0 := {| cmd_log := log_append ("DEL REMOTE " +:+ path) (cmd_log s);
                trace := trace s |}).
  unfold try_except, bind, sftp_stat, external. cbn [trace cmd_log].
  set (s1 := {| cmd_log := cmd_log s0; trace := trace s0 ++ [SftpStat path] |}).
  destruct (env_sftp_stat E (trace s0) path) as [st_mode|e].
  - destruct (mode_is_dir st_mode).
    + destruct (emits_removal E path depth path (under_refl path) s1) as (l & Hl & Hok).
      unfold exec in Hl.
      destruct (remove_remote_dir_recursive E depth path s1) as [[[]|e] s2];
        cbn [fst snd is_Exception log_command trace] in *;
        (split; [reflexivity|]); exists l; (split; [|exact Hok]);
        apply calls_since_app; rewrite Hl; cbn [trace s1 s0];
        by rewrite <- app_assoc.
    + unfold sftp_remove, external.
      destruct (env_sftp_remove E (trace s1) path) as [[]|e];
        cbn [fst snd is_Exception log_command trace cmd_log];
        (split; [reflexivity|]); exists [SftpRemove path];
        (split; [apply calls_since_app; cbn [trace s1 s0]; by rewrite <- app_assoc|]);
        cbn [forallb removal_within]; by rewrite under_refl.
  - cbn [fst snd is_Exception log_command trace cmd_log].
    split; [reflexivity|]. exists []. split; [|reflexivity].
    apply calls_since_app. reflexivity.
Qed.

(** ** A move whose transfer fails *)

(** X16.  A failed transfer does not protect the source of a move.  When
    the transfer of a file raises, the error is logged, the copy returns, and
    the move goes on to remove the source: the calls after the comparison are
    the transfer, the test of the source, and its removal. *)
Theorem move_removes_source_after_failed_transfer {Bytes} (E : Env Bytes) (depth : nat) :
  (forall (local_path remote_path : string) (s0 : state) (e : exn),
     let s1 := exec (os_path_isdir E local_path) s0 in
     let s2 := exec (l2r_skip_identical E local_path remote_path) s1 in
     let move := move_file_local_to_remote E (S depth) local_path remote_path in
     eval (os_path_isdir E local_path) s0 = Return false ->
     eval (l2r_skip_identical E local_path remote_path) s1 = Return false ->
     env_sftp_put E (trace s2) local_path remote_path = Raise e ->
     eval move s0 = Return tt /\
     calls_since s2 (exec move s0) =
       [SftpPut local_path remote_path; OsPathIsfile local_path;
        if env_isfile E (trace s2 ++ [SftpPut local_path remote_path]) local_path
        then OsRemove local_path else ShutilRmtree local_path]) /\
  (forall (remote_path local_path : string) (s0 : state) (st_mode st_mode' : Z) (e : exn),
     let s1 := exec (sftp_stat E remote_path) s0 in
     let s2 := exec (r2l_skip_identical E remote_path local_path) s1 in
     let move := move_file_remote_to_local E (S depth) remote_path local_path in
     eval (sftp_stat E remote_path) s0 = Return st_mode ->
     mode_is_dir st_mode = false ->
     eval (r2l_skip_identical E remote_path local_path) s1 = Return false ->
     env_sftp_get E (trace s2) remote_path local_path = Raise e ->
     env_sftp_stat E (trace s2 ++ [SftpGet remote_path local_path]) remote_path
       = Return st_mode' ->
     mode_is_dir st_mode' = false ->
     eval move s0 = Return tt /\
     calls_since s2 (exec move s0) =
       [SftpGet remote_path local_path; SftpStat remote_path; SftpRemove remote_path]).
Proof.
  split.
  - intros local_path remote_path s0 e s1 s2 move Hfile Hskip Hput.
    assert (exists log, smart_copy_local_to_remote E (S depth) local_path remote_path s0
              = (Return tt,
                 {| cmd_log := log;
                    trace := trace s2 ++ [SftpPut local_path remote_path] |}))
      as [log Hcopy].
    { eexists. rewrite (smart_copy_local_file E depth _ _ _ Hfile). fold s1.
      rewrite (bind_eval_Return _ _ _ _ Hskip). fold s2. cbv iota.
      rewrite l2r_put_run. reflexivity. }
    subst move. unfold move_file_local_to_remote, eval, exec.
    rewrite (bind_Return _ _ _ _ _ Hcopy).
    unfold try_except, bind, os_path_isfile, os_remove, shutil_rmtree, external,
      log_command.
    cbn [trace cmd_log].
    destruct (env_isfile E (trace s2 ++ [SftpPut local_path remote_path]) local_path).
    + destruct (env_remove E _ local_path) as [[]|e']; cbn;
        (split; [done|]); apply calls_since_app; cbn; by rewrite <- !app_assoc.
    + destruct (env_rmtree E _ local_path) as [[]|e']; cbn;
        (split; [done|]); apply calls_since_app; cbn; by rewrite <- !app_assoc.
  - intros remote_path local_path s0 st_mode st_mode' e s1 s2 move
      Hstat Hfile Hskip Hget Hstat' Hfile'.
    assert (exists log, smart_copy_remote_to_local E (S depth) remote_path local_path s0
              = (Return tt,
                 {| cmd_log := log;
                    trace := trace s2 ++ [SftpGet remote_path local_path] |}))
      as [log Hcopy].
    { eexists. rewrite (smart_copy_remote_file E depth _ _ _ _ Hstat Hfile). fold s1.
      rewrite (bind_eval_Return _ _ _ _ Hskip). fold s2. cbv iota.
      rewrite r2l_get_run. reflexivity. }
    subst move. unfold move_file_remote_to_local, eval, exec.
    rewrite (bind_Return _ _ _ _ _ Hcopy).
    unfold try_except, bind, sftp_stat, sftp_remove, external, log_command.
    cbn [trace cmd_log]. rewrite Hstat', Hfile'.
    destruct (env_sftp_remove E _ remote_path) as [[]|e']; cbn;
      (split; [done|]); apply calls_since_app; cbn; by rewrite <- !app_assoc.
Qed.

Lemma move_removes_source_after_failed_transfer_witness :
  let E := scripted refused_transfer_world in
  (let move := move_file_local_to_remote E 1 "/home/u/report.pdf" "/srv/in/report.pdf" in
   eval move initial = Return tt /\
   calls_since initial (exec move initial) =
     [OsPathIsdir "/home/u/report.pdf"; OsPathGetsize "/home/u/report.pdf";
      SshExecCommand "[ -f '/srv/in/report.pdf' ]";
      SftpPut "/home/u/report.pdf" "/srv/in/report.pdf";
      OsPathIsfile "/home/u/report.pdf"; OsRemove "/home/u/report.pdf"]) /\
  (let move := move_file_remote_to_local E 1 "/srv/out/data.csv" "/home/u/data.csv" in
   eval move initial = Return tt /\
   calls_since initial (exec move initial) =
     [SftpStat "/srv/out/data.csv"; OsPathExists "/home/u/data.csv";
      SftpGet "/srv/out/data.csv" "/home/u/data.csv";
      SftpStat "/srv/out/data.csv"; SftpRemove "/srv/out/data.csv"]).
Proof.
  intros E.
  destruct (move_removes_source_after_failed_transfer E 0) as [Hput Hget].
  split.
  - destruct (Hput "/home/u/report.pdf" "/srv/in/report.pdf" initial (OSError "Failure"))
      as [Hret Hcalls].
    + vm_compute. reflexivity.
    + vm_compute. reflexivity.
    + vm_compute. reflexivity.
    + split; [exact Hret|]. vm_compute. reflexivity.
  - destruct (Hget "/srv/out/data.csv" "/home/u/data.csv" initial REG_MODE REG_MODE
                (OSError "[Errno 28] No space left on device")) as [Hret Hcalls].
    + vm_compute. reflexivity.
    + vm_compute. reflexivity.
    + vm_compute. reflexivity.
    + vm_compute. reflexivity.
    + vm_compute. reflexivity.
    + vm_compute. reflexivity.
    + split; [exact Hret|]. vm_compute. reflexivity.
Defined.

(** ** Missing sources and missing destinations *)

(** X17.  A missing source is an error for an upload and nothing for a
    download.  When the local path is no directory and [os.path.getsize]
    raises, [smart_copy_local_to_remote] raises that exception after these two
    calls, with nothing logged and the remote side never asked.  When
    [sftp.stat] raises an [IOError] for the remote path,
    [smart_copy_remote_to_local] returns after this one call, with nothing
    logged; an exception of another class is passed on. *)
Theorem missing_source_fails_upload_not_download {Bytes} (E : Env Bytes) (depth : nat) :
  (forall (local_path remote_path : string) (s : state) (e : exn),
     env_isdir E (trace s) local_path = false ->
     env_getsize E (trace s ++ [OsPathIsdir local_path]) local_path = Raise e ->
     smart_copy_local_to_remote E (S depth) local_path remote_path s =
     (Raise e,
      {| cmd_log := cmd_log s;
         trace := trace s ++ [OsPathIsdir local_path; OsPathGetsize local_path] |})) /\
  (forall (remote_path local_path : string) (s : state) (e : exn),
     env_sftp_stat E (trace s) remote_path = Raise e ->
     smart_copy_remote_to_local E (S depth) remote_path local_path s =
     (if is_OSError e then Return tt else Raise e,
      {| cmd_log := cmd_log s; trace := trace s ++ [SftpStat remote_path] |})).
Proof.
  split.
  - intros local_path remote_path s e Hdir Hsize.
    cbn [smart_copy_local_to_remote].
    unfold bind at 1. unfold os_path_isdir at 1, external at 1. rewrite Hdir.
    unfold l2r_skip_identical. unfold bind at 1 2.
    unfold os_path_getsize, external. cbn [trace cmd_log]. rewrite Hsize.
    by rewrite <- app_assoc.
  - intros remote_path local_path s e Hstat.
    cbn [smart_copy_remote_to_local].
    unfold bind at 1. unfold try_except at 1. unfold bind at 1.
    unfold sftp_stat, external. rewrite Hstat.
    destruct (is_OSError e); reflexivity.
Qed.

Lemma missing_source_fails_upload_not_download_witness :
  let E := scripted big_twin_world in
  smart_copy_local_to_remote E 1 "/home/u/gone.bin" "/srv/gone.bin" initial =
    (Raise no_such_file,
     {| cmd_log := [];
        trace := [OsPathIsdir "/home/u/gone.bin"; OsPathGetsize "/home/u/gone.bin"] |}) /\
  smart_copy_remote_to_local E 1 "/srv/gone.bin" "/home/u/gone.bin" initial =
    (Return tt, {| cmd_log := []; trace := [SftpStat "/srv/gone.bin"] |}).
Proof.
  intros E.
  destruct (missing_source_fails_upload_not_download E 0) as [Hput Hget].
  split.
  - apply (Hput "/home/u/gone.bin" "/srv/gone.bin" initial no_such_file).
    + vm_compute. reflexivity.
    + vm_compute. reflexivity.
  - apply (Hget "/srv/gone.bin" "/home/u/gone.bin" initial no_such_file).
    vm_compute. reflexivity.
Defined.

(** X18.  A local file whose destination does not exist is uploaded
    without being read, however large it is: after the three queries the next
    and last call is the transfer. *)
Theorem upload_to_missing_destination_reads_nothing {Bytes} (E : Env Bytes) (depth : nat)
    (local_path remote_path : string) (s0 : state) (size : Z) :
  let s1 := exec (os_path_isdir E local_path) s0 in
  let s2 := exec (os_path_getsize E local_path) s1 in
  let copy := smart_copy_local_to_remote E (S depth) local_path remote_path in
  eval (os_path_isdir E local_path) s0 = Return false ->
  eval (os_path_getsize E local_path) s1 = Return size ->
  eval (remote_file_exists E remote_path) s2 = Return false ->
  eval copy s0 = Return tt /\
  calls_since s0 (exec copy s0) =
    [OsPathIsdir local_path; OsPathGetsize local_path;
     SshExecCommand ("[ -f '" +:+ remote_path +:+ "' ]");
     SftpPut local_path remote_path].
Proof.
  intros s1 s2 copy Hfile Hsize Hmissing.
  assert (l2r_skip_identical E local_path remote_path s1
          = (Return false, exec (remote_file_exists E remote_path) s2)) as Hskip.
  { unfold l2r_skip_identical.
    by rewrite (bind_eval_Return _ _ _ _ Hsize), (bind_eval_Return _ _ _ _ Hmissing). }
  subst copy. unfold eval, exec.
  rewrite (smart_copy_local_file E depth _ _ _ Hfile). fold s1.
  rewrite (bind_Return _ _ _ _ _ Hskip), l2r_put_run. cbn [fst snd].
  split; [done|]. apply calls_since_app. cbn [trace].
  rewrite remote_file_exists_exec. cbn [trace].
  subst s2 s1. unfold exec, os_path_getsize, os_path_isdir, external. cbn [snd trace].
  by rewrite <- !app_assoc.
Qed.

Lemma upload_to_missing_destination_reads_nothing_witness :
  let copy := smart_copy_local_to_remote (scripted big_twin_world) 1
                "/home/u/big.bin" "/srv/new/big.bin" in
  eval copy initial = Return tt /\
  calls_since initial (exec copy initial) =
    [OsPathIsdir "/home/u/big.bin"; OsPathGetsize "/home/u/big.bin";
     SshExecCommand "[ -f '/srv/new/big.bin' ]";
     SftpPut "/home/u/big.bin" "/srv/new/big.bin"].
Proof.
  apply (upload_to_missing_destination_reads_nothing (scripted big_twin_world) 0
           "/home/u/big.bin" "/srv/new/big.bin" initial 52428800).
  - vm_compute. reflexivity.
  - vm_compute. reflexivity.
  - vm_compute. reflexivity.
Defined.

(** ** Checksums that cannot be had *)

Section PartialComparison.

Context {Bytes : Type} (E : Env Bytes).

Lemma l2r_skip_identical_partial local_path remote_path s size
    (csum_loc_part csum_rem_part : option string) :
  let local_sum :=
    compute_local_checksum E local_path "md5" false PARTIAL_MB DEFAULT_CHUNK_SIZE in
  let remote_sum := compute_remote_checksum E remote_path "md5" false PARTIAL_MB in
  let t1 := exec (os_path_getsize E local_path) s in
  let t2 := exec (remote_file_exists E remote_path) t1 in
  let t3 := exec local_sum t2 in
  eval (os_path_getsize E local_path) s = Return size ->
  size > LARGE_FILE_MB * 1024 * 1024 ->
  eval (remote_file_exists E remote_path) t1 = Return true ->
  eval local_sum t2 = Return csum_loc_part ->
  eval remote_sum t3 = Return csum_rem_part ->
  truthy csum_loc_part && truthy csum_rem_part
    && bool_decide (csum_loc_part = csum_rem_part) = false ->
  l2r_skip_identical E local_path remote_path s = (Return false, exec remote_sum t3).
Proof.
  intros local_sum remote_sum t1 t2 t3 Hsize Hlarge Hfound Hlp Hrp Hdiffer.
  unfold l2r_skip_identical.
  rewrite (bind_eval_Return _ _ _ _ Hsize), (bind_eval_Return _ _ _ _ Hfound).
  cbv iota. replace (size >? LARGE_FILE_MB * 1024 * 1024) with true
    by (symmetry; apply Z.gtb_lt; lia).
  rewrite (bind_eval_Return _ _ _ _ Hlp), (bind_eval_Return _ _ _ _ Hrp).
  by rewrite Hdiffer.
Qed.

Lemma r2l_skip_identical_partial remote_path local_path s size
    (csum_rem_part csum_loc_part : option string) :
  let local_sum :=
    compute_local_checksum E local_path "md5" false PARTIAL_MB DEFAULT_CHUNK_SIZE in
  let remote_sum := compute_remote_checksum E remote_path "md5" false PARTIAL_MB in
  let t1 := exec (os_path_exists E local_path) s in
  let t2 := exec (remote_file_size E remote_path) t1 in
  let t3 := exec remote_sum t2 in
  eval (os_path_exists E local_path) s = Return true ->
  eval (remote_file_size E remote_path) t1 = Return (Some size) ->
  size > LARGE_FILE_MB * 1024 * 1024 ->
  eval remote_sum t2 = Return csum_rem_part ->
  eval local_sum t3 = Return csum_loc_part ->
  truthy csum_rem_part && truthy csum_loc_part
    && bool_decide (csum_rem_part = csum_loc_part) = false ->
  r2l_skip_identical E remote_path local_path s = (Return false, exec local_sum t3).
Proof.
  intros local_sum remote_sum t1 t2 t3 Hfound Hsize Hlarge Hrp Hlp Hdiffer.
  unfold r2l_skip_identical.
  rewrite (bind_eval_Return _ _ _ _ Hfound), (bind_eval_Return _ _ _ _ Hsize).
  cbv iota.
  replace (negb (size =? 0) && (size >? LARGE_FILE_MB * 1024 * 1024)) with true.
  2:{ symmetry. apply andb_true_iff. split.
      - apply negb_true_iff, Z.eqb_neq. unfold LARGE_FILE_MB in Hlarge. lia.
      - apply Z.gtb_lt. lia. }
  rewrite (bind_eval_Return _ _ _ _ Hrp), (bind_eval_Return _ _ _ _ Hlp).
  by rewrite Hdiffer.
Qed.

End PartialComparison.

(** X19.  Unless both partial checksums are there and equal, a large file
    is transferred at once: when one of them is [None] or empty (or they
    differ), the call right after the two partial checksums is the transfer,
    and no full checksum is computed.  In both directions. *)
Theorem unavailable_partial_checksum_transfers {Bytes} (E : Env Bytes) (depth : nat) :
  (forall (local_path remote_path : string) (s0 : state) (size : Z)
          (csum_loc_part csum_rem_part : option string),
     let local_sum :=
       compute_local_checksum E local_path "md5" false PARTIAL_MB DEFAULT_CHUNK_SIZE in
     let remote_sum := compute_remote_checksum E remote_path "md5" false PARTIAL_MB in
     let s1 := exec (os_path_isdir E local_path) s0 in
     let s2 := exec (os_path_getsize E local_path) s1 in
     let s3 := exec (remote_file_exists E remote_path) s2 in
     let s4 := exec local_sum s3 in
     let s5 := exec remote_sum s4 in
     let copy := smart_copy_local_to_remote E (S depth) local_path remote_path in
     eval (os_path_isdir E local_path) s0 = Return false ->
     eval (os_path_getsize E local_path) s1 = Return size ->
     size > 10 * 1024 * 1024 ->
     eval (remote_file_exists E remote_path) s2 = Return true ->
     eval local_sum s3 = Return csum_loc_part ->
     eval remote_sum s4 = Return csum_rem_part ->
     truthy csum_loc_part && truthy csum_rem_part
       && bool_decide (csum_loc_part = csum_rem_part) = false ->
     eval copy s0 = Return tt /\
     calls_since s5 (exec copy s0) = [SftpPut local_path remote_path]) /\
  (forall (remote_path local_path : string) (s0 : state) (st_mode size : Z)
          (csum_rem_part csum_loc_part : option string),
     let local_sum :=
       compute_local_checksum E local_path "md5" false PARTIAL_MB DEFAULT_CHUNK_SIZE in
     let remote_sum := compute_remote_checksum E remote_path "md5" false PARTIAL_MB in
     let s1 := exec (sftp_stat E remote_path) s0 in
     let s2 := exec (os_path_exists E local_path) s1 in
     let s3 := exec (remote_file_size E remote_path) s2 in
     let s4 := exec remote_sum s3 in
     let s5 := exec local_sum s4 in
     let copy := smart_copy_remote_to_local E (S depth) remote_path local_path in
     eval (sftp_stat E remote_path) s0 = Return st_mode ->
     mode_is_dir st_mode = false ->
     eval (os_path_exists E local_path) s1 = Return true ->
     eval (remote_file_size E remote_path) s2 = Return (Some size) ->
     size > 10 * 1024 * 1024 ->
     eval remote_sum s3 = Return csum_rem_part ->
     eval local_sum s4 = Return csum_loc_part ->
     truthy csum_rem_part && truthy csum_loc_part
       && bool_decide (csum_rem_part = csum_loc_part) = false ->
     eval copy s0 = Return tt /\
     calls_since s5 (exec copy s0) = [SftpGet remote_path local_path]).
Proof.
  split.
  - intros local_path remote_path s0 size csum_loc_part csum_rem_part
      local_sum remote_sum s1 s2 s3 s4 s5 copy Hfile Hsize Hlarge Hfound Hlp Hrp Hdiffer.
    pose proof (l2r_skip_identical_partial E local_path remote_path s1 size
                  _ _ Hsize Hlarge Hfound Hlp Hrp Hdiffer) as Hskip.
    subst copy. unfold eval, exec.
    rewrite (smart_copy_local_file E depth _ _ _ Hfile). fold s1.
    rewrite (bind_Return _ _ _ _ _ Hskip), l2r_put_run. cbn [fst snd].
    split; [done|]. by apply calls_since_app.
  - intros remote_path local_path s0 st_mode size csum_rem_part csum_loc_part
      local_sum remote_sum s1 s2 s3 s4 s5 copy
      Hstat Hfile Hfound Hsize Hlarge Hrp Hlp Hdiffer.
    pose proof (r2l_skip_identical_partial E remote_path local_path s1 size
                  _ _ Hfound Hsize Hlarge Hrp Hlp Hdiffer) as Hskip.
    subst copy. unfold eval, exec.
    rewrite (smart_copy_remote_file E depth _ _ _ _ Hstat Hfile). fold s1.
    rewrite (bind_Return _ _ _ _ _ Hskip), r2l_get_run. cbn [fst snd].
    split; [done|]. by apply calls_since_app.
Qed.

Lemma unavailable_partial_checksum_transfers_witness :
  let E := scripted bare_host_world in
  (let copy := smart_copy_local_to_remote E 1 "/home/u/big.bin" "/srv/big.bin" in
   eval copy initial = Return tt /\
   calls_since initial (exec copy initial) =
     [OsPathIsdir "/home/u/big.bin"; OsPathGetsize "/home/u/big.bin";
      SshExecCommand "[ -f '/srv/big.bin' ]";
      OsPathIsfile "/home/u/big.bin"; OpenRb "/home/u/big.bin";
      SshExecCommand "[ -f '/srv/big.bin' ]";
      SshExecCommand "dd if='/srv/big.bin' bs=1M count=5 2>/dev/null | md5sum";
      SftpPut "/home/u/big.bin" "/srv/big.bin"]) /\
  (let copy := smart_copy_remote_to_local E 1 "/srv/big.bin" "/home/u/big.bin" in
   eval copy initial = Return tt /\
   calls_since initial (exec copy initial) =
     [SftpStat "/srv/big.bin"; OsPathExists "/home/u/big.bin";
      SshExecCommand "stat -c %s '/srv/big.bin'";
      SshExecCommand "[ -f '/srv/big.bin' ]";
      SshExecCommand "dd if='/srv/big.bin' bs=1M count=5 2>/dev/null | md5sum";
      OsPathIsfile "/home/u/big.bin"; OpenRb "/home/u/big.bin";
      SftpGet "/srv/big.bin" "/home/u/big.bin"]).
Proof.
  intros E.
  destruct (unavailable_partial_checksum_transfers E 0) as [Hput Hget].
  split.
  - destruct (Hput "/home/u/big.bin" "/srv/big.bin" initial 52428800
                (Some "md5:head"%string) None) as [Hret Hcalls].
    + vm_compute. reflexivity.
    + vm_compute. reflexivity.
    + lia.
    + vm_compute. reflexivity.
    + vm_compute. reflexivity.
    + vm_compute. reflexivity.
    + vm_compute. reflexivity.
    + split; [exact Hret|]. vm_compute. reflexivity.
  - destruct (Hget "/srv/big.bin" "/home/u/big.bin" initial REG_MODE 52428800
                None (Some "md5:head"%string)) as [Hret Hcalls].
    + vm_compute. reflexivity.
    + vm_compute. reflexivity.
    + vm_compute. reflexivity.
    + vm_compute. reflexivity.
    + lia.
    + vm_compute. reflexivity.
    + vm_compute. reflexivity.
    + vm_compute. reflexivity.
    + split; [exact Hret|]. vm_compute. reflexivity.
Defined.

(** X20.  When the partial checksums agree, the file is skipped only if
    the two results of the full checksum are the same.  If they differ, and
    in particular if exactly one of them is [None], the call right after the
    four checksums is the transfer.  In both directions. *)
Theorem one_sided_full_checksum_transfers {Bytes} (E : Env Bytes) (depth : nat) :
  (forall (local_path remote_path : string) (s0 : state) (size : Z) (part : string)
          (csum_loc_full csum_rem_full : option string),
     let local_sum full :=
       compute_local_checksum E local_path "md5" full PARTIAL_MB DEFAULT_CHUNK_SIZE in
     let remote_sum full := compute_remote_checksum E remote_path "md5" full PARTIAL_MB in
     let s1 := exec (os_path_isdir E local_path) s0 in
     let s2 := exec (os_path_getsize E local_path) s1 in
     let s3 := exec (remote_file_exists E remote_path) s2 in
     let s4 := exec (local_sum false) s3 in
     let s5 := exec (remote_sum false) s4 in
     let s6 := exec (local_sum true) s5 in
     let s7 := exec (remote_sum true) s6 in
     let copy := smart_copy_local_to_remote E (S depth) local_path remote_path in
     eval (os_path_isdir E local_path) s0 = Return false ->
     eval (os_path_getsize E local_path) s1 = Return size ->
     size > 10 * 1024 * 1024 ->
     eval (remote_file_exists E remote_path) s2 = Return true ->
     eval (local_sum false) s3 = Return (Some part) ->
     eval (remote_sum false) s4 = Return (Some part) ->
     eval (local_sum true) s5 = Return csum_loc_full ->
     eval (remote_sum true) s6 = Return csum_rem_full ->
     csum_loc_full <> csum_rem_full ->
     eval copy s0 = Return tt /\
     calls_since s7 (exec copy s0) = [SftpPut local_path remote_path]) /\
  (forall (remote_path local_path : string) (s0 : state) (st_mode size : Z) (part : string)
          (csum_rem_full csum_loc_full : option string),
     let local_sum full :=
       compute_local_checksum E local_path "md5" full PARTIAL_MB DEFAULT_CHUNK_SIZE in
     let remote_sum full := compute_remote_checksum E remote_path "md5" full PARTIAL_MB in
     let s1 := exec (sftp_stat E remote_path) s0 in
     let s2 := exec (os_path_exists E local_path) s1 in
     let s3 := exec (remote_file_size E remote_path) s2 in
     let s4 := exec (remote_sum false) s3 in
     let s5 := exec (local_sum false) s4 in
     let s6 := exec (remote_sum true) s5 in
     let s7 := exec (local_sum true) s6 in
     let copy := smart_copy_remote_to_local E (S depth) remote_path local_path in
     eval (sftp_stat E remote_path) s0 = Return st_mode ->
     mode_is_dir st_mode = false ->
     eval (os_path_exists E local_path) s1 = Return true ->
     eval (remote_file_size E remote_path) s2 = Return (Some size) ->
     size > 10 * 1024 * 1024 ->
     eval (remote_sum false) s3 = Return (Some part) ->
     eval (local_sum false) s4 = Return (Some part) ->
     eval (remote_sum true) s5 = Return csum_rem_full ->
     eval (local_sum true) s6 = Return csum_loc_full ->
     csum_rem_full <> csum_loc_full ->
     eval copy s0 = Return tt /\
     calls_since s7 (exec copy s0) = [SftpGet remote_path local_path]).
Proof.
  split.
  - intros local_path remote_path s0 size part csum_loc_full csum_rem_full
      local_sum remote_sum s1 s2 s3 s4 s5 s6 s7 copy
      Hfile Hsize Hlarge Hfound Hlp Hrp Hlf Hrf Hdiffer.
    subst local_sum remote_sum. cbv beta in *.
    pose proof (l2r_skip_identical_large E local_path remote_path s1 size
                  _ _ _ _ Hsize Hlarge Hfound Hlp Hrp Hlf Hrf) as Hskip.
    pose proof (compute_remote_checksum_nonempty E _ _ _ _ _ _ Hrp) as Hpart.
    rewrite (truthy_Some_nonempty part Hpart), bool_decide_eq_true_2 in Hskip by done.
    cbn [andb] in Hskip. rewrite bool_decide_eq_false_2 in Hskip by done.
    subst copy. unfold eval, exec.
    rewrite (smart_copy_local_file E depth _ _ _ Hfile). fold s1.
    rewrite (bind_Return _ _ _ _ _ Hskip), l2r_put_run. cbn [fst snd].
    split; [done|]. by apply calls_since_app.
  - intros remote_path local_path s0 st_mode size part csum_rem_full csum_loc_full
      local_sum remote_sum s1 s2 s3 s4 s5 s6 s7 copy
      Hstat Hfile Hfound Hsize Hlarge Hrp Hlp Hrf Hlf Hdiffer.
    subst local_sum remote_sum. cbv beta in *.
    pose proof (r2l_skip_identical_large E remote_path local_path s1 size
                  _ _ _ _ Hfound Hsize Hlarge Hrp Hlp Hrf Hlf) as Hskip.
    pose proof (compute_remote_checksum_nonempty E _ _ _ _ _ _ Hrp) as Hpart.
    rewrite (truthy_Some_nonempty part Hpart), bool_decide_eq_true_2 in Hskip by done.
    cbn [andb] in Hskip. rewrite bool_decide_eq_false_2 in Hskip by done.
    subst copy. unfold eval, exec.
    rewrite (smart_copy_remote_file E depth _ _ _ _ Hstat Hfile). fold s1.
    rewrite (bind_Return _ _ _ _ _ Hskip), r2l_get_run. cbn [fst snd].
    split; [done|]. by apply calls_since_app.
Qed.

Lemma one_sided_full_checksum_transfers_witness :
  let E := scripted bad_sector_world in
  (let copy := smart_copy_local_to_remote E 1 "/home/u/big.bin" "/srv/big.bin" in
   eval copy initial = Return tt /\
   transfers initial (exec copy initial) = [SftpPut "/home/u/big.bin" "/srv/big.bin"]) /\
  (let copy := smart_copy_remote_to_local E 1 "/srv/big.bin" "/home/u/big.bin" in
   eval copy initial = Return tt /\
   transfers initial (exec copy initial) = [SftpGet "/srv/big.bin" "/home/u/big.bin"]).
Proof.
  intros E.
  destruct (one_sided_full_checksum_transfers E 0) as [Hput Hget].
  split.
  - destruct (Hput "/home/u/big.bin" "/srv/big.bin" initial 52428800 "md5:head"%string
                (Some "md5:headtail"%string) None) as [Hret Hcalls].
    + vm_compute. reflexivity.
    + vm_compute. reflexivity.
    + lia.
    + vm_compute. reflexivity.
    + vm_compute. reflexivity.
    + vm_compute. reflexivity.
    + vm_compute. reflexivity.
    + vm_compute. reflexivity.
    + discriminate.
    + split; [exact Hret|]. vm_compute. reflexivity.
  - destruct (Hget "/srv/big.bin" "/home/u/big.bin" initial REG_MODE 52428800
                "md5:head"%string None (Some "md5:headtail"%string)) as [Hret Hcalls].
    + vm_compute. reflexivity.
    + vm_compute. reflexivity.
    + vm_compute. reflexivity.
    + vm_compute. reflexivity.
    + lia.
    + vm_compute. reflexivity.
    + vm_compute. reflexivity.
    + vm_compute. reflexivity.
    + vm_compute. reflexivity.
    + discriminate.
    + split; [exact Hret|]. vm_compute. reflexivity.
Defined.

(** X21.  What [compute_local_checksum] does before it reads.  A path that
    is no regular file gives [None] after the one test, whatever the
    algorithm.  For a regular file an algorithm that [hashlib] does not know
    raises [ValueError] out of the function, before the file is opened: the
    [except OSError] does not cover it.  A file that cannot be opened gives
    [None]. *)
Theorem local_checksum_before_reading {Bytes} (E : Env Bytes)
    (path algo : string) (full : bool) (partial_mb chunk_size : Z) (s : state) :
  let sum := compute_local_checksum E path algo full partial_mb chunk_size in
  let tested := {| cmd_log := cmd_log s; trace := trace s ++ [OsPathIsfile path] |} in
  (env_isfile E (trace s) path = false -> sum s = (Return None, tested)) /\
  (env_isfile E (trace s) path = true -> env_hashlib E algo = None ->
   sum s = (Raise (ValueError ("unsupported hash type " +:+ algo)), tested)) /\
  (forall e, env_isfile E (trace s) path = true -> is_Some (env_hashlib E algo) ->
     env_open_rb E (trace tested) path chunk_size = Raise e -> is_OSError e = true ->
     sum s = (Return None,
              {| cmd_log := cmd_log s; trace := trace tested ++ [OpenRb path] |})).
Proof.
  intros sum tested. subst sum tested.
  unfold compute_local_checksum, os_path_isfile, hashlib_new, open_rb, external,
    try_except, bind, ret, raise.
  cbn [trace cmd_log].
  split; [|split].
  - intros ->. reflexivity.
  - intros -> ->. reflexivity.
  - intros e -> [hexdigest ->] Hopen He. cbn [negb trace cmd_log].
    rewrite Hopen, He. reflexivity.
Qed.

Lemma local_checksum_before_reading_witness :
  let E := scripted docs_world in
  compute_local_checksum E "/home/u/docs/old" "crc32" true 5 65536 initial
    = (Return None, {| cmd_log := []; trace := [OsPathIsfile "/home/u/docs/old"] |}) /\
  compute_local_checksum E "/home/u/docs/z.txt" "crc32" true 5 65536 initial
    = (Raise (ValueError "unsupported hash type crc32"),
       {| cmd_log := []; trace := [OsPathIsfile "/home/u/docs/z.txt"] |}).
Proof.
  intros E. split.
  - destruct (local_checksum_before_reading E "/home/u/docs/old" "crc32" true 5 65536
                initial) as (Hnone & _ & _).
    apply Hnone. vm_compute. reflexivity.
  - destruct (local_checksum_before_reading E "/home/u/docs/z.txt" "crc32" true 5 65536
                initial) as (_ & Hunknown & _).
    apply Hunknown.
    + vm_compute. reflexivity.
    + vm_compute. reflexivity.
Defined.

(** X22.  [compute_remote_checksum] can fail only in its existence test.
    If [exec_command] raises for the [[ -f ... ]] test, the exception leaves
    the function (the test is outside the [try]).  Once the test has been
    answered, the function returns whatever happens to the digest command;
    and if the test did not exit with 0, it returns [None] without running
    a digest command. *)
Theorem remote_checksum_fails_only_in_existence_test {Bytes} (E : Env Bytes)
    (remote_path algo : string) (full : bool) (partial_mb : Z) (s : state) :
  let sum := compute_remote_checksum E remote_path algo full partial_mb in
  let check_cmd := "[ -f '" +:+ remote_path +:+ "' ]" in
  let tested := {| cmd_log := log_append check_cmd (cmd_log s);
                   trace := trace s ++ [SshExecCommand check_cmd] |} in
  (forall e, env_exec_command E (trace s) check_cmd = Raise e ->
     sum s = (Raise e, tested)) /\
  (forall r, env_exec_command E (trace s) check_cmd = Return r ->
     (exists csum, eval sum s = Return csum) /\
     (exit_status r <> 0 -> sum s = (Return None, tested))).
Proof.
  intros sum check_cmd tested. subst sum tested check_cmd.
  unfold compute_remote_checksum, remote_file_exists, eval, bind, log_command,
    ssh_exec_command, external, try_except, ret.
  cbn [trace cmd_log].
  split.
  - intros e ->. reflexivity.
  - intros r ->. cbn [trace cmd_log]. split.
    + destruct (negb (exit_status r =? 0)); [by eexists|].
      destruct (env_exec_command E _ _) as [r'|e']; [|by eexists].
      destruct (negb (exit_status r' =? 0)); [by eexists|].
      destruct (Str.split _); by eexists.
    + intros Hstatus. apply Z.eqb_neq in Hstatus. rewrite Hstatus. reflexivity.
Qed.

Lemma remote_checksum_fails_only_in_existence_test_witness :
  let E := scripted dying_session_world in
  let after_upload :=
    {| cmd_log := []; trace := [SftpPut "/home/u/photos/a.jpg" "/srv/photos/a.jpg"] |} in
  eval (compute_remote_checksum E "/srv/photos/a.jpg" "md5" true 5) after_upload
    = Raise (SSHException "SSH session not active") /\
  compute_remote_checksum E "/srv/photos/a.jpg" "md5" true 5 initial
    = (Return None,
       {| cmd_log := ["[ -f '/srv/photos/a.jpg' ]"%string];
          trace := [SshExecCommand "[ -f '/srv/photos/a.jpg' ]"] |}).
Proof.
  intros E after_upload. split.
  - destruct (remote_checksum_fails_only_in_existence_test E "/srv/photos/a.jpg" "md5"
                true 5 after_upload) as [Hraise _].
    unfold eval. rewrite (Hraise (SSHException "SSH session not active")).
    + reflexivity.
    + vm_compute. reflexivity.
  - destruct (remote_checksum_fails_only_in_existence_test E "/srv/photos/a.jpg" "md5"
                true 5 initial) as [_ Hanswered].
    destruct (Hanswered {| stdout := ""; stderr := ""; exit_status := 1 |}) as [_ Hnone].
    + vm_compute. reflexivity.
    + rewrite Hnone; [vm_compute; reflexivity|]. vm_compute. discriminate.
Defined.

(** ** What the diff reports *)

Lemma compare_directories_sets {Bytes} (E : Env Bytes) (order : set_order)
    (local_path remote_path algo : string) (full : bool) (s s1 s2 : state)
    (local_entries remote_entries : list (string * bool))
    (only_local only_remote different same : gset string) :
  list_local_dir E local_path s = (Return local_entries, s1) ->
  list_remote_dir E remote_path s1 = (Return remote_entries, s2) ->
  eval (compare_directories E order local_path remote_path algo full) s
    = Return (only_local, only_remote, different, same) ->
  let L : gset string := list_to_set (plain_files local_entries) in
  let R : gset string := list_to_set (plain_files remote_entries) in
  only_local = L ∖ (L ∩ R) /\ only_remote = R ∖ (L ∩ R) /\ different ∪ same = L ∩ R.
Proof.
  intros Hlocal Hremote Hrun L R.
  unfold compare_directories, eval in Hrun.
  rewrite (bind_Return _ _ _ _ _ Hlocal), (bind_Return _ _ _ _ _ Hremote) in Hrun.
  cbv zeta in Hrun. unfold bind at 1 in Hrun.
  match type of Hrun with
  | context [fold_each ?l0 ?acc0 ?body0 s2] =>
      destruct (fold_each l0 acc0 body0 s2) as [[[d sm]|e] s3] eqn:Hfold;
      [|done];
      pose proof (fold_each_invariant
        (fun (seen : list string) (sets : gset string * gset string) =>
           sets.1 ∪ sets.2 = list_to_set seen /\ (NoDup seen -> sets.1 ## sets.2))
        body0) as Hinv
  end.
  specialize (Hinv ltac:(
    intros seen x [d0 sm0] st acc' st' HI Hbody;
    cbv beta iota in Hbody;
    apply (classify_shape _ _ x d0 sm0) in Hbody;
    by apply (classified_step seen x d0 sm0))).
  assert ((∅ : gset string) ∪ (∅ : gset string) = list_to_set ([] : list string)
          /\ (NoDup ([] : list string) -> (∅ : gset string) ## (∅ : gset string)))
    as Hinit by (split; set_solver).
  specialize (Hinv _ [] (∅, ∅) _ _ _ Hinit Hfold). clear Hinit.
  simpl in Hinv. destruct Hinv as [Hunion _].
  unfold ret in Hrun. simpl in Hrun.
  injection Hrun as <- <- <- <-.
  split; [reflexivity|]. split; [reflexivity|].
  rewrite Hunion. apply set_eq. intros x.
  rewrite elem_of_list_to_set, (set_iter_perm order), elem_of_elements. done.
Qed.

(** X23.  What each name in the result of the diff says.  A name is
    reported as only local exactly if it is a file (not a directory, not
    [..]) of the local listing and no file of the remote listing, as only
    remote in the mirrored case, and as different or same exactly if it is a
    file of both listings.  So a name that is a file on one side and a
    directory on the other is reported as being on the one side only. *)
Theorem compare_directories_reports_by_side {Bytes} (E : Env Bytes) (order : set_order)
    (local_path remote_path algo : string) (full : bool) (s s1 s2 : state)
    (local_entries remote_entries : list (string * bool))
    (only_local only_remote different same : gset string) :
  list_local_dir E local_path s = (Return local_entries, s1) ->
  list_remote_dir E remote_path s1 = (Return remote_entries, s2) ->
  eval (compare_directories E order local_path remote_path algo full) s
    = Return (only_local, only_remote, different, same) ->
  forall fname : string,
    let local_file := (fname, false) ∈ local_entries /\ fname <> ".."%string in
    let remote_file := (fname, false) ∈ remote_entries /\ fname <> ".."%string in
    (fname ∈ only_local <-> local_file /\ ~ remote_file) /\
    (fname ∈ only_remote <-> remote_file /\ ~ local_file) /\
    (fname ∈ different ∪ same <-> local_file /\ remote_file).
Proof.
  intros Hlocal Hremote Hrun fname local_file remote_file.
  destruct (compare_directories_sets E order local_path remote_path algo full s s1 s2
              local_entries remote_entries only_local only_remote different same
              Hlocal Hremote Hrun) as (-> & -> & ->).
  assert (fname ∈ (list_to_set (plain_files local_entries) : gset string) <-> local_file)
    as HL by (rewrite elem_of_list_to_set; apply elem_of_plain_files).
  assert (fname ∈ (list_to_set (plain_files remote_entries) : gset string) <-> remote_file)
    as HR by (rewrite elem_of_list_to_set; apply elem_of_plain_files).
  rewrite !elem_of_difference, !elem_of_intersection, HL, HR.
  clear. tauto.
Qed.

Lemma compare_directories_reports_by_side_witness :
  let only_local : gset string := {["x.txt"%string]} in
  let only_remote : gset string := {["w.txt"%string]} in
  let different : gset string := {["y.txt"%string]} in
  let same : gset string := {["z.txt"%string]} in
  let local_entries :=
    [("..", true); ("old", true); ("x.txt", false); ("y.txt", false);
     ("z.txt", false)]%string in
  let remote_entries :=
    [("..", true); ("old", true); ("w.txt", false); ("y.txt", false);
     ("z.txt", false)]%string in
  let fname := "x.txt"%string in
  let local_file := (fname, false) ∈ local_entries /\ fname <> ".."%string in
  let remote_file := (fname, false) ∈ remote_entries /\ fname <> ".."%string in
  (fname ∈ only_local <-> local_file /\ ~ remote_file) /\
  (fname ∈ only_remote <-> remote_file /\ ~ local_file) /\
  (fname ∈ different ∪ same <-> local_file /\ remote_file).
Proof.
  intros only_local only_remote different same local_entries remote_entries fname.
  apply (compare_directories_reports_by_side (scripted docs_world) elements_order
           "/home/u/docs" "/srv/docs" "md5" false initial
           {| cmd_log := []; trace := [OsScandir "/home/u/docs"] |}
           {| cmd_log := [];
              trace := [OsScandir "/home/u/docs"; SftpListdirAttr "/srv/docs"] |}
           local_entries remote_entries only_local only_remote different same).
  - vm_compute. reflexivity.
  - vm_compute. reflexivity.
  - vm_compute. reflexivity.
Defined.

Lemma set_iter_empty (order : set_order) : set_iter order ∅ = [].
Proof.
  apply Permutation_nil. symmetry. rewrite (set_iter_perm order), elements_empty.
  reflexivity.
Qed.

(** X24.  A directory that cannot be listed compares like an empty one.
    If the remote listing fails with an [IOError], the diff reports every
    file of the local listing as only local and nothing else, and ends right
    after the failed listing: no checksum is computed.  Likewise with the
    sides exchanged. *)
Theorem unreadable_directory_compares_as_empty {Bytes} (E : Env Bytes) (order : set_order)
    (local_path remote_path algo : string) (full : bool) (s : state) :
  let compare := compare_directories E order local_path remote_path algo full in
  let s1 := exec (list_local_dir E local_path) s in
  let s2 := exec (list_remote_dir E remote_path) s1 in
  (forall local_entries e,
     eval (list_local_dir E local_path) s = Return local_entries ->
     env_sftp_listdir_attr E (trace s1) remote_path = Raise e ->
     is_OSError e = true ->
     compare s = (Return (list_to_set (plain_files local_entries), ∅, ∅, ∅), s2)) /\
  (forall remote_entries e,
     env_scandir E (trace s) local_path = Raise e ->
     is_OSError e = true ->
     eval (list_remote_dir E remote_path) s1 = Return remote_entries ->
     compare s = (Return (∅, list_to_set (plain_files remote_entries), ∅, ∅), s2)).
Proof.
  intros compare s1 s2. subst compare. split.
  - intros local_entries e Hlocal Hlist He.
    assert (list_remote_dir E remote_path s1 = (Return [], s2)) as Hremote.
    { subst s2. unfold exec, list_remote_dir, try_except, bind, sftp_listdir_attr, external.
      rewrite Hlist, He. reflexivity. }
    unfold compare_directories.
    rewrite (bind_eval_Return _ _ _ _ Hlocal). fold s1.
    rewrite (bind_Return _ _ _ _ _ Hremote). cbv zeta.
    change (plain_files []) with (@nil string).
    replace (list_to_set (plain_files local_entries) ∩ list_to_set [])
      with (∅ : gset string) by set_solver.
    rewrite set_iter_empty. cbn [fold_each]. unfold bind, ret. cbn [fst snd].
    rewrite !difference_empty_L. reflexivity.
  - intros remote_entries e Hscan He Hremote.
    assert (list_local_dir E local_path s = (Return [], s1)) as Hlocal.
    { subst s1. unfold exec, list_local_dir, try_except, bind, os_scandir, external.
      rewrite Hscan, He. reflexivity. }
    unfold compare_directories.
    rewrite (bind_Return _ _ _ _ _ Hlocal).
    rewrite (bind_eval_Return _ _ _ _ Hremote). fold s2. cbv zeta.
    change (plain_files []) with (@nil string).
    replace (list_to_set [] ∩ list_to_set (plain_files remote_entries))
      with (∅ : gset string) by set_solver.
    rewrite set_iter_empty. cbn [fold_each]. unfold bind, ret. cbn [fst snd].
    rewrite !difference_empty_L. reflexivity.
Qed.

Lemma unreadable_directory_compares_as_empty_witness :
  let E := scripted docs_world in
  eval (compare_directories E elements_order "/home/u/docs" "/srv/secret" "md5" false)
       initial
    = Return ({["x.txt"; "y.txt"; "z.txt"]}%string, ∅, ∅, ∅) /\
  calls_since initial
    (exec (compare_directories E elements_order "/home/u/docs" "/srv/secret" "md5" false)
       initial)
    = [OsScandir "/home/u/docs"; SftpListdirAttr "/srv/secret"].
Proof.
  intros E.
  destruct (unreadable_directory_compares_as_empty E elements_order
              "/home/u/docs" "/srv/secret" "md5" false initial) as [Hremote _].
  unfold eval, exec.
  rewrite (Hremote [("..", true); ("old", true); ("x.txt", false); ("y.txt", false);
                    ("z.txt", false)]%string no_such_file).
  - split; vm_compute; reflexivity.
  - vm_compute. reflexivity.
  - vm_compute. reflexivity.
  - reflexivity.
Defined.

(** ** An entry that fails otherwise than in its transfer *)

Lemma for_each_stop {A} (before after : list A) (x : A) (body : A -> M unit) s e :
  eval (for_each before body) s = Return tt ->
  eval (body x) (exec (for_each before body) s) = Raise e ->
  for_each (before ++ x :: after) body s
  = (Raise e, exec (body x) (exec (for_each before body) s)).
Proof.
  intros Hbefore Hx. rewrite (for_each_app _ _ _ _ Hbefore).
  cbn [for_each]. by rewrite (bind_eval_Raise _ _ _ _ Hx).
Qed.

(** X25.  An exception that leaves the copy of one entry ends the copy of
    the directory: the entries listed after it are not visited.  An upload
    passes the exception on to its caller.  A download swallows it if it is
    an [IOError] and returns as if the directory had been copied; an
    exception of another class is passed on. *)
Theorem walk_stops_at_failing_entry {Bytes} (E : Env Bytes) (depth : nat) :
  (forall (local_path remote_path : string) (s0 : state)
          (before after : list (string * bool)) (entry : string * bool) (e : exn),
     let child := fun x : string * bool =>
       smart_copy_local_to_remote E depth
         (os_path_join local_path x.1) (remote_child remote_path x.1) in
     let s1 := exec (os_path_isdir E local_path) s0 in
     let s2 :=
       exec (try_except (sftp_mkdir E remote_path) is_OSError (fun _ => ret tt)) s1 in
     let s3 := exec (os_scandir E local_path) s2 in
     let s4 := exec (for_each before child) s3 in
     eval (os_path_isdir E local_path) s0 = Return true ->
     eval (try_except (sftp_mkdir E remote_path) is_OSError (fun _ => ret tt)) s1
       = Return tt ->
     eval (os_scandir E local_path) s2 = Return (before ++ entry :: after) ->
     eval (for_each before child) s3 = Return tt ->
     eval (child entry) s4 = Raise e ->
     smart_copy_local_to_remote E (S depth) local_path remote_path s0
       = (Raise e, exec (child entry) s4)) /\
  (forall (remote_path local_path : string) (s0 : state) (dir_mode : Z)
          (before after : list (string * Z)) (entry : string * Z) (e : exn),
     let child := fun x : string * Z =>
       smart_copy_remote_to_local E depth
         (remote_child remote_path x.1) (os_path_join local_path x.1) in
     let make_local_dir :=
       (let* present := os_path_exists E local_path in
        if negb present
        then try_except (os_mkdir E local_path) is_OSError (fun _ => ret tt)
        else ret tt) in
     let s1 := exec (sftp_stat E remote_path) s0 in
     let s2 := exec make_local_dir s1 in
     let s3 := exec (sftp_listdir_attr E remote_path) s2 in
     let s4 := exec (for_each before child) s3 in
     eval (sftp_stat E remote_path) s0 = Return dir_mode ->
     mode_is_dir dir_mode = true ->
     eval make_local_dir s1 = Return tt ->
     eval (sftp_listdir_attr E remote_path) s2 = Return (before ++ entry :: after) ->
     eval (for_each before child) s3 = Return tt ->
     eval (child entry) s4 = Raise e ->
     smart_copy_remote_to_local E (S depth) remote_path local_path s0
       = (if is_OSError e then Return tt else Raise e, exec (child entry) s4)).
Proof.
  split.
  - intros local_path remote_path s0 before after entry e child s1 s2 s3 s4
      Hdir Hmkdir Hscan Hbefore Hchild.
    rewrite (smart_copy_local_dir E depth _ _ _ Hdir). fold s1.
    rewrite (bind_eval_Return _ _ _ _ Hmkdir). fold s2.
    rewrite (bind_eval_Return _ _ _ _ Hscan). fold s3.
    fold child. by apply for_each_stop.
  - intros remote_path local_path s0 dir_mode before after entry e child make_local_dir
      s1 s2 s3 s4 Hstat Hdir Hmk Hlist Hbefore Hchild.
    rewrite (smart_copy_remote_dir E depth _ _ _ _ Hstat Hdir). fold s1.
    fold make_local_dir. rewrite (bind_eval_Return _ _ _ _ Hmk). fold s2.
    rewrite (try_except_bind_Return _ _ _ _ _ _ Hlist). fold s3. fold child.
    unfold try_except. rewrite (for_each_stop _ _ _ _ _ _ Hbefore Hchild).
    by destruct (is_OSError e).
Qed.

Lemma walk_stops_at_failing_entry_witness :
  let E := scripted broken_pipe_world in
  (let copy := smart_copy_local_to_remote E 2 "/home/u/photos" "/srv/photos" in
   eval copy initial = Raise (OSError "Socket is closed") /\
   calls_since initial (exec copy initial) =
     [OsPathIsdir "/home/u/photos"; SftpMkdir "/srv/photos"; OsScandir "/home/u/photos";
      OsPathIsdir "/home/u/photos/a.jpg"; OsPathGetsize "/home/u/photos/a.jpg";
      SshExecCommand "[ -f '/srv/photos/a.jpg' ]";
      SftpPut "/home/u/photos/a.jpg" "/srv/photos/a.jpg";
      OsPathIsdir "/home/u/photos/b.jpg"; OsPathGetsize "/home/u/photos/b.jpg";
      SshExecCommand "[ -f '/srv/photos/b.jpg' ]"]) /\
  (let copy := smart_copy_remote_to_local E 2 "/srv/photos" "/home/u/photos" in
   eval copy initial = Return tt /\
   calls_since initial (exec copy initial) =
     [SftpStat "/srv/photos"; OsPathExists "/home/u/photos"; SftpListdirAttr "/srv/photos";
      SftpStat "/srv/photos/a.jpg"; OsPathExists "/home/u/photos/a.jpg";
      SftpGet "/srv/photos/a.jpg" "/home/u/photos/a.jpg";
      SftpStat "/srv/photos/b.jpg"; OsPathExists "/home/u/photos/b.jpg";
      SshExecCommand "stat -c %s '/srv/photos/b.jpg'";
      SshExecCommand "[ -f '/srv/photos/b.jpg' ]"]).
Proof.
  intros E.
  destruct (walk_stops_at_failing_entry E 1) as [Hput Hget].
  split.
  - intros copy. subst copy. unfold eval, exec.
    rewrite (Hput "/home/u/photos" "/srv/photos" initial
               [("a.jpg", false)] [("c.jpg", false)] ("b.jpg", false)
               (OSError "Socket is closed")).
    + split; vm_compute; reflexivity.
    + vm_compute. reflexivity.
    + vm_compute. reflexivity.
    + vm_compute. reflexivity.
    + vm_compute. reflexivity.
    + vm_compute. reflexivity.
  - intros copy. subst copy. unfold eval, exec.
    rewrite (Hget "/srv/photos" "/home/u/photos" initial DIR_MODE
               [("a.jpg", REG_MODE)] [("c.jpg", REG_MODE)] ("b.jpg", REG_MODE)
               (OSError "Socket is closed")).
    + split; vm_compute; reflexivity.
    + vm_compute. reflexivity.
    + vm_compute. reflexivity.
    + vm_compute. reflexivity.
    + vm_compute. reflexivity.
    + vm_compute. reflexivity.
    + vm_compute. reflexivity.
Defined.

(** ** What "same" and "different" stand for *)

(** X26.  The diff reports a name as same only on the strength of two
    digests: both checksum calls for it returned a digest, and the two were
    equal.  A name reported as different had a checksum that could not be
    had, on either side or on both, or two digests that differ. *)
Theorem same_means_equal_digests {Bytes} (E : Env Bytes) (order : set_order)
    (local_path remote_path algo : string) (full : bool) (s : state)
    (only_local only_remote different same : gset string) :
  eval (compare_directories E order local_path remote_path algo full) s
    = Return (only_local, only_remote, different, same) ->
  forall fname : string,
    let local_sum :=
      compute_local_checksum E (os_path_join local_path fname) algo full
        PARTIAL_MB DEFAULT_CHUNK_SIZE in
    let remote_sum :=
      compute_remote_checksum E (remote_child remote_path fname) algo full PARTIAL_MB in
    (fname ∈ same ->
     exists st digest,
       eval local_sum st = Return (Some digest) /\
       eval remote_sum (exec local_sum st) = Return (Some digest)) /\
    (fname ∈ different ->
     exists st csum_loc csum_rem,
       eval local_sum st = Return csum_loc /\
       eval remote_sum (exec local_sum st) = Return csum_rem /\
       (csum_loc = None \/ csum_rem = None \/ csum_loc <> csum_rem)).
Proof.
  intros Hrun.
  unfold compare_directories, eval in Hrun.
  destruct (list_local_dir E local_path s) as [[local_entries|e] s1] eqn:Hlocal;
    [|rewrite (bind_Raise _ _ _ _ _ Hlocal) in Hrun; cbn [fst] in Hrun; discriminate Hrun].
  rewrite (bind_Return _ _ _ _ _ Hlocal) in Hrun.
  destruct (list_remote_dir E remote_path s1) as [[remote_entries|e] s2] eqn:Hremote;
    [|rewrite (bind_Raise _ _ _ _ _ Hremote) in Hrun; cbn [fst] in Hrun; discriminate Hrun].
  rewrite (bind_Return _ _ _ _ _ Hremote) in Hrun.
  cbv zeta in Hrun. unfold bind at 1 in Hrun.
  set (local_sum := fun fname =>
         compute_local_checksum E (os_path_join local_path fname) algo full
           PARTIAL_MB DEFAULT_CHUNK_SIZE) in *.
  set (remote_sum := fun fname =>
         compute_remote_checksum E (remote_child remote_path fname) algo full PARTIAL_MB)
    in *.
  match type of Hrun with
  | context [fold_each ?l0 ?acc0 ?body0 s2] =>
      destruct (fold_each l0 acc0 body0 s2) as [[[d sm]|e] s3] eqn:Hfold;
      [|done];
      pose proof (fold_each_invariant
        (fun (seen : list string) (sets : gset string * gset string) =>
           (forall f, f ∈ sets.2 ->
              exists st digest,
                eval (local_sum f) st = Return (Some digest) /\
                eval (remote_sum f) (exec (local_sum f) st) = Return (Some digest)) /\
           (forall f, f ∈ sets.1 ->
              exists st csum_loc csum_rem,
                eval (local_sum f) st = Return csum_loc /\
                eval (remote_sum f) (exec (local_sum f) st) = Return csum_rem /\
                (csum_loc = None \/ csum_rem = None \/ csum_loc <> csum_rem)))
        body0) as Hinv
  end.
  unfold ret in Hrun. simpl in Hrun. injection Hrun as <- <- <- <-.
  apply (Hinv) with (seen := []) in Hfold.
  - simpl in Hfold. destruct Hfold as [Hsame Hdiff]. intros fname. split.
    + apply Hsame.
    + apply Hdiff.
  - clear Hinv Hfold. intros seen x [d0 sm0] st acc' st' [Hsame Hdiff] Hbody.
    cbv beta iota in Hbody. unfold bind in Hbody.
    change (compute_local_checksum E (os_path_join local_path x) algo full
              PARTIAL_MB DEFAULT_CHUNK_SIZE st) with (local_sum x st) in Hbody.
    destruct (local_sum x st) as [[csum_loc|e1] st1] eqn:Hloc;
      cbv beta iota in Hbody; [|discriminate Hbody].
    change (compute_remote_checksum E (remote_child remote_path x) algo full
              PARTIAL_MB st1) with (remote_sum x st1) in Hbody.
    destruct (remote_sum x st1) as [[csum_rem|e2] st2] eqn:Hrem;
      cbv beta iota in Hbody; [|discriminate Hbody].
    assert (eval (local_sum x) st = Return csum_loc) as Hloc'
      by (unfold eval; by rewrite Hloc).
    assert (eval (remote_sum x) (exec (local_sum x) st) = Return csum_rem) as Hrem'
      by (unfold eval, exec; rewrite Hloc; cbn [snd]; by rewrite Hrem).
    assert (csum_loc = None \/ csum_rem = None \/ csum_loc <> csum_rem ->
            forall f, f ∈ d0 ∪ {[x]} ->
              exists st csum_loc csum_rem,
                eval (local_sum f) st = Return csum_loc /\
                eval (remote_sum f) (exec (local_sum f) st) = Return csum_rem /\
                (csum_loc = None \/ csum_rem = None \/ csum_loc <> csum_rem)) as Hnew.
    { intros Hwhy f [Hf|Hf]%elem_of_union; [by apply Hdiff|].
      apply elem_of_singleton in Hf as ->. by exists st, csum_loc, csum_rem. }
    destruct csum_loc as [loc|], csum_rem as [rem|]; unfold ret in Hbody;
      try (injection Hbody as <- <-; cbn [fst snd]; split; [exact Hsame|];
           apply Hnew; tauto).
    destruct (bool_decide_reflect (loc = rem)) as [->|Hne];
      injection Hbody as <- <-; cbn [fst snd].
    + split; [|exact Hdiff].
      intros f [Hf|Hf]%elem_of_union; [by apply Hsame|].
      apply elem_of_singleton in Hf as ->. by exists st, rem.
    + split; [exact Hsame|]. apply Hnew. right. right. congruence.
  - split; intros f Hf; cbn [fst snd] in Hf; set_solver.
Qed.

Lemma same_means_equal_digests_witness :
  let E := scripted docs_world in
  let local_sum :=
    compute_local_checksum E (os_path_join "/home/u/docs" "z.txt") "md5" false
      PARTIAL_MB DEFAULT_CHUNK_SIZE in
  let remote_sum :=
    compute_remote_checksum E (remote_child "/srv/docs" "z.txt") "md5" false PARTIAL_MB in
  exists st digest,
    eval local_sum st = Return (Some digest) /\
    eval remote_sum (exec local_sum st) = Return (Some digest).
Proof.
  intros E.
  destruct (same_means_equal_digests E elements_order "/home/u/docs" "/srv/docs" "md5"
              false initial {["x.txt"%string]} {["w.txt"%string]} {["y.txt"%string]}
              {["z.txt"%string]}) with (fname := "z.txt"%string) as [Hsame _].
  - vm_compute. reflexivity.
  - apply Hsame. apply elem_of_singleton. reflexivity.
Defined.

(** ** The size of a remote file *)

Lemma digits_value (d : Decimal.uint) (acc : positive) :
  fold_left (fun acc a => 10 * acc + (Z.of_N (N_of_ascii a) - 48))
    (list_ascii_of_string (NilEmpty.string_of_uint d)) (Z.pos acc)
  = Z.pos (Pos.of_uint_acc d acc).
Proof.
  revert acc. induction d; intros acc; cbn [NilEmpty.string_of_uint list_ascii_of_string
    fold_left Pos.of_uint_acc]; try reflexivity;
    match goal with
    | |- fold_left _ _ ?z = _ =>
        match goal with
        | |- _ = Z.pos (Pos.of_uint_acc _ ?p) =>
            replace z with (Z.pos p) by (vm_compute N_of_ascii; lia)
        end
    end; apply IHd.
Qed.

Lemma int_of_digits (d : Decimal.uint) :
  Str.int (NilEmpty.string_of_uint d) = Z.of_N (Pos.of_uint d).
Proof.
  unfold Str.int.
  induction d; cbn [NilEmpty.string_of_uint list_ascii_of_string fold_left Pos.of_uint];
    try reflexivity; try exact IHd;
    match goal with
    | |- fold_left _ _ ?z = Z.of_N (N.pos (Pos.of_uint_acc _ ?p)) =>
        replace z with (Z.pos p) by (vm_compute; reflexivity)
    end; apply digits_value.
Qed.

Lemma digits_are_digits (d : Decimal.uint) :
  forallb Str.is_digit (list_ascii_of_string (NilEmpty.string_of_uint d)) = true.
Proof.
  induction d; cbn [NilEmpty.string_of_uint list_ascii_of_string forallb];
    try reflexivity; rewrite IHd; reflexivity.
Qed.

Lemma isdigit_of_uint (d : Decimal.uint) : Str.isdigit (NilZero.string_of_uint d) = true.
Proof.
  destruct d; [reflexivity|..];
    unfold Str.isdigit, NilZero.string_of_uint;
    cbn [NilEmpty.string_of_uint list_ascii_of_string forallb];
    rewrite digits_are_digits; reflexivity.
Qed.

Lemma int_of_uint (d : Decimal.uint) :
  Str.int (NilZero.string_of_uint d) = Z.of_N (Pos.of_uint d).
Proof.
  destruct d; [reflexivity|..]; unfold NilZero.string_of_uint; apply int_of_digits.
Qed.

Lemma of_int_round_trip (n : Z) :
  0 <= n -> Str.isdigit (Str.of_int n) = true /\ Str.int (Str.of_int n) = n.
Proof.
  intros Hn. unfold Str.of_int. destruct n as [|p|p]; [split; reflexivity| |lia].
  cbn [Z.to_int NilZero.string_of_int]. split; [apply isdigit_of_uint|].
  rewrite int_of_uint, DecimalPos.Unsigned.of_to. reflexivity.
Qed.

(** X27.  [remote_file_size] reads the number that [stat] prints: when the
    command exits with 0 and its output, stripped of white space, is the
    decimal notation of a size, in ASCII digits and not more than 4300 of
    them (the longest string of digits that [int] converts in every version
    of Python), that size is returned; when the command exits with another
    status, or [exec_command] raises, the result is [None]. *)
Theorem remote_file_size_reads_stat_output {Bytes} (E : Env Bytes)
    (remote_path : string) (s : state) :
  let cmd := "stat -c %s '" +:+ remote_path +:+ "'" in
  let size_of := remote_file_size E remote_path in
  (forall r size,
     env_exec_command E (trace s) cmd = Return r ->
     exit_status r = 0 -> 0 <= size ->
     Str.strip (stdout r) = Str.of_int size ->
     (String.length (Str.of_int size) <= 4300)%nat ->
     eval size_of s = Return (Some size)) /\
  (forall r,
     env_exec_command E (trace s) cmd = Return r -> exit_status r <> 0 ->
     eval size_of s = Return None) /\
  (forall e, env_exec_command E (trace s) cmd = Raise e -> eval size_of s = Return None).
Proof.
  intros cmd size_of. subst size_of cmd.
  unfold remote_file_size, eval, bind, log_command, try_except, ssh_exec_command,
    external, ret.
  cbn [trace cmd_log].
  split; [|split].
  - intros r size -> Hstatus Hsize Hout _. cbn [fst].
    destruct (of_int_round_trip size Hsize) as [Hdigit Hint].
    rewrite Hstatus, Hout, Hdigit, Hint. reflexivity.
  - intros r -> Hstatus. apply Z.eqb_neq in Hstatus. rewrite Hstatus. reflexivity.
  - intros e ->. reflexivity.
Qed.

Lemma remote_file_size_reads_stat_output_witness :
  eval (remote_file_size (scripted big_twin_world) "/srv/big.bin") initial
    = Return (Some 52428800) /\
  eval (remote_file_size (scripted big_twin_world) "/srv/gone.bin") initial = Return None.
Proof.
  destruct (remote_file_size_reads_stat_output (scripted big_twin_world) "/srv/big.bin"
              initial) as (Hsize & _ & _).
  destruct (remote_file_size_reads_stat_output (scripted big_twin_world) "/srv/gone.bin"
              initial) as (_ & Hfailed & _).
  split.
  - apply (Hsize {| stdout := "52428800"; stderr := ""; exit_status := 0 |}).
    + vm_compute. reflexivity.
    + reflexivity.
    + lia.
    + vm_compute. reflexivity.
    + apply Nat.leb_le. vm_compute. reflexivity.
  - apply (Hfailed {| stdout := ""; stderr := ""; exit_status := 1 |}).
    + vm_compute. reflexivity.
    + discriminate.
Defined.
